(** * Session and relay engine of the two-player emulator link

    A shallow embedding of [backend/models.py], [backend/room_manager.py],
    [backend/websocket_handler.py] and the room routes of
    [backend/server.py], and the properties of the room registry, the
    expiry sweep, the relay dispatcher and the routes proved over it.

    Conventions of the embedding:
    - a Python [dict] with [str] keys is an insertion-ordered association
      list ([Dict.t]); iteration order is visible in the source
      ([next(... for sid, pid in self.socket_to_player.items() ...)]);
    - Python truthiness is written out: [if s:] on a string is [truthy s],
      so the empty string behaves like [None];
    - objects are stored by value; a method that mutates an object held in a
      dict or in [room.players] writes the new value back at the same place;
    - [datetime.utcnow()] and [uuid.uuid4()] are inputs of the operation that
      calls them;
    - an operation that can raise returns a [result];
    - a coroutine of the handler is run to its end without interleaving;
      logging is left out. *)

From Stdlib Require Import String Ascii List ZArith Bool Lia Sorted Permutation.
Import ListNotations.
Local Open Scope string_scope.
Local Open Scope Z_scope.
#[local] Set Warnings "-register-all".

(** ** Python values *)

(** [bool(s)] for a [str]. *)
Definition truthy (s : string) : bool := negb (s =? "")%string.

(** [bool(o)] for an [Optional[str]]. *)
Definition truthy_opt (o : option string) : bool :=
  match o with
  | Some s => truthy s
  | None => false
  end.

(** [str.upper()] and [str.lower()], on the ASCII letters. *)
Definition upper_ascii (c : ascii) : ascii :=
  let n := nat_of_ascii c in
  if (andb (Nat.leb 97 n) (Nat.leb n 122)) then ascii_of_nat (n - 32) else c.

Definition lower_ascii (c : ascii) : ascii :=
  let n := nat_of_ascii c in
  if (andb (Nat.leb 65 n) (Nat.leb n 90)) then ascii_of_nat (n + 32) else c.

Fixpoint upper (s : string) : string :=
  match s with
  | EmptyString => EmptyString
  | String c s' => String (upper_ascii c) (upper s')
  end.

Fixpoint lower (s : string) : string :=
  match s with
  | EmptyString => EmptyString
  | String c s' => String (lower_ascii c) (lower s')
  end.

(** [datetime] values, in microseconds; [timedelta(hours=h)]. *)
Definition datetime := Z.
Definition timedelta_hours (h : Z) : Z := h * 3600 * 1000000.

(** Exceptions the modelled code can raise. *)
Inductive exn : Type :=
| ValidationError
| AttributeError
| TypeError
| ValueError.

Inductive result (A : Type) : Type :=
| Ok (a : A)
| Raise (e : exn).
Arguments Ok {A} a.
Arguments Raise {A} e.

(** ** Dictionaries *)

Module Dict.
Section Dict.
Context {V : Type}.

Definition t := list (string * V).

Definition empty : t := [].

(** [d.get(k)] *)
Fixpoint get (d : t) (k : string) : option V :=
  match d with
  | [] => None
  | (k', v) :: d' => if (k' =? k)%string then Some v else get d' k
  end.

(** [d[k] = v]: an existing key keeps its place, a new one goes last. *)
Fixpoint setitem (d : t) (k : string) (v : V) : t :=
  match d with
  | [] => [(k, v)]
  | (k', v') :: d' =>
      if (k' =? k)%string then (k', v) :: d' else (k', v') :: setitem d' k v
  end.

(** [del d[k]], for a key that is present. *)
Definition delitem (d : t) (k : string) : t :=
  filter (fun kv => negb (fst kv =? k)%string) d.

(** [k in d] *)
Definition contains (d : t) (k : string) : bool :=
  match get d k with
  | Some _ => true
  | None => false
  end.

Definition keys (d : t) : list string := map fst d.
Definition values (d : t) : list V := map snd d.
End Dict.
Arguments t V : clear implicits.
End Dict.

(** ** models.py *)

Inductive PlayerStatus : Type :=
| CONNECTING
| CONNECTED
| READY
| PLAYING
| DISCONNECTED.

(** What [json.loads] produces, also used for the opaque blobs a player
    stores.  A float is kept only as far as its truth value; an object
    holds each key once. *)
Inductive json : Type :=
| JNull
| JBool (b : bool)
| JInt (n : Z)
| JFloat (nonzero : bool)
| JStr (s : string)
| JList (l : list json)
| JDict (d : list (string * json)).

Module Player.
Record t : Type := mk {
  id : string;
  name : string;
  is_host : bool;
  status : PlayerStatus;
  socket_id : option string;
  rom_loaded : bool;
  rom_name : option string;
  save_state : option (Dict.t json);
  joined_at : datetime
}.

(** [Player(name=..., is_host=..., rom_name=...)]; [id] and [joined_at]
    come from the default factories. *)
Definition new (uuid : string) (name : string) (is_host : bool)
           (rom_name : option string) (now : datetime) : t :=
  mk uuid name is_host CONNECTING None false rom_name None now.

Definition set_is_host (p : t) (b : bool) : t :=
  mk (id p) (name p) b (status p) (socket_id p) (rom_loaded p)
     (rom_name p) (save_state p) (joined_at p).

Definition set_status (p : t) (s : PlayerStatus) : t :=
  mk (id p) (name p) (is_host p) s (socket_id p) (rom_loaded p)
     (rom_name p) (save_state p) (joined_at p).

Definition set_socket_id (p : t) (s : option string) : t :=
  mk (id p) (name p) (is_host p) (status p) s (rom_loaded p)
     (rom_name p) (save_state p) (joined_at p).

Definition set_rom_loaded (p : t) (b : bool) : t :=
  mk (id p) (name p) (is_host p) (status p) (socket_id p) b
     (rom_name p) (save_state p) (joined_at p).

Definition set_save_state (p : t) (s : option (Dict.t json)) : t :=
  mk (id p) (name p) (is_host p) (status p) (socket_id p) (rom_loaded p)
     (rom_name p) s (joined_at p).
End Player.

Module Room.
Record t : Type := mk {
  id : string;
  host_id : string;
  players : list Player.t;
  max_players : Z;
  is_active : bool;
  link_cable_connected : bool;
  created_at : datetime;
  last_activity : datetime
}.

(** The constructor pydantic derives from the class body.  [host_id: str]
    is declared without a default, so it is a required field: a call that
    does not pass it is rejected with a validation error.  [id] is
    [str(uuid.uuid4()).upper()[:6]]. *)
Definition new (uuid : string) (host_id : option string)
           (t_created t_activity : datetime) : result t :=
  match host_id with
  | None => Raise ValidationError
  | Some h =>
      Ok (mk (substring 0 6 (upper uuid)) h [] 2 true false
             t_created t_activity)
  end.

Definition set_players (r : t) (ps : list Player.t) : t :=
  mk (id r) (host_id r) ps (max_players r) (is_active r)
     (link_cable_connected r) (created_at r) (last_activity r).

Definition set_host_id (r : t) (h : string) : t :=
  mk (id r) h (players r) (max_players r) (is_active r)
     (link_cable_connected r) (created_at r) (last_activity r).

Definition set_link_cable_connected (r : t) (b : bool) : t :=
  mk (id r) (host_id r) (players r) (max_players r) (is_active r)
     b (created_at r) (last_activity r).

Definition set_last_activity (r : t) (now : datetime) : t :=
  mk (id r) (host_id r) (players r) (max_players r) (is_active r)
     (link_cable_connected r) (created_at r) now.

Definition len_players (r : t) : Z := Z.of_nat (length (players r)).

(** [add_player]: the outcome, the room afterwards, and the player object
    as the caller sees it afterwards (the first player is made host in
    place). *)
Definition add_player (self : t) (player : Player.t) (now : datetime)
  : bool * t * Player.t :=
  if len_players self >=? max_players self then (false, self, player)
  else
    let first := match players self with [] => true | _ => false end in
    let player := if first then Player.set_is_host player true else player in
    let self := if first then set_host_id self (Player.id player) else self in
    let self := set_players self (players self ++ [player])%list in
    let self := set_last_activity self now in
    let self := if len_players self =? 2
                then set_link_cable_connected self true else self in
    (true, self, player).

(** [remove_player]: whether the room is now empty, and the room. *)
Definition remove_player (self : t) (player_id : string) (now : datetime)
  : bool * t :=
  let self :=
    set_players self
      (filter (fun p => negb (Player.id p =? player_id)%string)
              (players self)) in
  let self := set_last_activity self now in
  let self := if len_players self <? 2
              then set_link_cable_connected self false else self in
  let self :=
    match players self with
    | p0 :: rest =>
        if (host_id self =? player_id)%string
        then set_host_id
               (set_players self (Player.set_is_host p0 true :: rest))
               (Player.id p0)
        else self
    | [] => self
    end in
  (match players self with [] => true | _ => false end, self).

(** [get_player]: the first member with that id. *)
Definition get_player (self : t) (player_id : string) : option Player.t :=
  find (fun p => (Player.id p =? player_id)%string) (players self).

(** In-place update of the object [get_player] returns. *)
Fixpoint update_first (f : Player.t -> Player.t) (player_id : string)
         (ps : list Player.t) : list Player.t :=
  match ps with
  | [] => []
  | p :: ps' =>
      if (Player.id p =? player_id)%string then f p :: ps'
      else p :: update_first f player_id ps'
  end.

Definition update_player (self : t) (player_id : string)
           (f : Player.t -> Player.t) : t :=
  set_players self (update_first f player_id (players self)).
End Room.

(** ** room_manager.py *)

Record RoomManager : Type := mkRoomManager {
  rooms : Dict.t Room.t;
  player_to_room : Dict.t string;
  socket_to_player : Dict.t string
}.

(** [RoomManager()] *)
Definition RoomManager_init : RoomManager :=
  mkRoomManager Dict.empty Dict.empty Dict.empty.

Definition set_rooms (self : RoomManager) (r : Dict.t Room.t) : RoomManager :=
  mkRoomManager r (player_to_room self) (socket_to_player self).

(** What the default factories and the clock give to one constructor call
    and the method call that follows it. *)
Record Draw : Type := mkDraw {
  uuid4 : string;
  t_new : datetime;
  t_touch : datetime
}.

(** [create_room] *)
Definition create_room (self : RoomManager) (host_name : string)
           (rom_name : option string) (dr dp : Draw)
  : result (Room.t * Player.t) * RoomManager :=
  match Room.new (uuid4 dr) None (t_new dr) (t_touch dr) with
  | Raise e => (Raise e, self)
  | Ok room =>
      let host := Player.new (uuid4 dp) host_name true rom_name (t_new dp) in
      let host :=
        if truthy_opt rom_name
        then Player.set_status (Player.set_rom_loaded host true) READY
        else host in
      let '(_, room, host) := Room.add_player room host (t_touch dp) in
      (Ok (room, host),
       mkRoomManager
         (Dict.setitem (rooms self) (Room.id room) room)
         (Dict.setitem (player_to_room self) (Player.id host) (Room.id room))
         (socket_to_player self))
  end.

(** The three failure messages and the success message of [join_room]. *)
Definition msg_not_found : string := "Room not found".
Definition msg_inactive : string := "Room is no longer active".
Definition msg_full : string := "Room is full".
Definition msg_joined : string := "Successfully joined room".
Definition msg_failed : string := "Failed to join room".

(** [join_room] *)
Definition join_room (self : RoomManager) (room_id : string)
           (player_name : string) (rom_name : option string) (d : Draw)
  : (option Room.t * option Player.t * string) * RoomManager :=
  let key := upper room_id in
  match Dict.get (rooms self) key with
  | None => ((None, None, msg_not_found), self)
  | Some room =>
      if negb (Room.is_active room) then ((None, None, msg_inactive), self)
      else if Room.len_players room >=? Room.max_players room
      then ((None, None, msg_full), self)
      else
        let player := Player.new (uuid4 d) player_name false rom_name (t_new d) in
        let player :=
          if truthy_opt rom_name
          then Player.set_status (Player.set_rom_loaded player true) READY
          else player in
        let '(ok, room, player) := Room.add_player room player (t_touch d) in
        if ok
        then ((Some room, Some player, msg_joined),
              mkRoomManager
                (Dict.setitem (rooms self) key room)
                (Dict.setitem (player_to_room self) (Player.id player)
                              (Room.id room))
                (socket_to_player self))
        else ((None, None, msg_failed), self)
  end.

(** [next((sid for sid, pid in d.items() if pid == player_id), None)] *)
Definition first_socket_of (d : Dict.t string) (player_id : string)
  : option string :=
  option_map fst (find (fun kv => (snd kv =? player_id)%string) d).

(** [leave_room] *)
Definition leave_room (self : RoomManager) (player_id : string)
           (now : datetime) : option Room.t * RoomManager :=
  match Dict.get (player_to_room self) player_id with
  | None => (None, self)
  | Some room_id =>
      if negb (truthy room_id) then (None, self)
      else
        match Dict.get (rooms self) room_id with
        | None => (None, self)
        | Some room =>
            let '(is_empty, room) := Room.remove_player room player_id now in
            let rooms1 := Dict.setitem (rooms self) room_id room in
            let p2r := Dict.delitem (player_to_room self) player_id in
            let s2p :=
              match first_socket_of (socket_to_player self) player_id with
              | Some socket_id =>
                  if truthy socket_id
                  then Dict.delitem (socket_to_player self) socket_id
                  else socket_to_player self
              | None => socket_to_player self
              end in
            if is_empty
            then (None, mkRoomManager (Dict.delitem rooms1 room_id) p2r s2p)
            else (Some room, mkRoomManager rooms1 p2r s2p)
        end
  end.

(** [get_room] *)
Definition get_room (self : RoomManager) (room_id : string) : option Room.t :=
  Dict.get (rooms self) (upper room_id).

(** The key under which [get_player_room] finds the room, with the room. *)
Definition player_room_entry (self : RoomManager) (player_id : string)
  : option (string * Room.t) :=
  match Dict.get (player_to_room self) player_id with
  | None => None
  | Some room_id =>
      if truthy room_id
      then option_map (fun r => (room_id, r)) (Dict.get (rooms self) room_id)
      else None
  end.

(** [get_player_room] *)
Definition get_player_room (self : RoomManager) (player_id : string)
  : option Room.t :=
  option_map snd (player_room_entry self player_id).

(** [update_player_status] *)
Definition update_player_status (self : RoomManager) (player_id : string)
           (status : PlayerStatus) (now : datetime) : bool * RoomManager :=
  match player_room_entry self player_id with
  | None => (false, self)
  | Some (room_id, room) =>
      match Room.get_player room player_id with
      | None => (false, self)
      | Some _ =>
          let room :=
            Room.update_player room player_id
              (fun p => Player.set_status p status) in
          let room := Room.set_last_activity room now in
          (true, set_rooms self (Dict.setitem (rooms self) room_id room))
      end
  end.

(** [connect_socket] *)
Definition connect_socket (self : RoomManager) (socket_id player_id : string)
           (now : datetime) : bool * RoomManager :=
  match player_room_entry self player_id with
  | None => (false, self)
  | Some (room_id, room) =>
      match Room.get_player room player_id with
      | None => (false, self)
      | Some _ =>
          let room :=
            Room.update_player room player_id
              (fun p => Player.set_status
                          (Player.set_socket_id p (Some socket_id)) CONNECTED) in
          let room := Room.set_last_activity room now in
          (true,
           mkRoomManager
             (Dict.setitem (rooms self) room_id room)
             (player_to_room self)
             (Dict.setitem (socket_to_player self) socket_id player_id))
      end
  end.

(** [get_player_by_socket], with the key of the room. *)
Definition player_by_socket_entry (self : RoomManager) (socket_id : string)
  : option (string * Room.t * Player.t) :=
  match Dict.get (socket_to_player self) socket_id with
  | None => None
  | Some player_id =>
      if negb (truthy player_id) then None
      else
        match player_room_entry self player_id with
        | None => None
        | Some (room_id, room) =>
            match Room.get_player room player_id with
            | None => None
            | Some player => Some (room_id, room, player)
            end
        end
  end.

Definition get_player_by_socket (self : RoomManager) (socket_id : string)
  : option (Room.t * Player.t) :=
  option_map (fun x => (snd (fst x), snd x))
             (player_by_socket_entry self socket_id).

(** [disconnect_socket] *)
Definition disconnect_socket (self : RoomManager) (socket_id : string)
  : option (Room.t * Player.t) * RoomManager :=
  match player_by_socket_entry self socket_id with
  | None => (None, self)
  | Some (room_id, room, player) =>
      let upd := fun p => Player.set_status (Player.set_socket_id p None)
                                            DISCONNECTED in
      let room := Room.update_player room (Player.id player) upd in
      (Some (room, upd player),
       mkRoomManager
         (Dict.setitem (rooms self) room_id room)
         (player_to_room self)
         (Dict.delitem (socket_to_player self) socket_id))
  end.

(** [remove_room]; the loop runs over the copy [room.players[:]], and the
    clock readings of its [leave_room] calls are taken as the one [now]. *)
Definition remove_room (self : RoomManager) (room_id : string)
           (now : datetime) : RoomManager :=
  match Dict.get (rooms self) room_id with
  | None => self
  | Some room =>
      let self :=
        fold_left (fun st p => snd (leave_room st (Player.id p) now))
                  (Room.players room) self in
      if Dict.contains (rooms self) room_id
      then set_rooms self (Dict.delitem (rooms self) room_id)
      else self
  end.

(** One pass of the loop body of [_cleanup_inactive_rooms], up to the
    [asyncio.sleep]: [now] is the clock at the start of the pass, [t_rm] the
    clock during the removals.  [remove_room] has no [await] inside, so the
    pass is not interleaved with other coroutines. *)
Definition rooms_to_remove (self : RoomManager) (now : datetime)
  : list string :=
  let cutoff_time := now - timedelta_hours 1 in
  map fst
      (filter (fun kv => (Room.last_activity (snd kv) <? cutoff_time)
                         || negb (Room.is_active (snd kv)))
              (rooms self)).

Definition cleanup_cycle (self : RoomManager) (now t_rm : datetime)
  : RoomManager :=
  fold_left (fun st room_id => remove_room st room_id t_rm)
            (rooms_to_remove self now) self.

(** ** websocket_handler.py *)

(** [bool(j)] for a value [json.loads] produced. *)
Definition json_truthy (j : json) : bool :=
  match j with
  | JNull => false
  | JBool b => b
  | JInt n => negb (n =? 0)
  | JFloat nonzero => nonzero
  | JStr s => truthy s
  | JList l => match l with [] => false | _ => true end
  | JDict d => match d with [] => false | _ => true end
  end.

(** [obj.get(key)] and [obj.get(key, default)]: only a dict has [get]; a
    missing key gives [None], which is [JNull] here. *)
Definition json_get_default (obj : json) (key : string) (default : json)
  : result json :=
  match obj with
  | JDict d =>
      Ok (match Dict.get d key with Some v => v | None => default end)
  | _ => Raise AttributeError
  end.

Definition json_get (obj : json) (key : string) : result json :=
  json_get_default obj key JNull.

(** [j == 'literal'] *)
Definition json_eq_str (j : json) (s : string) : bool :=
  match j with
  | JStr s' => (s' =? s)%string
  | _ => false
  end.

(** [hasattr(PlayerStatus, n)] / [getattr]: the member names. *)
Definition PlayerStatus_by_name (n : string) : option PlayerStatus :=
  if (n =? "CONNECTING")%string then Some CONNECTING
  else if (n =? "CONNECTED")%string then Some CONNECTED
  else if (n =? "READY")%string then Some READY
  else if (n =? "PLAYING")%string then Some PLAYING
  else if (n =? "DISCONNECTED")%string then Some DISCONNECTED
  else None.

(** [PlayerStatus(v)]: lookup by value. *)
Definition PlayerStatus_by_value (v : string) : option PlayerStatus :=
  if (v =? "connecting")%string then Some CONNECTING
  else if (v =? "connected")%string then Some CONNECTED
  else if (v =? "ready")%string then Some READY
  else if (v =? "playing")%string then Some PLAYING
  else if (v =? "disconnected")%string then Some DISCONNECTED
  else None.

(** The outbound messages, one constructor per dict literal of the handler;
    [room] is the snapshot [room.dict()] taken when the literal is built. *)
Inductive Message : Type :=
| MsgError (message : string)
| MsgPong
| MsgPlayerJoined (room : Room.t) (message : string)
| MsgRoomJoined (room : Room.t) (message : string)
| MsgPlayerLeft (room : Room.t) (player_name message : string)
| MsgLinkCableData (action payload : json) (from_player : string)
                   (timestamp : json)
| MsgPlayerStatusUpdated (player_id player_name : string) (status : string)
                         (room : Room.t)
| MsgSaveStateResponse (action : string) (success : bool)
                       (save_data : option json) (message : string).

(** A live transport handle: whether
    [await websocket.send_text(json.dumps(message))] goes through. *)
Record WebSocket : Type := mkWebSocket {
  send_text_ok : Message -> bool
}.

(** The two module-level singletons the handler works on. *)
Record World : Type := mkWorld {
  room_manager : RoomManager;
  active_connections : Dict.t WebSocket
}.

(** What one call of [send_message] did. *)
Inductive Outcome : Type :=
| Delivered
| SendFailed
| NotConnected.

Record SendEvent : Type := mkSendEvent {
  ev_socket : string;
  ev_message : Message;
  ev_outcome : Outcome
}.

(** Handler code runs over the world, logs its [send_message] calls and may
    raise; an exception keeps the world and the log reached so far. *)
Definition M (A : Type) : Type := World -> result A * World * list SendEvent.

Definition ret {A : Type} (a : A) : M A := fun w => (Ok a, w, []).

Definition bind {A B : Type} (m : M A) (k : A -> M B) : M B :=
  fun w =>
    match m w with
    | (Ok a, w1, l1) => let '(r, w2, l2) := k a w1 in (r, w2, (l1 ++ l2)%list)
    | (Raise e, w1, l1) => (Raise e, w1, l1)
    end.

Definition lift {A : Type} (r : result A) : M A := fun w => (r, w, []).

Definition try_except {A : Type} (m : M A) (handler : exn -> M A) : M A :=
  fun w =>
    match m w with
    | (Raise e, w1, l1) =>
        let '(r, w2, l2) := handler e w1 in (r, w2, (l1 ++ l2)%list)
    | done => done
    end.

(** A registry method called on the [room_manager] singleton. *)
Definition call {A : Type} (f : RoomManager -> A * RoomManager) : M A :=
  fun w =>
    let '(a, rm) := f (room_manager w) in
    (Ok a, mkWorld rm (active_connections w), []).

Definition query {A : Type} (f : RoomManager -> A) : M A :=
  fun w => (Ok (f (room_manager w)), w, []).

Notation "x <- m ;; k" := (bind m (fun x => k))
  (at level 61, m at next level, right associativity).
Notation "m ;;; k" := (bind m (fun _ => k))
  (at level 61, right associativity).

(** [WebSocketManager.disconnect] *)
Definition ws_disconnect (socket_id : string) : M unit :=
  fun w =>
    (Ok tt,
     (if Dict.contains (active_connections w) socket_id
      then mkWorld (room_manager w)
                   (Dict.delitem (active_connections w) socket_id)
      else w),
     []).

(** [send_message] *)
Definition send_message (socket_id : string) (message : Message) : M bool :=
  fun w =>
    match Dict.get (active_connections w) socket_id with
    | Some websocket =>
        if send_text_ok websocket message
        then (Ok true, w, [mkSendEvent socket_id message Delivered])
        else
          let '(_, w1, _) := ws_disconnect socket_id w in
          (Ok false, w1, [mkSendEvent socket_id message SendFailed])
    | None => (Ok false, w, [mkSendEvent socket_id message NotConnected])
    end.

(** The loop of [broadcast_to_room] over [room.players]. *)
Fixpoint broadcast_loop (ps : list Player.t) (message : Message)
         (exclude_socket : option string) : M unit :=
  match ps with
  | [] => ret tt
  | player :: ps' =>
      (match Player.socket_id player with
       | Some sid =>
           if truthy sid
              && negb (match exclude_socket with
                       | Some x => (sid =? x)%string
                       | None => false
                       end)
           then send_message sid message ;;; ret tt
           else ret tt
       | None => ret tt
       end) ;;;
      broadcast_loop ps' message exclude_socket
  end.

(** [broadcast_to_room] *)
Definition broadcast_to_room (room_id : string) (message : Message)
           (exclude_socket : option string) : M unit :=
  room <- query (fun rm => get_room rm room_id) ;;
  match room with
  | None => ret tt
  | Some room => broadcast_loop (Room.players room) message exclude_socket
  end.

(** [room_manager.connect_socket(socket_id, player_id)] with the value the
    client sent as [player_id]: a list or dict is unhashable, so the dict
    lookup raises; a number or boolean is hashable and matches no key. *)
Definition connect_socket_json (socket_id : string) (player_id : json)
           (now : datetime) : M bool :=
  match player_id with
  | JStr s => call (fun rm => connect_socket rm socket_id s now)
  | JList _ | JDict _ => lift (Raise TypeError)
  | _ => ret false
  end.

Definition get_player_room_json (player_id : json) : M (option Room.t) :=
  match player_id with
  | JStr s => query (fun rm => get_player_room rm s)
  | JList _ | JDict _ => lift (Raise TypeError)
  | _ => ret None
  end.

Definition err_player_id_required : Message := MsgError "Player ID required".
Definition err_failed_to_join : Message := MsgError "Failed to join room".
Definition err_link_not_connected : Message :=
  MsgError "Link cable not connected".
Definition err_no_other_player : Message :=
  MsgError "No other player connected".
Definition err_failed_to_process : Message :=
  MsgError "Failed to process message".

(** [_handle_join_room] *)
Definition _handle_join_room (socket_id : string) (data : json)
           (now : datetime) : M unit :=
  player_id <- lift (json_get data "player_id") ;;
  if negb (json_truthy player_id)
  then send_message socket_id err_player_id_required ;;; ret tt
  else
    ok <- connect_socket_json socket_id player_id now ;;
    if (ok : bool)
    then
      room_data <- get_player_room_json player_id ;;
      match room_data with
      | Some room_data =>
          broadcast_to_room (Room.id room_data)
            (MsgPlayerJoined room_data "A player has connected")
            (Some socket_id) ;;;
          send_message socket_id
            (MsgRoomJoined room_data "Successfully connected to room") ;;;
          ret tt
      | None => ret tt
      end
    else send_message socket_id err_failed_to_join ;;; ret tt.

(** [_handle_leave_room] *)
Definition _handle_leave_room (socket_id : string) : M unit :=
  result <- call (fun rm => disconnect_socket rm socket_id) ;;
  match result with
  | Some (room, player) =>
      broadcast_to_room (Room.id room)
        (MsgPlayerLeft room (Player.name player)
           (Player.name player ++ " has left the room"))
        (Some socket_id)
  | None => ret tt
  end.

(** The search loop of [_handle_link_cable_data]. *)
Definition other_player (room : Room.t) (sender : Player.t)
  : option Player.t :=
  find (fun player => negb (Player.id player =? Player.id sender)%string
                      && truthy_opt (Player.socket_id player))
       (Room.players room).

(** [_handle_link_cable_data] *)
Definition _handle_link_cable_data (socket_id : string) (data : json)
  : M unit :=
  result <- query (fun rm => get_player_by_socket rm socket_id) ;;
  match result with
  | None => ret tt
  | Some (room, sender) =>
      if negb (Room.link_cable_connected room)
      then send_message socket_id err_link_not_connected ;;; ret tt
      else
        match other_player room sender with
        | None => send_message socket_id err_no_other_player ;;; ret tt
        | Some other =>
            action <- lift (json_get data "action") ;;
            payload <- lift (json_get_default data "payload" (JDict [])) ;;
            timestamp <- lift (json_get data "timestamp") ;;
            match Player.socket_id other with
            | Some other_socket =>
                send_message other_socket
                  (MsgLinkCableData action payload (Player.name sender)
                                    timestamp) ;;;
                ret tt
            | None => ret tt
            end
        end
  end.

(** [_handle_player_status].  [room] aliases the stored room, so the
    snapshot sent after [update_player_status] is read back from the
    registry; only a [str] has [upper]. *)
Definition _handle_player_status (socket_id : string) (data : json)
           (now : datetime) : M unit :=
  result <- query (fun rm => player_by_socket_entry rm socket_id) ;;
  match result with
  | None => ret tt
  | Some (room_id, room, player) =>
      status <- lift (json_get data "status") ;;
      if negb (json_truthy status) then ret tt
      else
        match status with
        | JStr s =>
            match PlayerStatus_by_name (upper s) with
            | None => ret tt
            | Some _ =>
                new_status <-
                  lift (match PlayerStatus_by_value (lower s) with
                        | Some st => Ok st
                        | None => Raise ValueError
                        end) ;;
                ok <- call (fun rm => update_player_status
                                        rm (Player.id player) new_status now) ;;
                if (ok : bool)
                then
                  room <- query (fun rm =>
                                   match Dict.get (rooms rm) room_id with
                                   | Some r => r
                                   | None => room
                                   end) ;;
                  broadcast_to_room (Room.id room)
                    (MsgPlayerStatusUpdated (Player.id player)
                       (Player.name player) s room)
                    None
                else ret tt
            end
        | _ => lift (Raise AttributeError)
        end
  end.

(** [player.save_state = {...}] on the stored player. *)
Definition store_save_state (room_id player_id : string) (blob : Dict.t json)
           (self : RoomManager) : unit * RoomManager :=
  match Dict.get (rooms self) room_id with
  | Some room =>
      (tt,
       set_rooms self
         (Dict.setitem (rooms self) room_id
            (Room.update_player room player_id
               (fun p => Player.set_save_state p (Some blob)))))
  | None => (tt, self)
  end.

(** [_handle_save_state] *)
Definition _handle_save_state (socket_id : string) (data : json) : M unit :=
  result <- query (fun rm => player_by_socket_entry rm socket_id) ;;
  match result with
  | None => ret tt
  | Some (room_id, room, player) =>
      action <- lift (json_get data "action") ;;
      if json_eq_str action "save"
      then
        save_data <- lift (json_get data "save_data") ;;
        screenshot <- lift (json_get data "screenshot") ;;
        timestamp <- lift (json_get data "timestamp") ;;
        call (store_save_state room_id (Player.id player)
                [("data", save_data); ("screenshot", screenshot);
                 ("timestamp", timestamp)]) ;;;
        send_message socket_id
          (MsgSaveStateResponse "save" true None
             "Game state saved successfully") ;;;
        ret tt
      else if json_eq_str action "load"
      then
        match Player.save_state player with
        | Some ((_ :: _) as saved) =>
            send_message socket_id
              (MsgSaveStateResponse "load" true
                 (Some (match Dict.get saved "data" with
                        | Some v => v
                        | None => JNull
                        end))
                 "Game state loaded successfully") ;;;
            ret tt
        | _ =>
            send_message socket_id
              (MsgSaveStateResponse "load" false None
                 "No save state found") ;;;
            ret tt
        end
      else ret tt
  end.

(** The body of the [try] in [handle_message]. *)
Definition dispatch (socket_id : string) (message_data : json)
           (now : datetime) : M unit :=
  message_type <- lift (json_get message_data "type") ;;
  data <- lift (json_get_default message_data "data" (JDict [])) ;;
  if json_eq_str message_type "join_room"
  then _handle_join_room socket_id data now
  else if json_eq_str message_type "leave_room"
  then _handle_leave_room socket_id
  else if json_eq_str message_type "link_cable_data"
  then _handle_link_cable_data socket_id data
  else if json_eq_str message_type "player_status"
  then _handle_player_status socket_id data now
  else if json_eq_str message_type "save_state"
  then _handle_save_state socket_id data
  else if json_eq_str message_type "ping"
  then send_message socket_id MsgPong ;;; ret tt
  else ret tt.

(** [handle_message] *)
Definition handle_message (socket_id : string) (message_data : json)
           (now : datetime) : M unit :=
  try_except (dispatch socket_id message_data now)
             (fun _ => send_message socket_id err_failed_to_process ;;; ret tt).

(** ** Runs and sample data used in the statements *)

(** One [join_room] call with its arguments. *)
Record JoinRequest : Type := mkJoinRequest {
  jr_room_id : string;
  jr_player_name : string;
  jr_rom_name : option string;
  jr_draw : Draw
}.

Definition join_request (self : RoomManager) (q : JoinRequest) :=
  join_room self (jr_room_id q) (jr_player_name q) (jr_rom_name q) (jr_draw q).

(** The registry after a sequence of [join_room] calls. *)
Definition join_all (self : RoomManager) (qs : list JoinRequest)
  : RoomManager :=
  fold_left (fun st q => snd (join_request st q)) qs self.

(** A registry holding room ABC123 with its host Ash, and the same with
    Misty as second member. *)
Definition ash : Player.t :=
  Player.mk "p-ash" "Ash" true CONNECTING None false None None 100.

Definition misty : Player.t :=
  Player.mk "p-misty" "Misty" false CONNECTING None false None None 200.

Definition room_ash : Room.t :=
  Room.mk "ABC123" "p-ash" [ash] 2 true false 100 100.

Definition room_ash_misty : Room.t :=
  Room.mk "ABC123" "p-ash" [ash; misty] 2 true true 100 200.

Definition registry_ash : RoomManager :=
  mkRoomManager [("ABC123", room_ash)] [("p-ash", "ABC123")] [].

Definition registry_ash_misty : RoomManager :=
  mkRoomManager [("ABC123", room_ash_misty)]
                [("p-ash", "ABC123"); ("p-misty", "ABC123")] [].

Definition draw_misty : Draw := mkDraw "p-misty" 200 200.
Definition draw_brock : Draw := mkDraw "p-brock" 300 300.

(** ** Invariants of the data model *)

(** Capacity, and the link flag as a function of membership. *)
Definition room_ok (r : Room.t) : Prop :=
  Room.max_players r = 2 /\
  (length (Room.players r) <= 2)%nat /\
  (Room.link_cable_connected r = true <-> length (Room.players r) = 2%nat).

Definition rooms_ok (self : RoomManager) : Prop :=
  forall key r, Dict.get (rooms self) key = Some r -> room_ok r.

(** The members left when [player_id] is filtered out. *)
Definition others (player_id : string) (ps : list Player.t) : list Player.t :=
  filter (fun p => negb (Player.id p =? player_id)%string) ps.

(** The host of a room: member ids are distinct, [host_id] names a member,
    and the members carrying [is_host] are exactly those with that id. *)
Definition host_inv (r : Room.t) : Prop :=
  NoDup (map Player.id (Room.players r)) /\
  (exists h, In h (Room.players r) /\ Player.id h = Room.host_id r) /\
  (forall p, In p (Room.players r) ->
             (Player.is_host p = true <-> Player.id p = Room.host_id r)).

(** How many members carry the host flag. *)
Definition host_count (r : Room.t) : nat :=
  length (filter Player.is_host (Room.players r)).

(** The member list is in join order. *)
Definition joined_in_order (r : Room.t) : Prop :=
  StronglySorted (fun a b => Player.joined_at a <= Player.joined_at b)
                 (Room.players r).

(** Another member of the room holds a connection handle. *)
Definition has_bound_peer (room : Room.t) (sender : Player.t) : Prop :=
  exists p, In p (Room.players room) /\
            Player.id p <> Player.id sender /\
            truthy_opt (Player.socket_id p) = true.

(** A handler run that consists of one [send_message] call: the world it
    leaves, and the one event logged. *)
Definition unicast (socket_id : string) (message : Message) (w : World)
  : result unit * World * list SendEvent :=
  let '(_, w', log) := send_message socket_id message w in (Ok tt, w', log).

(** A handler that never raises, and one that raises only before it has
    changed the world or called [send_message]. *)
Definition no_raise {A : Type} (m : M A) : Prop :=
  forall w, exists a w' log, m w = (Ok a, w', log).

Definition raises_clean {A : Type} (m : M A) : Prop :=
  forall w e w1 l1, m w = (Raise e, w1, l1) -> w1 = w /\ l1 = [].

(** The outcome "one error message to the sender and nothing else": the
    run returns normally with a single [send_message] call logged, to
    [socket_id]; the registry is untouched; no other connection's entry in
    the connection table changes, and the sender's own stays when the
    reply is delivered. *)
Definition error_reply_only (socket_id : string) (text : string) (w : World)
           (run : result unit * World * list SendEvent) : Prop :=
  exists w' o,
    run = (Ok tt, w', [mkSendEvent socket_id (MsgError text) o]) /\
    room_manager w' = room_manager w /\
    (o = Delivered -> w' = w) /\
    (forall s, s <> socket_id ->
               Dict.get (active_connections w') s
               = Dict.get (active_connections w) s).

(** Two live connections and the registry of Ash and Misty bound to them. *)
Definition ws_open : WebSocket := mkWebSocket (fun _ => true).

Definition ash_bound : Player.t :=
  Player.mk "p-ash" "Ash" true CONNECTED (Some "s1") false None None 100.

Definition misty_bound : Player.t :=
  Player.mk "p-misty" "Misty" false CONNECTED (Some "s2") false None None 200.

Definition room_linked : Room.t :=
  Room.mk "ABC123" "p-ash" [ash_bound; misty_bound] 2 true true 100 300.

Definition registry_linked : RoomManager :=
  mkRoomManager [("ABC123", room_linked)]
                [("p-ash", "ABC123"); ("p-misty", "ABC123")]
                [("s1", "p-ash"); ("s2", "p-misty")].

Definition world_linked : World :=
  mkWorld registry_linked [("s1", ws_open); ("s2", ws_open)].

(** ** Consistency of the registry *)

(** The invariant the indexes are meant to keep: every connection entry
    names a member of a registered room whose handle is that connection,
    and every player entry names a registered room holding that player. *)
Definition index_consistent (self : RoomManager) : Prop :=
  (forall sid pid,
     Dict.get (socket_to_player self) sid = Some pid ->
     exists rid room p,
       Dict.get (rooms self) rid = Some room /\
       In p (Room.players room) /\
       Player.id p = pid /\
       Player.socket_id p = Some sid) /\
  (forall pid rid,
     Dict.get (player_to_room self) pid = Some rid ->
     exists room p,
       Dict.get (rooms self) rid = Some room /\
       In p (Room.players room) /\
       Player.id p = pid).

(** The same, strengthened to an invariant the operations can keep: keys
    occur once (as in any dict), keys read back from an index are non-empty
    strings, member ids are distinct within a room, and every member has
    its entry in the player index. *)
Record registry_ok (self : RoomManager) : Prop := mk_registry_ok {
  ok_rooms_keys : NoDup (Dict.keys (rooms self));
  ok_p2r_keys : NoDup (Dict.keys (player_to_room self));
  ok_s2p_keys : NoDup (Dict.keys (socket_to_player self));
  ok_member_ids :
    forall rid room,
      Dict.get (rooms self) rid = Some room ->
      NoDup (map Player.id (Room.players room));
  ok_p2r :
    forall pid rid,
      Dict.get (player_to_room self) pid = Some rid ->
      truthy rid = true /\
      exists room p,
        Dict.get (rooms self) rid = Some room /\
        In p (Room.players room) /\
        Player.id p = pid;
  ok_member :
    forall rid room p,
      Dict.get (rooms self) rid = Some room ->
      In p (Room.players room) ->
      Dict.get (player_to_room self) (Player.id p) = Some rid;
  ok_s2p :
    forall sid pid,
      Dict.get (socket_to_player self) sid = Some pid ->
      truthy sid = true /\
      exists rid room p,
        Dict.get (rooms self) rid = Some room /\
        In p (Room.players room) /\
        Player.id p = pid /\
        Player.socket_id p = Some sid
}.

(** The test of the sweeper on one room, [now] being the clock at the start
    of the pass. *)
Definition expired (now : datetime) (room : Room.t) : bool :=
  (Room.last_activity room <? now - timedelta_hours 1)
  || negb (Room.is_active room).

(** Rooms are registered under their own, non-empty, id. *)
Definition room_keys_ok (self : RoomManager) : Prop :=
  forall rid room,
    Dict.get (rooms self) rid = Some room ->
    truthy rid = true /\ Room.id room = rid.

(** The operations of the registry, with what the clock and the id
    generator give them. *)
Inductive Op : Type :=
| OpCreate (host_name : string) (rom_name : option string) (dr dp : Draw)
| OpJoin (room_id player_name : string) (rom_name : option string) (d : Draw)
| OpLeave (player_id : string) (now : datetime)
| OpBind (socket_id player_id : string) (now : datetime)
| OpUnbind (socket_id : string)
| OpStatus (player_id : string) (status : PlayerStatus) (now : datetime)
| OpRemoveRoom (room_id : string) (now : datetime).

Definition step (self : RoomManager) (op : Op) : RoomManager :=
  match op with
  | OpCreate host_name rom_name dr dp =>
      snd (create_room self host_name rom_name dr dp)
  | OpJoin room_id player_name rom_name d =>
      snd (join_room self room_id player_name rom_name d)
  | OpLeave player_id now => snd (leave_room self player_id now)
  | OpBind socket_id player_id now =>
      snd (connect_socket self socket_id player_id now)
  | OpUnbind socket_id => snd (disconnect_socket self socket_id)
  | OpStatus player_id status now =>
      snd (update_player_status self player_id status now)
  | OpRemoveRoom room_id now => remove_room self room_id now
  end.

(** An operation that draws an unused player id when it joins, and binds,
    to a non-empty connection id, only a player to which no other
    connection is indexed. *)
Definition no_rebind (self : RoomManager) (op : Op) : Prop :=
  match op with
  | OpJoin _ _ _ d => Dict.get (player_to_room self) (uuid4 d) = None
  | OpBind socket_id player_id _ =>
      truthy socket_id = true /\
      forall sid, Dict.get (socket_to_player self) sid = Some player_id ->
                  sid = socket_id
  | _ => True
  end.

(** A run of operations, each as above in the registry it meets. *)
Fixpoint run_no_rebind (self : RoomManager) (ops : list Op) : Prop :=
  match ops with
  | [] => True
  | op :: ops' => no_rebind self op /\ run_no_rebind (step self op) ops'
  end.

Definition run (self : RoomManager) (ops : list Op) : RoomManager :=
  fold_left step ops self.

(** ** room_manager.py, the listing *)

(** [available.sort(key=lambda r: r.created_at, reverse=True)]: the sort is
    stable, also with [reverse=True], so rooms created at the same instant
    keep the order they had. *)
Fixpoint insert_newest_first (r : Room.t) (l : list Room.t) : list Room.t :=
  match l with
  | [] => [r]
  | r' :: l' =>
      if Room.created_at r' <=? Room.created_at r
      then r :: r' :: l'
      else r' :: insert_newest_first r l'
  end.

Definition sort_newest_first (l : list Room.t) : list Room.t :=
  fold_right insert_newest_first [] l.

(** [l[:stop]]: a negative [stop] counts from the end. *)
Definition slice_to {A : Type} (l : list A) (stop : Z) : list A :=
  if 0 <=? stop then firstn (Z.to_nat stop) l
  else firstn (length l - Z.to_nat (- stop)) l.

(** The test of the loop of [get_available_rooms]. *)
Definition joinable (room : Room.t) : bool :=
  Room.is_active room && (Room.len_players room <? Room.max_players room).

(** [get_available_rooms] *)
Definition get_available_rooms (self : RoomManager) (limit : Z)
  : list Room.t :=
  let available := filter joinable (Dict.values (rooms self)) in
  slice_to (sort_newest_first available) limit.

(** A list of rooms in which no room was created before one that follows
    it. *)
Definition newest_first (l : list Room.t) : Prop :=
  StronglySorted (fun a b => Room.created_at b <= Room.created_at a) l.

(** A registry with the room of Ash, open, and the room of Ash and Misty
    under another code, full. *)
Definition room_full : Room.t :=
  Room.mk "FFF999" "p-ash" [ash; misty] 2 true true 50 200.

Definition registry_two_rooms : RoomManager :=
  mkRoomManager [("FFF999", room_full); ("ABC123", room_ash)] [] [].

(** ** websocket_handler.py, the connection table *)

(** [WebSocketManager.connect]: [accepted] tells whether
    [await websocket.accept()] returned; when it raised, nothing is
    registered and the exception leaves the method. *)
Definition ws_connect (websocket : WebSocket) (socket_id : string)
           (accepted : bool) (w : World) : option World :=
  if accepted
  then Some (mkWorld (room_manager w)
                     (Dict.setitem (active_connections w) socket_id websocket))
  else None.

(** The handles [broadcast_to_room] sends to, in member order. *)
Definition recipients (room : Room.t) (exclude_socket : option string)
  : list string :=
  flat_map
    (fun player =>
       match Player.socket_id player with
       | Some sid =>
           if truthy sid
              && negb (match exclude_socket with
                       | Some x => (sid =? x)%string
                       | None => false
                       end)
           then [sid] else []
       | None => []
       end)
    (Room.players room).

(** What a room is apart from its activity time and what its players carry
    besides id and host flag. *)
Definition seats (r : Room.t)
  : string * string * list (string * bool) * Z * bool * bool * datetime :=
  (Room.id r, Room.host_id r,
   map (fun p => (Player.id p, Player.is_host p)) (Room.players r),
   Room.max_players r, Room.is_active r, Room.link_cable_connected r,
   Room.created_at r).

(** Two registries with the same rooms, seats and player index. *)
Definition same_membership (rm rm' : RoomManager) : Prop :=
  player_to_room rm' = player_to_room rm /\
  Dict.keys (rooms rm') = Dict.keys (rooms rm) /\
  forall k, option_map seats (Dict.get (rooms rm') k)
            = option_map seats (Dict.get (rooms rm) k).

(** A handler whose runs keep rooms, seats and player index. *)
Definition keeps_membership {A : Type} (m : M A) : Prop :=
  forall w r w' log,
    m w = (r, w', log) ->
    same_membership (room_manager w) (room_manager w').

(** ** server.py, the room routes *)

(** What a route handler gives back: the value it returns, or the
    [HTTPException] it raises. *)
Inductive Http (A : Type) : Type :=
| Returned (body : A)
| HTTPException (status_code : Z) (detail : string).
Arguments Returned {A} body.
Arguments HTTPException {A} status_code detail.

(** The writes a handler has got through to the [rooms] collection. *)
Inductive DbWrite : Type :=
| DbUpdateRoom (id : string) (doc : Room.t)
| DbDeleteRoom (id : string).

Record JoinRoomResponse : Type := mkJoinRoomResponse {
  jrr_success : bool;
  jrr_room : option Room.t;
  jrr_player_id : option string;
  jrr_message : string
}.

(** The handler of [POST /api/rooms/join], for a request body that
    validated.  [db_ok] tells whether the awaited [update_one] returned
    rather than raised.  [response_ok] tells whether
    [JoinRoomResponse(success=True, room=room, ...)] validated: it is built
    inside the [try], after the write, from a room made by the [Room] class
    that [room_manager.py] imports from [models], for a field declared with
    the [Room] class that [server.py] imports from [.models]; a pydantic
    that wants an instance of the declared class, or a dict, refuses it.
    The response of a failed join carries no room and always validates. *)
Definition join_room_route (self : RoomManager) (room_id player_name : string)
           (rom_name : option string) (d : Draw) (db_ok response_ok : bool)
  : Http JoinRoomResponse * RoomManager * list DbWrite :=
  let '((room, player, message), self) :=
    join_room self room_id player_name rom_name d in
  match room, player with
  | Some room, Some player =>
      if db_ok
      then
        if response_ok
        then (Returned (mkJoinRoomResponse true (Some room)
                          (Some (Player.id player)) message),
              self, [DbUpdateRoom (Room.id room) room])
        else (HTTPException 500 "Failed to join room", self,
              [DbUpdateRoom (Room.id room) room])
      else (HTTPException 500 "Failed to join room", self, [])
  | _, _ =>
      (Returned (mkJoinRoomResponse false None None message), self, [])
  end.

(** The handler of [GET /api/rooms/{room_id}]; the body is the room of
    [{"success": True, "room": room.dict()}]. *)
Definition get_room_route (self : RoomManager) (room_id : string)
  : Http Room.t :=
  match get_room self room_id with
  | None => HTTPException 404 "Room not found"
  | Some room => Returned room
  end.

(** The handler of [DELETE /api/rooms/{room_id}]; [db_ok] tells whether the
    awaited [delete_one] returned; the body is the message of the answer. *)
Definition delete_room_route (self : RoomManager) (room_id : string)
           (now : datetime) (db_ok : bool)
  : Http string * RoomManager * list DbWrite :=
  let self := remove_room self room_id now in
  if db_ok
  then (Returned "Room deleted successfully", self, [DbDeleteRoom room_id])
  else (HTTPException 500 "Failed to delete room", self, []).

(** ** Connections that are bound but no longer live *)

(** Another member of the room holds a handle that is in the connection
    table. *)
Definition has_live_peer (w : World) (room : Room.t) (sender : Player.t)
  : Prop :=
  exists p s, In p (Room.players room) /\
              Player.id p <> Player.id sender /\
              Player.socket_id p = Some s /\
              Dict.contains (active_connections w) s = true.

(** A transport handle on which every write fails. *)
Definition ws_broken : WebSocket := mkWebSocket (fun _ => false).

(** Ash and Misty bound as in [world_linked], the connection of Misty
    broken; and the same after a failed write has taken it out of the
    connection table ([send_message] calls [disconnect] of the connection
    table only, so Misty keeps the handle). *)
Definition world_peer_broken : World :=
  mkWorld registry_linked [("s1", ws_open); ("s2", ws_broken)].

Definition world_peer_gone : World :=
  mkWorld registry_linked [("s1", ws_open)].

Definition trade_request : json :=
  JDict [("type", JStr "link_cable_data");
         ("data", JDict [("action", JStr "trade_request")])].

(** ** Consistency of the rooms and the player index alone *)

(** The registry without its connection index. *)
Definition without_connections (self : RoomManager) : RoomManager :=
  mkRoomManager (rooms self) (player_to_room self) [].

(** The part of [registry_ok] that does not speak of connections: keys and
    member ids without repetition, every player entry naming a registered
    room that holds the player, every member indexed to its room. *)
Definition membership_ok (self : RoomManager) : Prop :=
  registry_ok (without_connections self).

(** An operation that draws an unused player id when it joins; a bind may
    be a rebind. *)
Definition fresh_id (self : RoomManager) (op : Op) : Prop :=
  match op with
  | OpJoin _ _ _ d => Dict.get (player_to_room self) (uuid4 d) = None
  | _ => True
  end.

Fixpoint run_fresh_ids (self : RoomManager) (ops : list Op) : Prop :=
  match ops with
  | [] => True
  | op :: ops' => fresh_id self op /\ run_fresh_ids (step self op) ops'
  end.


(** * Properties *)

(** ** Facts about dictionaries *)

Lemma Dict_get_setitem_eq {V : Type} (d : Dict.t V) k v : Dict.get (Dict.setitem d k v) k = Some v.
Proof.
  induction d as [|[k' v'] d IH]; simpl.
  - now rewrite String.eqb_refl.
  - destruct (k' =? k)%string eqn:E; simpl; rewrite E; auto.
Qed.

Lemma Dict_get_setitem_ne {V : Type} (d : Dict.t V) k k' v :
  k <> k' -> Dict.get (Dict.setitem d k v) k' = Dict.get d k'.
Proof.
  intros Hne. induction d as [|[k0 v0] d IH]; simpl.
  - destruct (k =? k')%string eqn:E; auto.
    apply String.eqb_eq in E. contradiction.
  - destruct (k0 =? k)%string eqn:E; simpl.
    + apply String.eqb_eq in E. subst k0.
      destruct (k =? k')%string eqn:E'; auto.
      apply String.eqb_eq in E'. contradiction.
    + now rewrite IH.
Qed.

Lemma Dict_get_delitem_eq {V : Type} (d : Dict.t V) k : Dict.get (Dict.delitem d k) k = None.
Proof.
  induction d as [|[k' v'] d IH]; simpl; auto.
  destruct (k' =? k)%string eqn:E; simpl; auto.
  now rewrite E.
Qed.

Lemma Dict_get_delitem_ne {V : Type} (d : Dict.t V) k k' :
  k <> k' -> Dict.get (Dict.delitem d k) k' = Dict.get d k'.
Proof.
  intros Hne. induction d as [|[k0 v0] d IH]; simpl; auto.
  destruct (k0 =? k)%string eqn:E; simpl.
  - apply String.eqb_eq in E. subst k0.
    destruct (k =? k')%string eqn:E'; auto.
    apply String.eqb_eq in E'. contradiction.
  - now rewrite IH.
Qed.

Lemma Dict_get_setitem {V : Type} (d : Dict.t V) k k' v :
  Dict.get (Dict.setitem d k v) k' = if (k =? k')%string then Some v else Dict.get d k'.
Proof.
  destruct (k =? k')%string eqn:E.
  - apply String.eqb_eq in E. subst. apply Dict_get_setitem_eq.
  - apply String.eqb_neq in E. now apply Dict_get_setitem_ne.
Qed.

Lemma Dict_get_delitem {V : Type} (d : Dict.t V) k k' :
  Dict.get (Dict.delitem d k) k' = if (k =? k')%string then None else Dict.get d k'.
Proof.
  destruct (k =? k')%string eqn:E.
  - apply String.eqb_eq in E. subst. apply Dict_get_delitem_eq.
  - apply String.eqb_neq in E. now apply Dict_get_delitem_ne.
Qed.

Lemma Dict_get_In {V : Type} (d : Dict.t V) k v : Dict.get d k = Some v -> In (k, v) d.
Proof.
  induction d as [|[k' v'] d IH]; simpl; [discriminate|].
  destruct (k' =? k)%string eqn:E.
  - apply String.eqb_eq in E. intros [= ->]. subst. now left.
  - intros H. right. auto.
Qed.

Lemma Dict_In_get {V : Type} (d : Dict.t V) k v : In (k, v) d -> exists v', Dict.get d k = Some v'.
Proof.
  induction d as [|[k' v'] d IH]; simpl; [tauto|].
  intros [[= -> ->]|H].
  - rewrite String.eqb_refl. eauto.
  - destruct (k' =? k)%string; eauto.
Qed.

(** ** Room creation *)

(** C1. [create_room] never returns a room: [Room()] is called without the
    required [host_id], the constructor raises a validation error, and the
    registry is left as it was, whatever the host name and the image id. *)
Theorem create_room_raises :
  forall self host_name rom_name dr dp,
    create_room self host_name rom_name dr dp = (Raise ValidationError, self).
Proof. reflexivity. Qed.

(** ** Joining *)

Lemma len_players_of_nat (r : Room.t) :
  Room.len_players r = Z.of_nat (length (Room.players r)).
Proof. reflexivity. Qed.

(** What a [join_room] call on a registered room of capacity 2 does. *)
Lemma join_room_step self room_id name rom d room :
  Dict.get (rooms self) (upper room_id) = Some room ->
  Room.max_players room = 2 ->
  (Room.is_active room = false /\
   join_room self room_id name rom d = ((None, None, msg_inactive), self))
  \/
  (Room.is_active room = true /\ (2 <= length (Room.players room))%nat /\
   join_room self room_id name rom d = ((None, None, msg_full), self))
  \/
  (Room.is_active room = true /\ (length (Room.players room) < 2)%nat /\
   exists room' player,
     join_room self room_id name rom d =
       ((Some room', Some player, msg_joined),
        mkRoomManager
          (Dict.setitem (rooms self) (upper room_id) room')
          (Dict.setitem (player_to_room self) (Player.id player)
                        (Room.id room'))
          (socket_to_player self)) /\
     Room.add_player room
       (if truthy_opt rom
        then Player.set_status
               (Player.set_rom_loaded
                  (Player.new (uuid4 d) name false rom (t_new d)) true) READY
        else Player.new (uuid4 d) name false rom (t_new d))
       (t_touch d) = (true, room', player)).
Proof.
  intros Hget Hmax. unfold join_room. rewrite Hget.
  destruct (Room.is_active room) eqn:Hact; simpl.
  2:{ left. auto. }
  right.
  destruct (Room.len_players room >=? Room.max_players room) eqn:Hfull.
  - left. rewrite Hmax, len_players_of_nat in Hfull.
    repeat split; auto. apply Z.geb_le in Hfull. lia.
  - right. rewrite Hmax, len_players_of_nat in Hfull.
    split; auto. split.
    { rewrite Z.geb_leb in Hfull. apply Z.leb_gt in Hfull. lia. }
    unfold Room.add_player.
    rewrite Hmax, len_players_of_nat.
    rewrite Hfull.
    eexists. eexists. split; reflexivity.
Qed.

Lemma of_nat_eqb_2 (n : nat) : (Z.of_nat n =? 2) = Nat.eqb n 2.
Proof.
  destruct (Nat.eqb n 2) eqn:E.
  - apply Nat.eqb_eq in E. subst. reflexivity.
  - apply Nat.eqb_neq in E. apply Z.eqb_neq. lia.
Qed.

Ltac room_fields :=
  cbn [Room.id Room.host_id Room.players Room.max_players Room.is_active
       Room.link_cable_connected Room.created_at Room.last_activity
       Room.set_players Room.set_host_id Room.set_link_cable_connected
       Room.set_last_activity] in *.

(** A successful [add_player] appends the player, hosts it when the room
    was empty, and raises the link flag at two members. *)
Lemma add_player_true self player now r p :
  Room.add_player self player now = (true, r, p) ->
  p = match Room.players self with
      | [] => Player.set_is_host player true
      | _ => player
      end /\
  Room.players r = (Room.players self ++ [p])%list /\
  Room.max_players r = Room.max_players self /\
  Room.is_active r = Room.is_active self /\
  Room.id r = Room.id self /\
  Room.host_id r = match Room.players self with
                   | [] => Player.id player
                   | _ => Room.host_id self
                   end /\
  Room.link_cable_connected r =
    (if Nat.eqb (length (Room.players r)) 2 then true
     else Room.link_cable_connected self).
Proof.
  destruct self as [rid h ps mx act link ca la].
  unfold Room.add_player, Room.len_players. room_fields.
  destruct (Z.of_nat (length ps) >=? mx); [discriminate|].
  destruct ps as [|p0 ps].
  - room_fields. rewrite of_nat_eqb_2. cbn [app length Nat.eqb].
    intros [= <- <-]. room_fields. repeat split; reflexivity.
  - room_fields. rewrite of_nat_eqb_2.
    destruct (Nat.eqb (length ((p0 :: ps) ++ [player])) 2) eqn:E;
      intros [= <- <-]; room_fields; change (p0 :: ps ++ [player])%list with ((p0 :: ps) ++ [player])%list;
      rewrite E; repeat split; reflexivity.
Qed.

(** One request on a room of capacity 2: the room stays within capacity
    and, when active, gains a member unless it is full. *)
Lemma join_request_room self q room :
  Dict.get (rooms self) (upper (jr_room_id q)) = Some room ->
  Room.max_players room = 2 ->
  (length (Room.players room) <= 2)%nat ->
  exists room',
    Dict.get (rooms (snd (join_request self q))) (upper (jr_room_id q))
      = Some room' /\
    Room.max_players room' = 2 /\
    (length (Room.players room') <= 2)%nat /\
    Room.is_active room' = Room.is_active room /\
    (Room.is_active room = true ->
     (Nat.min 2 (length (Room.players room) + 1)
      <= length (Room.players room'))%nat).
Proof.
  intros Hget Hmax Hlen. unfold join_request.
  destruct (join_room_step self (jr_room_id q) (jr_player_name q)
              (jr_rom_name q) (jr_draw q) room Hget Hmax)
    as [[Hact ->]|[(Hact & Hfull & ->)|(Hact & Hfree & room' & p & -> & Hadd)]];
    cbn [snd].
  - exists room. repeat split; auto. congruence.
  - exists room. repeat split; auto. lia.
  - exists room'. cbn [rooms]. rewrite Dict_get_setitem_eq.
    apply add_player_true in Hadd.
    destruct Hadd as (_ & Hps & Hmx & Ha & _).
    rewrite Hps, length_app. cbn [length].
    repeat split; auto; try congruence; lia.
Qed.

(** The same along a sequence of requests for that room. *)
Lemma join_all_room qs : forall self key room,
  Dict.get (rooms self) key = Some room ->
  Room.max_players room = 2 ->
  (length (Room.players room) <= 2)%nat ->
  Forall (fun q => upper (jr_room_id q) = key) qs ->
  exists room',
    Dict.get (rooms (join_all self qs)) key = Some room' /\
    Room.max_players room' = 2 /\
    (length (Room.players room') <= 2)%nat /\
    Room.is_active room' = Room.is_active room /\
    (Room.is_active room = true ->
     (Nat.min 2 (length (Room.players room) + length qs)
      <= length (Room.players room'))%nat).
Proof.
  induction qs as [|q qs IH]; intros self key room Hget Hmax Hlen Hall.
  - exists room. cbn [join_all fold_left length]. repeat split; auto.
    intros _. lia.
  - inversion Hall as [|? ? Hq Hqs]; subst.
    destruct (join_request_room self q room Hget Hmax Hlen)
      as (r1 & Hget1 & Hmax1 & Hlen1 & Hact1 & Hgrow1).
    destruct (IH _ _ r1 Hget1 Hmax1 Hlen1 Hqs)
      as (r2 & Hget2 & Hmax2 & Hlen2 & Hact2 & Hgrow2).
    exists r2. cbn [join_all fold_left]. fold (join_all (snd (join_request self q)) qs).
    repeat split; auto; try congruence.
    intros Hact. specialize (Hgrow1 Hact).
    rewrite Hact1 in Hgrow2. specialize (Hgrow2 Hact).
    cbn [length]. lia.
Qed.

(** C3. Along every sequence of [join_room] calls on a registered room of
    capacity 2, under whatever casing of its code, the member list never
    grows beyond 2; and once two calls have been made on an active room,
    every further call returns "Room is full" and leaves the registry, so
    the membership too, as it was. *)
Theorem join_room_capacity :
  forall self key room qs,
    Dict.get (rooms self) key = Some room ->
    Room.max_players room = 2 ->
    (length (Room.players room) <= 2)%nat ->
    Forall (fun q => upper (jr_room_id q) = key) qs ->
    exists room',
      Dict.get (rooms (join_all self qs)) key = Some room' /\
      (length (Room.players room') <= 2)%nat /\
      (Room.is_active room = true ->
       (2 <= length qs)%nat ->
       forall q,
         upper (jr_room_id q) = key ->
         join_request (join_all self qs) q
         = ((None, None, msg_full), join_all self qs)).
Proof.
  intros self key room qs Hget Hmax Hlen Hall.
  destruct (join_all_room qs self key room Hget Hmax Hlen Hall)
    as (r & Hr & Hmaxr & Hlenr & Hactr & Hgrow).
  exists r. repeat split; auto.
  intros Hact Hn q Hq. specialize (Hgrow Hact). subst key.
  unfold join_request.
  destruct (join_room_step (join_all self qs) (jr_room_id q)
              (jr_player_name q) (jr_rom_name q) (jr_draw q) r Hr Hmaxr)
    as [[Hact' _]|[(_ & _ & ->)|(_ & Hfree & _)]]; auto.
  - congruence.
  - lia.
Qed.

(** The theorem at the room of Ash, joined by Misty and then, in vain, by
    Brock, the code given in lower case. *)
Lemma join_room_capacity_witness :
  exists room',
    Dict.get
      (rooms (join_all registry_ash
                [mkJoinRequest "abc123" "Misty" None draw_misty;
                 mkJoinRequest "abc123" "Brock" None draw_brock]))
      "ABC123" = Some room' /\
    (length (Room.players room') <= 2)%nat /\
    (Room.is_active room_ash = true ->
     (2 <= 2)%nat ->
     forall q,
       upper (jr_room_id q) = "ABC123"%string ->
       join_request
         (join_all registry_ash
            [mkJoinRequest "abc123" "Misty" None draw_misty;
             mkJoinRequest "abc123" "Brock" None draw_brock]) q
       = ((None, None, msg_full),
          join_all registry_ash
            [mkJoinRequest "abc123" "Misty" None draw_misty;
             mkJoinRequest "abc123" "Brock" None draw_brock])).
Proof.
  apply (join_room_capacity registry_ash "ABC123" room_ash).
  - reflexivity.
  - reflexivity.
  - simpl. lia.
  - repeat constructor.
Defined.

(** ** Leaving *)

(** [remove_player] in closed form. *)
Lemma remove_player_eq self player_id now :
  Room.remove_player self player_id now =
  let ps := others player_id (Room.players self) in
  let link := if (length ps <? 2)%nat then false
              else Room.link_cable_connected self in
  match ps with
  | [] =>
      (true,
       Room.mk (Room.id self) (Room.host_id self) [] (Room.max_players self)
               (Room.is_active self) link (Room.created_at self) now)
  | p0 :: rest =>
      if (Room.host_id self =? player_id)%string
      then (false,
            Room.mk (Room.id self) (Player.id p0)
                    (Player.set_is_host p0 true :: rest)
                    (Room.max_players self) (Room.is_active self) link
                    (Room.created_at self) now)
      else (false,
            Room.mk (Room.id self) (Room.host_id self) (p0 :: rest)
                    (Room.max_players self) (Room.is_active self) link
                    (Room.created_at self) now)
  end.
Proof.
  destruct self as [rid h ps mx act link ca la].
  unfold Room.remove_player, Room.len_players, others. room_fields.
  set (qs := filter _ ps).
  assert (Hlt : (Z.of_nat (length qs) <? 2) = (length qs <? 2)%nat).
  { destruct (length qs <? 2)%nat eqn:E.
    - apply Nat.ltb_lt in E. apply Z.ltb_lt. lia.
    - apply Nat.ltb_ge in E. apply Z.ltb_ge. lia. }
  cbv zeta. rewrite Hlt.
  destruct qs as [|p0 rest].
  - reflexivity.
  - destruct (length (p0 :: rest) <? 2)%nat; room_fields;
      destruct (h =? player_id)%string; reflexivity.
Qed.

Lemma others_length_le player_id ps :
  (length (others player_id ps) <= length ps)%nat.
Proof. apply filter_length_le. Qed.

(** The room [remove_player] leaves has as many members as [others]. *)
Lemma remove_player_length self player_id now :
  length (Room.players (snd (Room.remove_player self player_id now)))
  = length (others player_id (Room.players self)).
Proof.
  rewrite remove_player_eq. cbv zeta.
  destruct (others player_id (Room.players self)) as [|p0 rest]; [reflexivity|].
  destruct (Room.host_id self =? player_id)%string; reflexivity.
Qed.

Lemma room_ok_add_player self player now r p :
  room_ok self ->
  Room.add_player self player now = (true, r, p) ->
  room_ok r.
Proof.
  intros (Hmax & Hlen & Hlink) Hadd.
  assert (Hfree : (length (Room.players self) < 2)%nat).
  { unfold Room.add_player in Hadd.
    destruct (Room.len_players self >=? Room.max_players self) eqn:E;
      [discriminate|].
    rewrite Hmax, len_players_of_nat, Z.geb_leb in E.
    apply Z.leb_gt in E. lia. }
  apply add_player_true in Hadd.
  destruct Hadd as (_ & Hps & Hmx & _ & _ & _ & Hl).
  assert (Hn : length (Room.players r) = S (length (Room.players self))).
  { rewrite Hps, length_app. cbn. lia. }
  repeat split.
  - congruence.
  - lia.
  - rewrite Hl. destruct (Nat.eqb (length (Room.players r)) 2) eqn:E.
    + intros _. now apply Nat.eqb_eq.
    + intros Ht. apply Hlink in Ht. lia.
  - intros H2. rewrite Hl, H2. reflexivity.
Qed.

Lemma room_ok_remove_player self player_id now :
  room_ok self ->
  room_ok (snd (Room.remove_player self player_id now)).
Proof.
  intros (Hmax & Hlen & Hlink).
  pose proof (remove_player_length self player_id now) as Hn.
  pose proof (others_length_le player_id (Room.players self)) as Hle.
  revert Hn. rewrite remove_player_eq. cbv zeta.
  set (ps := others player_id (Room.players self)) in *.
  assert (Hflag :
    (if (length ps <? 2)%nat then false else Room.link_cable_connected self)
    = true <-> length ps = 2%nat).
  { destruct (length ps <? 2)%nat eqn:E.
    - apply Nat.ltb_lt in E. split; [discriminate|lia].
    - apply Nat.ltb_ge in E. rewrite Hlink. lia. }
  destruct ps as [|p0 rest] eqn:Hps.
  - intros _. repeat split; cbn; auto; try lia; try discriminate.
  - destruct (Room.host_id self =? player_id)%string; cbn [snd];
      intros Hn; unfold room_ok; room_fields;
      (split; [assumption|split; [cbn in *; lia|]]);
      cbn [length] in *; exact Hflag.
Qed.

(** [leave_room] when the index resolves to a registered room. *)
Lemma leave_room_eq self player_id now room_id room :
  Dict.get (player_to_room self) player_id = Some room_id ->
  truthy room_id = true ->
  Dict.get (rooms self) room_id = Some room ->
  leave_room self player_id now =
  let out := Room.remove_player room player_id now in
  let rooms1 := Dict.setitem (rooms self) room_id (snd out) in
  let p2r := Dict.delitem (player_to_room self) player_id in
  let s2p :=
    match first_socket_of (socket_to_player self) player_id with
    | Some socket_id =>
        if truthy socket_id
        then Dict.delitem (socket_to_player self) socket_id
        else socket_to_player self
    | None => socket_to_player self
    end in
  if fst out
  then (None, mkRoomManager (Dict.delitem rooms1 room_id) p2r s2p)
  else (Some (snd out), mkRoomManager rooms1 p2r s2p).
Proof.
  intros Hp Ht Hr. unfold leave_room. rewrite Hp, Ht, Hr. cbn [negb].
  destruct (Room.remove_player room player_id now) as [e r]. reflexivity.
Qed.

(** [leave_room] when it does not: nothing happens. *)
Lemma leave_room_noop self player_id now :
  (Dict.get (player_to_room self) player_id = None \/
   (exists room_id,
      Dict.get (player_to_room self) player_id = Some room_id /\
      (truthy room_id = false \/ Dict.get (rooms self) room_id = None))) ->
  leave_room self player_id now = (None, self).
Proof.
  unfold leave_room.
  intros [->|(room_id & -> & [->| ->])]; auto.
  destruct (truthy room_id); reflexivity.
Qed.

(** Either the one or the other. *)
Lemma leave_room_cases self player_id now :
  leave_room self player_id now = (None, self) \/
  exists room_id room,
    Dict.get (player_to_room self) player_id = Some room_id /\
    truthy room_id = true /\
    Dict.get (rooms self) room_id = Some room.
Proof.
  destruct (Dict.get (player_to_room self) player_id) as [room_id|] eqn:Hp.
  2:{ left. apply leave_room_noop. auto. }
  destruct (truthy room_id) eqn:Ht.
  2:{ left. apply leave_room_noop. right. eauto. }
  destruct (Dict.get (rooms self) room_id) as [room|] eqn:Hr.
  2:{ left. apply leave_room_noop. right. eauto. }
  right. eauto.
Qed.

(** C4. In a registry whose rooms have capacity 2, hold at most 2 members
    and have the link flag set exactly when they hold 2, every [join_room]
    and every [leave_room] leaves every room so; in particular the room a
    join or a leave returns has the flag set if and only if it has exactly
    2 members. *)
Theorem link_flag_follows_membership :
  forall self,
    rooms_ok self ->
    (forall room_id name rom d,
       rooms_ok (snd (join_room self room_id name rom d)) /\
       forall room player msg,
         fst (join_room self room_id name rom d)
         = (Some room, Some player, msg) ->
         (Room.link_cable_connected room = true
          <-> length (Room.players room) = 2%nat)) /\
    (forall player_id now,
       rooms_ok (snd (leave_room self player_id now)) /\
       forall room,
         fst (leave_room self player_id now) = Some room ->
         (Room.link_cable_connected room = true
          <-> length (Room.players room) = 2%nat)).
Proof.
  intros self Hok. split.
  - intros room_id name rom d.
    destruct (Dict.get (rooms self) (upper room_id)) as [room|] eqn:Hget.
    2:{ unfold join_room. rewrite Hget. cbn. split; [exact Hok|discriminate]. }
    pose proof (Hok _ _ Hget) as Hroom.
    destruct (join_room_step self room_id name rom d room Hget
                (proj1 Hroom))
      as [[_ ->]|[(_ & _ & ->)|(_ & _ & room' & p & -> & Hadd)]]; cbn [fst snd].
    + split; [exact Hok|discriminate].
    + split; [exact Hok|discriminate].
    + pose proof (room_ok_add_player _ _ _ _ _ Hroom Hadd) as Hok'.
      split.
      * intros key r. cbn [rooms]. rewrite Dict_get_setitem.
        destruct (upper room_id =? key)%string.
        -- intros [= <-]. exact Hok'.
        -- apply Hok.
      * intros room0 player msg [= <- _ _]. apply Hok'.
  - intros player_id now.
    destruct (leave_room_cases self player_id now)
      as [->|(room_id & room & Hp & Ht & Hr)].
    { cbn. split; [exact Hok|discriminate]. }
    rewrite (leave_room_eq _ _ _ _ _ Hp Ht Hr). cbv zeta.
    pose proof (room_ok_remove_player room player_id now (Hok _ _ Hr)) as Hok'.
    destruct (fst (Room.remove_player room player_id now)); cbn [fst snd].
    + split; [|discriminate].
      intros key r. cbn [rooms]. rewrite Dict_get_delitem, Dict_get_setitem.
      destruct (room_id =? key)%string; [discriminate|apply Hok].
    + split.
      * intros key r. cbn [rooms]. rewrite Dict_get_setitem.
        destruct (room_id =? key)%string.
        -- intros [= <-]. exact Hok'.
        -- apply Hok.
      * intros room0 [= <-]. apply Hok'.
Qed.

Lemma rooms_ok_registry_ash_misty : rooms_ok registry_ash_misty.
Proof.
  intros key r. unfold registry_ash_misty. cbn [rooms Dict.get].
  destruct ("ABC123" =? key)%string; [|discriminate].
  intros [= <-]. repeat split; cbn; auto.
Qed.

(** The theorem at the room of Ash and Misty. *)
Lemma link_flag_follows_membership_witness :
  (forall room_id name rom d,
     rooms_ok (snd (join_room registry_ash_misty room_id name rom d)) /\
     forall room player msg,
       fst (join_room registry_ash_misty room_id name rom d)
       = (Some room, Some player, msg) ->
       (Room.link_cable_connected room = true
        <-> length (Room.players room) = 2%nat)) /\
  (forall player_id now,
     rooms_ok (snd (leave_room registry_ash_misty player_id now)) /\
     forall room,
       fst (leave_room registry_ash_misty player_id now) = Some room ->
       (Room.link_cable_connected room = true
        <-> length (Room.players room) = 2%nat)).
Proof.
  apply (link_flag_follows_membership registry_ash_misty).
  exact rooms_ok_registry_ash_misty.
Defined.

(** ** The player a join creates *)

(** C10, as the code has it. On every successful [join_room] into a room
    that has a member, the player is appended last with [is_host = False];
    it starts at READY with [rom_loaded] set when [rom_name] is a non-empty
    string, and at CONNECTING with [rom_loaded] unset when [rom_name] is
    [None] or the empty string. *)
Theorem join_room_new_player :
  forall self room_id name rom d room player msg st',
    (forall r, Dict.get (rooms self) (upper room_id) = Some r ->
               Room.players r <> []) ->
    join_room self room_id name rom d = ((Some room, Some player, msg), st') ->
    Player.is_host player = false /\
    (exists r, Dict.get (rooms self) (upper room_id) = Some r /\
               Room.players room = (Room.players r ++ [player])%list) /\
    Player.rom_name player = rom /\
    (truthy_opt rom = true ->
     Player.status player = READY /\ Player.rom_loaded player = true) /\
    (truthy_opt rom = false ->
     Player.status player = CONNECTING /\ Player.rom_loaded player = false).
Proof.
  intros self room_id name rom d room player msg st' Hne.
  unfold join_room.
  destruct (Dict.get (rooms self) (upper room_id)) as [r|] eqn:Hget;
    [|discriminate].
  specialize (Hne r eq_refl).
  destruct (Room.is_active r); cbn [negb]; [|discriminate].
  destruct (Room.len_players r >=? Room.max_players r); [discriminate|].
  match goal with
  | |- context [Room.add_player r ?p ?t] =>
      destruct (Room.add_player r p t) as [[ok r'] p'] eqn:Hadd
  end.
  destruct ok; [|discriminate].
  intros [= <- <- _ _].
  apply add_player_true in Hadd.
  destruct Hadd as (Hp & Hps & _).
  destruct (Room.players r) as [|q qs] eqn:Hq; [congruence|].
  subst p'.
  split; [|split; [|split; [|split]]].
  - destruct (truthy_opt rom); reflexivity.
  - exists r. split; [reflexivity|]. rewrite Hps, Hq. reflexivity.
  - destruct (truthy_opt rom); reflexivity.
  - intros ->. split; reflexivity.
  - intros ->. split; reflexivity.
Qed.

(** The theorem at Misty joining the room of Ash with an image. *)
Lemma join_room_new_player_witness :
  Player.is_host
    (Player.mk "p-misty" "Misty" false READY None true (Some "red.gb")
               None 200) = false /\
  (exists r, Dict.get (rooms registry_ash) (upper "abc123") = Some r /\
     Room.players
       (Room.mk "ABC123" "p-ash"
          [ash; Player.mk "p-misty" "Misty" false READY None true
                          (Some "red.gb") None 200]
          2 true true 100 200)
     = (Room.players r ++
        [Player.mk "p-misty" "Misty" false READY None true (Some "red.gb")
                   None 200])%list) /\
  Player.rom_name
    (Player.mk "p-misty" "Misty" false READY None true (Some "red.gb")
               None 200) = Some "red.gb" /\
  (truthy_opt (Some "red.gb") = true ->
   Player.status
     (Player.mk "p-misty" "Misty" false READY None true (Some "red.gb")
                None 200) = READY /\
   Player.rom_loaded
     (Player.mk "p-misty" "Misty" false READY None true (Some "red.gb")
                None 200) = true) /\
  (truthy_opt (Some "red.gb") = false ->
   Player.status
     (Player.mk "p-misty" "Misty" false READY None true (Some "red.gb")
                None 200) = CONNECTING /\
   Player.rom_loaded
     (Player.mk "p-misty" "Misty" false READY None true (Some "red.gb")
                None 200) = false).
Proof.
  apply (join_room_new_player registry_ash "abc123" "Misty" (Some "red.gb")
           draw_misty _ _ msg_joined
           (snd (join_room registry_ash "abc123" "Misty" (Some "red.gb")
                   draw_misty))).
  - intros r. vm_compute. intros [= <-]. discriminate.
  - reflexivity.
Defined.

(** C10 as stated fails when the image id supplied is the empty string:
    the joiner is registered with that image id, yet starts at CONNECTING
    with no image loaded. *)
Lemma join_room_empty_image_id_not_ready :
  exists room player,
    fst (join_room registry_ash "ABC123" "Misty" (Some "") draw_misty)
    = (Some room, Some player, msg_joined) /\
    Player.rom_name player = Some ""%string /\
    Player.status player = CONNECTING /\
    Player.rom_loaded player = false.
Proof.
  eexists. eexists. cbn. repeat split; reflexivity.
Qed.

(** ** Binding and unbinding a connection *)

Lemma find_update_first f player_id ps :
  (forall p, Player.id (f p) = Player.id p) ->
  find (fun p => (Player.id p =? player_id)%string)
       (Room.update_first f player_id ps)
  = option_map f (find (fun p => (Player.id p =? player_id)%string) ps).
Proof.
  intros Hid. induction ps as [|p ps IH]; cbn; [reflexivity|].
  destruct (Player.id p =? player_id)%string eqn:E; cbn.
  - now rewrite Hid, E.
  - now rewrite E.
Qed.

Lemma get_player_update_player room player_id f :
  (forall p, Player.id (f p) = Player.id p) ->
  Room.get_player (Room.update_player room player_id f) player_id
  = option_map f (Room.get_player room player_id).
Proof.
  intros Hid. unfold Room.get_player, Room.update_player. room_fields.
  now apply find_update_first.
Qed.

(** What [get_player_room] returning a room says about the index. *)
Lemma player_room_entry_Some self player_id room_id room :
  player_room_entry self player_id = Some (room_id, room) <->
  Dict.get (player_to_room self) player_id = Some room_id /\
  truthy room_id = true /\
  Dict.get (rooms self) room_id = Some room.
Proof.
  unfold player_room_entry. split.
  - destruct (Dict.get (player_to_room self) player_id) as [rid|];
      [|discriminate].
    destruct (truthy rid) eqn:Ht; [|discriminate].
    destruct (Dict.get (rooms self) rid) as [r|] eqn:Hr; [|discriminate].
    cbn. intros [= <- <-]. auto.
  - intros (-> & -> & ->). reflexivity.
Qed.

Lemma get_player_room_Some self player_id room :
  get_player_room self player_id = Some room <->
  exists room_id, player_room_entry self player_id = Some (room_id, room).
Proof.
  unfold get_player_room. split.
  - destruct (player_room_entry self player_id) as [[rid r]|];
      [|discriminate].
    cbn. intros [= <-]. eauto.
  - intros [rid ->]. reflexivity.
Qed.

(** C6. For a player registered in a room, [connect_socket] succeeds and
    the [disconnect_socket] of the same connection right after it returns
    the room and the player; afterwards [get_player_room] still resolves the
    player to that room, the player is in it with status DISCONNECTED and no
    connection handle, otherwise as before, and the connection index has no
    entry for the connection. *)
Theorem bind_unbind_round_trip :
  forall self socket_id player_id now room player,
    truthy player_id = true ->
    get_player_room self player_id = Some room ->
    Room.get_player room player_id = Some player ->
    let st1 := snd (connect_socket self socket_id player_id now) in
    let st2 := snd (disconnect_socket st1 socket_id) in
    fst (connect_socket self socket_id player_id now) = true /\
    exists room',
      let player' :=
        Player.set_status (Player.set_socket_id player None) DISCONNECTED in
      fst (disconnect_socket st1 socket_id) = Some (room', player') /\
      get_player_room st2 player_id = Some room' /\
      Room.get_player room' player_id = Some player' /\
      length (Room.players room') = length (Room.players room) /\
      Player.status player' = DISCONNECTED /\
      Player.socket_id player' = None /\
      Dict.get (socket_to_player st2) socket_id = None /\
      player_to_room st2 = player_to_room self.
Proof.
  intros self socket_id player_id now room player Hpid Hroom Hplayer.
  apply get_player_room_Some in Hroom. destruct Hroom as [room_id Hentry].
  pose proof Hentry as Hidx.
  apply player_room_entry_Some in Hidx. destruct Hidx as (Hp2r & Hrid & Hr).
  unfold connect_socket. rewrite Hentry, Hplayer. cbn [fst snd].
  split; [reflexivity|].
  set (bind1 := fun p => Player.set_status
                           (Player.set_socket_id p (Some socket_id)) CONNECTED).
  set (room1 := Room.set_last_activity
                  (Room.update_player room player_id bind1) now).
  assert (Hg1 : Room.get_player room1 player_id = Some (bind1 player)).
  { unfold room1, Room.get_player, Room.update_player. room_fields.
    rewrite find_update_first by reflexivity.
    fold (Room.get_player room player_id). now rewrite Hplayer. }
  assert (Hid : Player.id player = player_id).
  { unfold Room.get_player in Hplayer. apply find_some in Hplayer.
    now apply String.eqb_eq. }
  unfold disconnect_socket, player_by_socket_entry. cbn [socket_to_player].
  rewrite Dict_get_setitem_eq, Hpid. cbn [negb].
  assert (He1 : forall s2p,
    player_room_entry
      (mkRoomManager (Dict.setitem (rooms self) room_id room1)
                     (player_to_room self) s2p) player_id
    = Some (room_id, room1)).
  { intros s2p. apply player_room_entry_Some. cbn [player_to_room rooms].
    rewrite Dict_get_setitem_eq. auto. }
  rewrite He1, Hg1.
  cbn [fst snd rooms player_to_room socket_to_player].
  set (unbind := fun p => Player.set_status (Player.set_socket_id p None)
                                            DISCONNECTED).
  change (Player.id (bind1 player)) with (Player.id player). rewrite Hid.
  set (room2 := Room.update_player room1 player_id unbind).
  exists room2. cbv zeta.
  split; [reflexivity|].
  split.
  { apply get_player_room_Some. exists room_id.
    apply player_room_entry_Some. cbn [player_to_room rooms].
    rewrite Dict_get_setitem_eq. auto. }
  split.
  { unfold room2. rewrite get_player_update_player by reflexivity.
    rewrite Hg1. reflexivity. }
  split.
  { unfold room2, room1, Room.update_player. room_fields.
    clear. generalize (Room.players room) as ps.
    assert (Hlen : forall f ps,
      length (Room.update_first f player_id ps) = length ps).
    { intros f ps. induction ps as [|p ps IH]; cbn; [reflexivity|].
      destruct (Player.id p =? player_id)%string; cbn; congruence. }
    intros ps. now rewrite !Hlen. }
  repeat split; try reflexivity.
  apply Dict_get_delitem_eq.
Qed.

(** The theorem at Ash, bound to connection s1 and unbound again. *)
Lemma bind_unbind_round_trip_witness :
  let st1 := snd (connect_socket registry_ash "s1" "p-ash" 500) in
  let st2 := snd (disconnect_socket st1 "s1") in
  fst (connect_socket registry_ash "s1" "p-ash" 500) = true /\
  exists room',
    let player' :=
      Player.set_status (Player.set_socket_id ash None) DISCONNECTED in
    fst (disconnect_socket st1 "s1") = Some (room', player') /\
    get_player_room st2 "p-ash" = Some room' /\
    Room.get_player room' "p-ash" = Some player' /\
    length (Room.players room') = length (Room.players room_ash) /\
    Player.status player' = DISCONNECTED /\
    Player.socket_id player' = None /\
    Dict.get (socket_to_player st2) "s1" = None /\
    player_to_room st2 = player_to_room registry_ash.
Proof.
  apply (bind_unbind_round_trip registry_ash "s1" "p-ash" 500 room_ash ash);
    reflexivity.
Defined.

(** ** The host *)

Lemma others_In player_id ps p :
  In p (others player_id ps) <-> In p ps /\ Player.id p <> player_id.
Proof.
  unfold others. rewrite filter_In. split; intros [H1 H2]; split; auto.
  - intros E. rewrite E, String.eqb_refl in H2. discriminate.
  - apply negb_true_iff. now apply String.eqb_neq.
Qed.

Lemma others_NoDup player_id ps :
  NoDup (map Player.id ps) -> NoDup (map Player.id (others player_id ps)).
Proof.
  induction ps as [|p ps IH]; cbn; [auto|].
  intros Hnd. inversion Hnd as [|? ? Hnin Hnd']; subst.
  destruct (Player.id p =? player_id)%string; cbn; auto.
  constructor; auto.
  intros Hin. apply Hnin. apply in_map_iff in Hin.
  destruct Hin as (q & Hq & Hin). apply others_In in Hin.
  apply in_map_iff. exists q. tauto.
Qed.

(** The first of the members left joined no later than the rest. *)
Lemma others_head_earliest player_id ps p0 rest :
  StronglySorted (fun a b => Player.joined_at a <= Player.joined_at b) ps ->
  others player_id ps = p0 :: rest ->
  Forall (fun q => Player.joined_at p0 <= Player.joined_at q) rest.
Proof.
  induction ps as [|p ps IH]; cbn; [discriminate|].
  intros Hs. inversion Hs as [|? ? Hs' Hall]; subst.
  destruct (Player.id p =? player_id)%string; cbn.
  - auto.
  - intros [= -> <-]. apply Forall_forall. intros q Hq.
    apply others_In in Hq. rewrite Forall_forall in Hall. apply Hall. tauto.
Qed.

(** Under [host_inv] exactly one member carries the host flag. *)
Lemma host_inv_count r : host_inv r -> host_count r = 1%nat.
Proof.
  unfold host_inv, host_count.
  generalize (Room.players r) (Room.host_id r). intros ps h.
  intros (Hnd & (x & Hx & Hxid) & Hflag).
  induction ps as [|p ps IH]; [contradiction|].
  cbn in Hnd. inversion Hnd as [|? ? Hnin Hnd']; subst.
  assert (Hnone : forall qs,
            (forall q, In q qs -> Player.is_host q = false) ->
            filter Player.is_host qs = []).
  { induction qs as [|q qs IHq]; cbn; [reflexivity|]. intros Hq.
    rewrite (Hq q (or_introl eq_refl)). apply IHq. intros; apply Hq; now right. }
  cbn. destruct Hx as [->|Hx].
  - rewrite (proj2 (Hflag x (or_introl eq_refl)) eq_refl). cbn.
    rewrite Hnone; [reflexivity|].
    intros q Hq. destruct (Player.is_host q) eqn:E; [|reflexivity].
    exfalso. apply Hnin. apply in_map_iff. exists q. split; [|exact Hq].
    apply Hflag; [now right|exact E].
  - destruct (Player.is_host p) eqn:E.
    + exfalso. apply Hnin. apply in_map_iff. exists x. split; [|exact Hx].
      symmetry. apply Hflag; [now left|exact E].
    + apply IH; auto.
      intros q Hq. apply Hflag. now right.
Qed.

(** [host_inv] for the room [remove_player] leaves, when a member is left. *)
Lemma host_inv_remove_player room player_id now p0 rest :
  host_inv room ->
  others player_id (Room.players room) = p0 :: rest ->
  let room' := snd (Room.remove_player room player_id now) in
  host_inv room' /\
  (Room.host_id room = player_id ->
   Room.host_id room' = Player.id p0 /\
   Room.players room' = Player.set_is_host p0 true :: rest) /\
  (Room.host_id room <> player_id ->
   Room.host_id room' = Room.host_id room /\
   Room.players room' = p0 :: rest).
Proof.
  intros (Hnd & (h & Hh & Hhid) & Hflag) Hothers.
  pose proof (others_NoDup player_id _ Hnd) as Hnd'.
  assert (Hin : forall q, In q (p0 :: rest) ->
                          In q (Room.players room) /\ Player.id q <> player_id).
  { intros q Hq. rewrite <- Hothers in Hq. now apply others_In. }
  rewrite remove_player_eq, Hothers. cbv zeta.
  rewrite Hothers in Hnd'.
  destruct (Room.host_id room =? player_id)%string eqn:E; cbn [snd].
  - apply String.eqb_eq in E.
    split; [|split; [intros _; split; reflexivity|congruence]].
    unfold host_inv. room_fields. split; [exact Hnd'|]. split.
    + exists (Player.set_is_host p0 true). split; [now left|reflexivity].
    + intros p [<-|Hp]; [cbn; tauto|].
      destruct (Hin p (or_intror Hp)) as [Hp' Hne].
      split.
      * intros Ht. apply Hflag in Ht; auto. congruence.
      * intros Hid. exfalso. cbn in Hnd'.
        inversion Hnd' as [|? ? Hnin _]; subst. apply Hnin.
        apply in_map_iff. exists p. auto.
  - apply String.eqb_neq in E.
    split; [|split; [congruence|intros _; split; reflexivity]].
    unfold host_inv. room_fields. split; [exact Hnd'|]. split.
    + exists h. split; [|exact Hhid].
      rewrite <- Hothers. apply others_In. split; auto. congruence.
    + intros p Hp. apply Hflag. now apply Hin.
Qed.

(** C5. A player leaves the room the index gives for it, in which [host_id]
    names the one member carrying the host flag and the members are listed
    in join order.  If nobody is left, [leave_room] returns [None], the room
    is gone from the registry and [get_room] on its code, in any casing,
    finds nothing.  Otherwise the room is kept and has again exactly one
    member carrying the host flag; if the player who left was the host, that
    member is the first of those left, [host_id] is its id, and it joined no
    later than any other member left. *)
Theorem leave_room_reassigns_host :
  forall self player_id now room_id room,
    Dict.get (player_to_room self) player_id = Some room_id ->
    truthy room_id = true ->
    Dict.get (rooms self) room_id = Some room ->
    host_inv room ->
    joined_in_order room ->
    let out := leave_room self player_id now in
    match others player_id (Room.players room) with
    | [] =>
        fst out = None /\
        Dict.get (rooms (snd out)) room_id = None /\
        forall code, upper code = room_id -> get_room (snd out) code = None
    | p0 :: rest =>
        exists room',
          fst out = Some room' /\
          Dict.get (rooms (snd out)) room_id = Some room' /\
          host_inv room' /\
          host_count room' = 1%nat /\
          (Room.host_id room = player_id ->
           Room.host_id room' = Player.id p0 /\
           Room.players room' = Player.set_is_host p0 true :: rest /\
           Forall (fun q => Player.joined_at p0 <= Player.joined_at q)
                  (Room.players room')) /\
          (Room.host_id room <> player_id ->
           Room.host_id room' = Room.host_id room /\
           Room.players room' = p0 :: rest)
    end.
Proof.
  intros self player_id now room_id room Hp Ht Hr Hinv Hsorted out.
  unfold out. rewrite (leave_room_eq _ _ _ _ _ Hp Ht Hr). cbv zeta.
  destruct (others player_id (Room.players room)) as [|p0 rest] eqn:Hothers.
  - rewrite remove_player_eq, Hothers. cbn [fst snd rooms].
    split; [reflexivity|].
    split; [apply Dict_get_delitem_eq|].
    intros code <-. unfold get_room. cbn [rooms]. apply Dict_get_delitem_eq.
  - destruct (host_inv_remove_player room player_id now p0 rest Hinv Hothers)
      as (Hinv' & Hhost & Hother).
    assert (Hfst : fst (Room.remove_player room player_id now) = false).
    { rewrite remove_player_eq, Hothers. cbv zeta.
      destruct (Room.host_id room =? player_id)%string; reflexivity. }
    rewrite Hfst. cbn [fst snd rooms].
    exists (snd (Room.remove_player room player_id now)).
    split; [reflexivity|].
    split; [apply Dict_get_setitem_eq|].
    split; [exact Hinv'|].
    split; [now apply host_inv_count|].
    split; [|exact Hother].
    intros Hid. destruct (Hhost Hid) as [Hh Hps].
    split; [exact Hh|]. split; [exact Hps|].
    rewrite Hps. constructor; [cbn; lia|].
    exact (others_head_earliest _ _ _ _ Hsorted Hothers).
Qed.

Lemma host_inv_room_ash_misty : host_inv room_ash_misty.
Proof.
  unfold host_inv, room_ash_misty; room_fields. split; [|split].
  - cbn. repeat constructor; cbn; intuition discriminate.
  - exists ash. split; [now left|reflexivity].
  - intros p [<-|[<-|[]]]; cbn; intuition discriminate.
Qed.

Lemma joined_in_order_room_ash_misty : joined_in_order room_ash_misty.
Proof.
  unfold joined_in_order, room_ash_misty; room_fields.
  repeat constructor. cbn. lia.
Qed.

(** The theorem at Ash, the host, leaving the room shared with Misty. *)
Lemma leave_room_reassigns_host_witness :
  let out := leave_room registry_ash_misty "p-ash" 900 in
  match others "p-ash" (Room.players room_ash_misty) with
  | [] =>
      fst out = None /\
      Dict.get (rooms (snd out)) "ABC123" = None /\
      forall code, upper code = "ABC123"%string ->
                   get_room (snd out) code = None
  | p0 :: rest =>
      exists room',
        fst out = Some room' /\
        Dict.get (rooms (snd out)) "ABC123" = Some room' /\
        host_inv room' /\
        host_count room' = 1%nat /\
        (Room.host_id room_ash_misty = "p-ash"%string ->
         Room.host_id room' = Player.id p0 /\
         Room.players room' = Player.set_is_host p0 true :: rest /\
         Forall (fun q => Player.joined_at p0 <= Player.joined_at q)
                (Room.players room')) /\
        (Room.host_id room_ash_misty <> "p-ash"%string ->
         Room.host_id room' = Room.host_id room_ash_misty /\
         Room.players room' = p0 :: rest)
  end.
Proof.
  apply (leave_room_reassigns_host registry_ash_misty "p-ash" 900
           "ABC123" room_ash_misty).
  - reflexivity.
  - reflexivity.
  - reflexivity.
  - exact host_inv_room_ash_misty.
  - exact joined_in_order_room_ash_misty.
Defined.

(** ** The relay dispatcher *)

(** [send_message] never raises, logs exactly one event for the socket it
    was given, leaves the registry alone, and delivers exactly when the
    socket is registered and its write goes through; the connection table
    changes only by losing that socket on a failed write. *)
Lemma send_message_event socket_id message w :
  exists b w' o,
    send_message socket_id message w
    = (Ok b, w', [mkSendEvent socket_id message o]) /\
    room_manager w' = room_manager w /\
    (o = Delivered <->
     exists ws, Dict.get (active_connections w) socket_id = Some ws /\
                send_text_ok ws message = true) /\
    (o = Delivered -> w' = w) /\
    (o = NotConnected -> w' = w) /\
    (forall s, s <> socket_id ->
               Dict.get (active_connections w') s
               = Dict.get (active_connections w) s).
Proof.
  unfold send_message, ws_disconnect.
  destruct (Dict.get (active_connections w) socket_id) as [ws|] eqn:Hget.
  - destruct (send_text_ok ws message) eqn:Hsend.
    + exists true, w, Delivered. repeat split; eauto.
    + unfold Dict.contains. rewrite Hget.
      eexists false, _, SendFailed. split; [reflexivity|].
      cbn [room_manager active_connections].
      repeat split; try discriminate.
      * intros (ws' & [= <-] & Hs). congruence.
      * intros s Hs. apply Dict_get_delitem_ne. congruence.
  - exists false, w, NotConnected. repeat split; try discriminate; auto.
    intros (ws' & [=] & _).
Qed.

Lemma bind_send_ret socket_id message w :
  (send_message socket_id message ;;; ret tt) w = unicast socket_id message w.
Proof.
  unfold bind, unicast, ret.
  destruct (send_message_event socket_id message w)
    as (b & w' & o & -> & _).
  reflexivity.
Qed.

(** A unicast run in full. *)
Lemma unicast_event socket_id message w :
  exists w' o,
    unicast socket_id message w
    = (Ok tt, w', [mkSendEvent socket_id message o]) /\
    room_manager w' = room_manager w /\
    (o = Delivered <->
     exists ws, Dict.get (active_connections w) socket_id = Some ws /\
                send_text_ok ws message = true) /\
    (o = Delivered -> w' = w).
Proof.
  unfold unicast.
  destruct (send_message_event socket_id message w)
    as (b & w' & o & -> & Hrm & Hd & Hsame & _).
  exists w', o. auto.
Qed.

Lemma bind_lift_Ok {A B : Type} (a : A) (k : A -> M B) w :
  bind (lift (Ok a)) k w = k a w.
Proof.
  unfold bind, lift. destruct (k a w) as [[r w2] l2]. reflexivity.
Qed.

Lemma bind_lift_Raise {A B : Type} e (k : A -> M B) w :
  bind (lift (Raise e)) k w = (Raise e, w, []).
Proof. reflexivity. Qed.

Lemma bind_query {A B : Type} (f : RoomManager -> A) (k : A -> M B) w :
  bind (query f) k w = k (f (room_manager w)) w.
Proof.
  unfold bind, query. destruct (k _ w) as [[r w2] l2]. reflexivity.
Qed.

Lemma bind_ret {A B : Type} (a : A) (k : A -> M B) w :
  bind (ret a) k w = k a w.
Proof.
  unfold bind, ret. destruct (k a w) as [[r w2] l2]. reflexivity.
Qed.

Lemma other_player_None room sender :
  other_player room sender = None <-> ~ has_bound_peer room sender.
Proof.
  unfold other_player, has_bound_peer. split.
  - intros Hnone (p & Hin & Hid & Hsock).
    pose proof (find_none _ _ Hnone p Hin) as Hf. cbn in Hf.
    apply String.eqb_neq in Hid. rewrite Hid, Hsock in Hf. discriminate.
  - intros Hno.
    match goal with |- ?o = None => destruct o as [p|] eqn:Hfind end;
      [|reflexivity].
    exfalso. apply Hno. apply find_some in Hfind.
    destruct Hfind as [Hin Hp]. apply andb_true_iff in Hp.
    destruct Hp as [Hid Hsock]. apply negb_true_iff, String.eqb_neq in Hid.
    exists p. auto.
Qed.

(** C7. For a [link_cable_data] message with a data mapping, from a
    connection the index resolves to a sender in a room: if the room's link
    flag is unset or no other member holds a connection handle, the handler
    makes one [send_message] call, an error to the sender's connection, and
    nothing else; otherwise it makes one [send_message] call, carrying
    action, payload, the sender's name and timestamp, to the connection
    handle of the first other member that holds one.  That call delivers
    exactly when the connection table holds the handle and the write goes
    through; when the table does not hold it, nothing is delivered, nothing
    changes and the sender gets no error.  In every case the handler
    returns normally and the registry is unchanged. *)
Theorem link_cable_data_relay :
  forall w socket_id (d : Dict.t json) room sender,
    get_player_by_socket (room_manager w) socket_id = Some (room, sender) ->
    (Room.link_cable_connected room = false \/ ~ has_bound_peer room sender ->
     exists text w' o,
       _handle_link_cable_data socket_id (JDict d) w
       = (Ok tt, w', [mkSendEvent socket_id (MsgError text) o]) /\
       room_manager w' = room_manager w) /\
    (Room.link_cable_connected room = true -> has_bound_peer room sender ->
     exists other other_socket w' o,
       let message :=
         MsgLinkCableData
           (match Dict.get d "action" with Some v => v | None => JNull end)
           (match Dict.get d "payload" with Some v => v | None => JDict [] end)
           (Player.name sender)
           (match Dict.get d "timestamp" with Some v => v | None => JNull end)
       in
       other_player room sender = Some other /\
       In other (Room.players room) /\
       Player.id other <> Player.id sender /\
       Player.socket_id other = Some other_socket /\
       _handle_link_cable_data socket_id (JDict d) w
       = (Ok tt, w', [mkSendEvent other_socket message o]) /\
       room_manager w' = room_manager w /\
       (o = Delivered <->
        exists ws,
          Dict.get (active_connections w) other_socket = Some ws /\
          send_text_ok ws message = true) /\
       (Dict.get (active_connections w) other_socket = None ->
        o = NotConnected /\ w' = w)).
Proof.
  intros w socket_id d room sender Hres.
  unfold _handle_link_cable_data. rewrite bind_query, Hres. split.
  - intros Hcase.
    destruct (Room.link_cable_connected room) eqn:Hlink; cbn [negb].
    + destruct Hcase as [Hf|Hno]; [discriminate|].
      apply other_player_None in Hno. rewrite Hno.
      rewrite bind_send_ret.
      destruct (unicast_event socket_id err_no_other_player w)
        as (w' & o & -> & Hrm & _).
      eexists _, w', o. split; [reflexivity|exact Hrm].
    + rewrite bind_send_ret.
      destruct (unicast_event socket_id err_link_not_connected w)
        as (w' & o & -> & Hrm & _).
      eexists _, w', o. split; [reflexivity|exact Hrm].
  - intros Hlink Hpeer. rewrite Hlink. cbn [negb].
    destruct (other_player room sender) as [other|] eqn:Hother.
    2:{ apply other_player_None in Hother. contradiction. }
    pose proof Hother as Hfirst.
    unfold other_player in Hother. apply find_some in Hother.
    destruct Hother as [Hin Hp]. apply andb_true_iff in Hp.
    destruct Hp as [Hid Hsock]. apply negb_true_iff, String.eqb_neq in Hid.
    destruct (Player.socket_id other) as [other_socket|] eqn:Hs;
      [|discriminate].
    exists other, other_socket.
    unfold json_get, json_get_default. rewrite !bind_lift_Ok.
    rewrite bind_send_ret. unfold unicast.
    match goal with
    | |- context [send_message other_socket ?m w] =>
        destruct (send_message_event other_socket m w)
          as (b & w' & o & Hrun & Hrm & Hdel & _);
        pose proof Hrun as Hgone; rewrite Hrun
    end.
    exists w', o. cbv zeta.
    split; [reflexivity|]. split; [exact Hin|]. split; [exact Hid|].
    split; [exact Hs|]. split; [reflexivity|]. split; [exact Hrm|].
    split; [exact Hdel|].
    intros Hnone. unfold send_message in Hgone. rewrite Hnone in Hgone.
    injection Hgone as _ Hw Ho. split; congruence.
Qed.

(** The theorem at Ash sending a trade request to Misty. *)
Lemma link_cable_data_relay_witness :
  (Room.link_cable_connected room_linked = false \/
   ~ has_bound_peer room_linked ash_bound ->
   exists text w' o,
     _handle_link_cable_data "s1" (JDict [("action", JStr "trade_request")])
                             world_linked
     = (Ok tt, w', [mkSendEvent "s1" (MsgError text) o]) /\
     room_manager w' = room_manager world_linked) /\
  (Room.link_cable_connected room_linked = true ->
   has_bound_peer room_linked ash_bound ->
   exists other other_socket w' o,
     let message :=
       MsgLinkCableData
         (match Dict.get [("action", JStr "trade_request")] "action" with
          | Some v => v | None => JNull end)
         (match Dict.get [("action", JStr "trade_request")] "payload" with
          | Some v => v | None => JDict [] end)
         (Player.name ash_bound)
         (match Dict.get [("action", JStr "trade_request")] "timestamp" with
          | Some v => v | None => JNull end)
     in
     other_player room_linked ash_bound = Some other /\
     In other (Room.players room_linked) /\
     Player.id other <> Player.id ash_bound /\
     Player.socket_id other = Some other_socket /\
     _handle_link_cable_data "s1" (JDict [("action", JStr "trade_request")])
                             world_linked
     = (Ok tt, w', [mkSendEvent other_socket message o]) /\
     room_manager w' = room_manager world_linked /\
     (o = Delivered <->
      exists ws,
        Dict.get (active_connections world_linked) other_socket = Some ws /\
        send_text_ok ws message = true) /\
     (Dict.get (active_connections world_linked) other_socket = None ->
      o = NotConnected /\ w' = world_linked)).
Proof.
  apply (link_cable_data_relay world_linked "s1"
           [("action", JStr "trade_request")] room_linked ash_bound).
  reflexivity.
Defined.

(** C7 as stated fails when the other member is bound to a connection that
    is not live.  Ash and Misty are both bound and the room is linked, the
    connection of Misty is broken.  A trade request of Ash is forwarded to
    it, the write fails and the connection leaves the connection table,
    Misty keeping the handle.  From then on no member other than Ash holds
    a live connection, yet the next trade request of Ash is answered with
    no error: the only [send_message] call is the forward to the connection
    that is gone, and nothing is delivered to anyone. *)
Lemma link_cable_data_to_dead_peer :
  let message :=
    MsgLinkCableData (JStr "trade_request") (JDict []) "Ash" JNull in
  get_player_by_socket (room_manager world_peer_gone) "s1"
  = Some (room_linked, ash_bound) /\
  Room.link_cable_connected room_linked = true /\
  handle_message "s1" trade_request 700 world_peer_broken
  = (Ok tt, world_peer_gone, [mkSendEvent "s2" message SendFailed]) /\
  ~ has_live_peer world_peer_gone room_linked ash_bound /\
  handle_message "s1" trade_request 800 world_peer_gone
  = (Ok tt, world_peer_gone, [mkSendEvent "s2" message NotConnected]).
Proof.
  cbv zeta. split; [reflexivity|]. split; [reflexivity|].
  split; [reflexivity|]. split; [|reflexivity].
  intros (p & s & Hin & Hid & Hs & Hlive).
  cbn in Hin. destruct Hin as [<-|[<-|[]]].
  - now elim Hid.
  - cbn in Hs. injection Hs as <-. vm_compute in Hlive. discriminate.
Qed.

(** *** Exceptions in the handlers *)

Lemma no_raise_ret {A : Type} (a : A) : no_raise (ret a).
Proof. intros w. unfold ret. eauto. Qed.

Lemma no_raise_query {A : Type} (f : RoomManager -> A) : no_raise (query f).
Proof. intros w. unfold query. eauto. Qed.

Lemma no_raise_call {A : Type} (f : RoomManager -> A * RoomManager) :
  no_raise (call f).
Proof.
  intros w. unfold call. destruct (f (room_manager w)) as [a rm]. eauto.
Qed.

Lemma no_raise_send socket_id message : no_raise (send_message socket_id message).
Proof.
  intros w. destruct (send_message_event socket_id message w)
    as (b & w' & o & -> & _). eauto.
Qed.

Lemma no_raise_bind {A B : Type} (m : M A) (k : A -> M B) :
  no_raise m -> (forall a, no_raise (k a)) -> no_raise (bind m k).
Proof.
  intros Hm Hk w. unfold bind.
  destruct (Hm w) as (a & w1 & l1 & ->).
  destruct (Hk a w1) as (b & w2 & l2 & ->). eauto.
Qed.

Lemma no_raise_clean {A : Type} (m : M A) : no_raise m -> raises_clean m.
Proof.
  intros Hm w e w1 l1 H. destruct (Hm w) as (a & w' & l & Hw). congruence.
Qed.

Lemma raises_clean_lift {A : Type} (r : result A) : raises_clean (lift r).
Proof. intros w e w1 l1. unfold lift. intros [= _ <- <-]. auto. Qed.

Lemma raises_clean_bind_lift {A B : Type} (r : result A) (k : A -> M B) :
  (forall a, raises_clean (k a)) -> raises_clean (bind (lift r) k).
Proof.
  intros Hk w e w1 l1. destruct r as [a|e0].
  - rewrite bind_lift_Ok. apply Hk.
  - rewrite bind_lift_Raise. intros [= _ <- <-]. auto.
Qed.

Lemma raises_clean_bind_query {A B : Type} (f : RoomManager -> A)
      (k : A -> M B) :
  (forall a, raises_clean (k a)) -> raises_clean (bind (query f) k).
Proof.
  intros Hk w e w1 l1. rewrite bind_query. apply Hk.
Qed.

Lemma raises_clean_bind_safe {A B : Type} (m : M A) (k : A -> M B) :
  raises_clean m -> (forall a, no_raise (k a)) -> raises_clean (bind m k).
Proof.
  intros Hm Hk w e w1 l1. unfold bind.
  destruct (m w) as [[[a|e0] w0] l0] eqn:Hmw.
  - destruct (Hk a w0) as (b & w2 & l2 & ->). discriminate.
  - intros [= <- <- <-]. eapply Hm. exact Hmw.
Qed.

Lemma no_raise_broadcast_loop ps message exclude :
  no_raise (broadcast_loop ps message exclude).
Proof.
  induction ps as [|p ps IH]; cbn [broadcast_loop].
  - apply no_raise_ret.
  - apply no_raise_bind; [|intros _; exact IH].
    destruct (Player.socket_id p) as [sid|]; [|apply no_raise_ret].
    match goal with |- no_raise (if ?c then _ else _) => destruct c end.
    + apply no_raise_bind; [apply no_raise_send|intros; apply no_raise_ret].
    + apply no_raise_ret.
Qed.

Lemma no_raise_broadcast room_id message exclude :
  no_raise (broadcast_to_room room_id message exclude).
Proof.
  unfold broadcast_to_room.
  apply no_raise_bind; [apply no_raise_query|].
  intros [room|]; [apply no_raise_broadcast_loop|apply no_raise_ret].
Qed.

Ltac no_raise_step :=
  first
    [ apply no_raise_ret
    | apply no_raise_query
    | apply no_raise_call
    | apply no_raise_send
    | apply no_raise_broadcast
    | apply no_raise_bind; [|intro]
    | match goal with
      | |- no_raise (if ?c then _ else _) => destruct c
      | |- no_raise (match ?x with _ => _ end) => destruct x
      | |- no_raise (let '(_, _) := ?x in _) => destruct x
      end ].

Ltac raises_clean_step :=
  first
    [ apply raises_clean_lift
    | apply raises_clean_bind_lift; intro
    | apply raises_clean_bind_query; intro
    | match goal with
      | |- raises_clean (if ?c then _ else _) => destruct c
      | |- raises_clean (match ?x with _ => _ end) => destruct x
      end
    | apply no_raise_clean; solve [repeat no_raise_step] ].

Lemma raises_clean_bind_raise {A B : Type} e (k : A -> M B) :
  raises_clean (bind (lift (Raise e)) k).
Proof.
  intros w e' w1 l1. rewrite bind_lift_Raise. intros [= _ <- <-]. auto.
Qed.

Lemma raises_clean_join_room socket_id data now :
  raises_clean (_handle_join_room socket_id data now).
Proof.
  unfold _handle_join_room.
  apply raises_clean_bind_lift; intros player_id.
  destruct (negb (json_truthy player_id)).
  { apply no_raise_clean. repeat no_raise_step. }
  destruct player_id; unfold connect_socket_json, get_player_room_json;
    try apply raises_clean_bind_raise;
    apply no_raise_clean; repeat no_raise_step.
Qed.

Lemma no_raise_leave_room socket_id : no_raise (_handle_leave_room socket_id).
Proof. unfold _handle_leave_room. repeat no_raise_step. Qed.

Lemma raises_clean_link_cable_data socket_id data :
  raises_clean (_handle_link_cable_data socket_id data).
Proof. unfold _handle_link_cable_data. repeat raises_clean_step. Qed.

Lemma raises_clean_player_status socket_id data now :
  raises_clean (_handle_player_status socket_id data now).
Proof. unfold _handle_player_status. repeat raises_clean_step. Qed.

Lemma raises_clean_save_state socket_id data :
  raises_clean (_handle_save_state socket_id data).
Proof. unfold _handle_save_state. repeat raises_clean_step. Qed.

Lemma raises_clean_dispatch socket_id message_data now :
  raises_clean (dispatch socket_id message_data now).
Proof.
  unfold dispatch.
  apply raises_clean_bind_lift; intros message_type.
  apply raises_clean_bind_lift; intros data.
  repeat match goal with
         | |- raises_clean (if ?c then _ else _) => destruct c
         end.
  - apply raises_clean_join_room.
  - apply no_raise_clean, no_raise_leave_room.
  - apply raises_clean_link_cable_data.
  - apply raises_clean_player_status.
  - apply raises_clean_save_state.
  - apply no_raise_clean. repeat no_raise_step.
  - apply no_raise_clean. repeat no_raise_step.
Qed.

Lemma unicast_error_reply socket_id text w :
  error_reply_only socket_id text w (unicast socket_id (MsgError text) w).
Proof.
  unfold unicast, error_reply_only.
  destruct (send_message_event socket_id (MsgError text) w)
    as (b & w' & o & -> & Hrm & _ & Hsame & _ & Hothers).
  exists w', o. auto.
Qed.

Lemma world_eta w : mkWorld (room_manager w) (active_connections w) = w.
Proof. destruct w. reflexivity. Qed.

(** A failed [connect_socket] changes nothing. *)
Lemma connect_socket_false self socket_id player_id now :
  fst (connect_socket self socket_id player_id now) = false ->
  snd (connect_socket self socket_id player_id now) = self.
Proof.
  unfold connect_socket.
  destruct (player_room_entry self player_id) as [[rid room]|]; [|reflexivity].
  destruct (Room.get_player room player_id); [discriminate|reflexivity].
Qed.

(** [handle_message] passes on what a [dispatch] that returns did. *)
Lemma handle_message_Ok socket_id message_data now w w' log :
  dispatch socket_id message_data now w = (Ok tt, w', log) ->
  handle_message socket_id message_data now w = (Ok tt, w', log).
Proof. intros H. unfold handle_message, try_except. now rewrite H. Qed.

(** [dispatch] on a [join_room] message is [_handle_join_room] on its data. *)
Lemma dispatch_join_room socket_id m now w :
  Dict.get m "type" = Some (JStr "join_room") ->
  dispatch socket_id (JDict m) now w
  = _handle_join_room socket_id
      (match Dict.get m "data" with Some v => v | None => JDict [] end) now w.
Proof.
  intros Htype. unfold dispatch, json_get, json_get_default.
  rewrite !bind_lift_Ok, Htype. reflexivity.
Qed.

(** C8. [handle_message] returns normally on every inbound message, so
    nothing propagates to the connection's receive loop.  Whenever the
    dispatch raises, whatever the message, the world is as before the
    message and the run is exactly one generic error reply to the sender.
    A [join_room] message whose [player_id] is missing or otherwise falsy
    gives exactly one "Player ID required" error to the sender; one whose
    [player_id] names no registered player, so that [connect_socket] fails,
    or is a number or boolean, gives exactly one "Failed to join room"
    error to the sender.  In each of these runs the registry is unchanged,
    no other connection is sent to or unregistered, and the sender's own
    stays registered when the reply is written. *)
Theorem dispatcher_failure_policy :
  forall socket_id now w,
    (forall message_data,
       exists w' log,
         handle_message socket_id message_data now w = (Ok tt, w', log)) /\
    (forall message_data e w1 l1,
       dispatch socket_id message_data now w = (Raise e, w1, l1) ->
       w1 = w /\ l1 = [] /\
       error_reply_only socket_id "Failed to process message" w
         (handle_message socket_id message_data now w)) /\
    (forall m player_id,
       Dict.get m "type" = Some (JStr "join_room") ->
       json_get (match Dict.get m "data" with Some v => v | None => JDict [] end)
                "player_id" = Ok player_id ->
       (json_truthy player_id = false ->
        error_reply_only socket_id "Player ID required" w
          (handle_message socket_id (JDict m) now w)) /\
       (json_truthy player_id = true ->
        match player_id with
        | JStr s =>
            fst (connect_socket (room_manager w) socket_id s now) = false
        | JList _ | JDict _ => False
        | _ => True
        end ->
        error_reply_only socket_id "Failed to join room" w
          (handle_message socket_id (JDict m) now w))).
Proof.
  intros socket_id now w. split; [|split].
  - intros message_data. unfold handle_message, try_except.
    destruct (dispatch socket_id message_data now w) as [[[[]|e] w1] l1] eqn:Hd.
    + eauto.
    + rewrite bind_send_ret. unfold unicast.
      destruct (send_message_event socket_id err_failed_to_process w1)
        as (b & w' & o & -> & _). eauto.
  - intros message_data e w1 l1 Hd.
    destruct (raises_clean_dispatch socket_id message_data now w e w1 l1 Hd)
      as [-> ->].
    split; [reflexivity|]. split; [reflexivity|].
    unfold handle_message, try_except. rewrite Hd, bind_send_ret.
    pose proof (unicast_error_reply socket_id "Failed to process message" w)
      as Hu.
    unfold err_failed_to_process.
    destruct (unicast socket_id (MsgError "Failed to process message") w)
      as [[r w2] l2].
    exact Hu.
  - intros m player_id Htype Hpid. split.
    + intros Hfalsy.
      pose proof (unicast_error_reply socket_id "Player ID required" w) as Hu.
      destruct Hu as (w' & o & Hrun & Hrest).
      exists w', o. split; [|exact Hrest].
      apply handle_message_Ok.
      rewrite dispatch_join_room by exact Htype.
      unfold _handle_join_room. rewrite Hpid, bind_lift_Ok, Hfalsy.
      cbn [negb]. rewrite bind_send_ret. exact Hrun.
    + intros Htruthy Hfail.
      pose proof (unicast_error_reply socket_id "Failed to join room" w) as Hu.
      destruct Hu as (w' & o & Hrun & Hrest).
      exists w', o. split; [|exact Hrest].
      apply handle_message_Ok.
      rewrite dispatch_join_room by exact Htype.
      unfold _handle_join_room. rewrite Hpid, bind_lift_Ok, Htruthy.
      cbn [negb].
      assert (Hconnect :
        connect_socket_json socket_id player_id now w = (Ok false, w, [])).
      { destruct player_id; try contradiction; try reflexivity.
        unfold connect_socket_json, call.
        pose proof (connect_socket_false _ _ _ _ Hfail) as Hsnd.
        destruct (connect_socket (room_manager w) socket_id s now)
          as [ok rm]. cbn in Hfail, Hsnd. subst. now rewrite world_eta. }
      unfold bind at 1. rewrite Hconnect.
      rewrite bind_send_ret. unfold err_failed_to_join. rewrite Hrun.
      reflexivity.
Qed.

(** The theorem at a [join_room] message without a player id, at one
    naming an unknown player, and at a message that is not a mapping. *)
Lemma dispatcher_failure_policy_witness :
  error_reply_only "s9" "Player ID required" world_linked
    (handle_message "s9" (JDict [("type", JStr "join_room")]) 700
                    world_linked) /\
  error_reply_only "s9" "Failed to join room" world_linked
    (handle_message "s9"
       (JDict [("type", JStr "join_room");
               ("data", JDict [("player_id", JStr "p-nobody")])])
       700 world_linked) /\
  error_reply_only "s9" "Failed to process message" world_linked
    (handle_message "s9" (JList []) 700 world_linked).
Proof.
  destruct (dispatcher_failure_policy "s9" 700 world_linked)
    as (_ & Hraise & Hjoin).
  split; [|split].
  - apply (Hjoin [("type", JStr "join_room")] JNull); reflexivity.
  - apply (Hjoin [("type", JStr "join_room");
                  ("data", JDict [("player_id", JStr "p-nobody")])]
                 (JStr "p-nobody")); reflexivity.
  - apply (Hraise (JList []) AttributeError world_linked []). reflexivity.
Defined.

(** ** Index consistency *)

Lemma Dict_keys_setitem {V : Type} (d : Dict.t V) k v :
  Dict.keys (Dict.setitem d k v)
  = if Dict.contains d k then Dict.keys d else (Dict.keys d ++ [k])%list.
Proof.
  unfold Dict.contains, Dict.keys.
  induction d as [|[k' v'] d IH]; cbn; [reflexivity|].
  destruct (k' =? k)%string eqn:E; cbn; [reflexivity|].
  rewrite IH. destruct (Dict.get d k); reflexivity.
Qed.

Lemma Dict_get_None_keys {V : Type} (d : Dict.t V) k :
  Dict.get d k = None <-> ~ In k (Dict.keys d).
Proof.
  unfold Dict.keys. induction d as [|[k' v'] d IH]; cbn; [tauto|].
  destruct (k' =? k)%string eqn:E.
  - apply String.eqb_eq in E. split; [discriminate|]. intros H. tauto.
  - apply String.eqb_neq in E. rewrite IH. tauto.
Qed.

Lemma Dict_NoDup_setitem {V : Type} (d : Dict.t V) k v :
  NoDup (Dict.keys d) -> NoDup (Dict.keys (Dict.setitem d k v)).
Proof.
  intros Hnd. rewrite Dict_keys_setitem. unfold Dict.contains.
  destruct (Dict.get d k) eqn:E; [exact Hnd|].
  apply Dict_get_None_keys in E.
  apply NoDup_app; [exact Hnd|repeat constructor; intros []|].
  intros x Hx [<-|[]]. contradiction.
Qed.

Lemma Dict_NoDup_delitem {V : Type} (d : Dict.t V) k :
  NoDup (Dict.keys d) -> NoDup (Dict.keys (Dict.delitem d k)).
Proof.
  unfold Dict.keys, Dict.delitem.
  induction d as [|[k' v'] d IH]; cbn; [auto|].
  intros Hnd. inversion Hnd as [|? ? Hnin Hnd']; subst.
  destruct (k' =? k)%string; cbn; auto.
  constructor; auto.
  intros Hin. apply Hnin. apply in_map_iff in Hin.
  destruct Hin as (x & Hx & Hin). apply filter_In in Hin.
  apply in_map_iff. exists x. tauto.
Qed.

Lemma Dict_In_get_NoDup {V : Type} (d : Dict.t V) k v :
  NoDup (Dict.keys d) -> In (k, v) d -> Dict.get d k = Some v.
Proof.
  unfold Dict.keys. induction d as [|[k' v'] d IH]; cbn; [tauto|].
  intros Hnd Hin. inversion Hnd as [|? ? Hnin Hnd']; subst.
  destruct Hin as [[= -> ->]|Hin].
  - now rewrite String.eqb_refl.
  - destruct (k' =? k)%string eqn:E; [|auto].
    apply String.eqb_eq in E. subst k'. exfalso. apply Hnin.
    apply in_map_iff. exists (k, v). auto.
Qed.

Lemma first_socket_of_Some d player_id sid :
  first_socket_of d player_id = Some sid -> In (sid, player_id) d.
Proof.
  unfold first_socket_of.
  destruct (find _ d) as [[s p]|] eqn:Hf; [|discriminate].
  cbn. intros [= ->]. apply find_some in Hf. destruct Hf as [Hin Hp].
  cbn in Hp. apply String.eqb_eq in Hp. now subst.
Qed.

Lemma first_socket_of_None d player_id sid :
  first_socket_of d player_id = None -> Dict.get d sid <> Some player_id.
Proof.
  unfold first_socket_of.
  destruct (find _ d) as [[s p]|] eqn:Hf; [discriminate|].
  intros _ Hget. apply Dict_get_In in Hget.
  pose proof (find_none _ _ Hf _ Hget) as Hn. cbn in Hn.
  rewrite String.eqb_refl in Hn. discriminate.
Qed.

Lemma NoDup_id_inj (ps : list Player.t) a b :
  NoDup (map Player.id ps) -> In a ps -> In b ps ->
  Player.id a = Player.id b -> a = b.
Proof.
  induction ps as [|p ps IH]; cbn; [tauto|].
  intros Hnd Ha Hb Hid. inversion Hnd as [|? ? Hnin Hnd']; subst.
  destruct Ha as [->|Ha], Hb as [->|Hb]; auto.
  - exfalso. apply Hnin. rewrite Hid. now apply in_map.
  - exfalso. apply Hnin. rewrite <- Hid. now apply in_map.
Qed.

(** The members [remove_player] leaves are those of [others], up to the
    host flag of the first. *)
Lemma remove_player_members room player_id now :
  let out := Room.remove_player room player_id now in
  (fst out = true <-> others player_id (Room.players room) = []) /\
  map Player.id (Room.players (snd out))
  = map Player.id (others player_id (Room.players room)) /\
  (forall q, In q (Room.players (snd out)) ->
     exists q0, In q0 (others player_id (Room.players room)) /\
                Player.id q = Player.id q0 /\
                Player.socket_id q = Player.socket_id q0) /\
  (forall q0, In q0 (others player_id (Room.players room)) ->
     exists q, In q (Room.players (snd out)) /\
               Player.id q = Player.id q0 /\
               Player.socket_id q = Player.socket_id q0).
Proof.
  cbv zeta. rewrite remove_player_eq. cbv zeta.
  destruct (others player_id (Room.players room)) as [|p0 rest].
  - cbn. repeat split; auto; try tauto; intros q [].
  - destruct (Room.host_id room =? player_id)%string; cbn [fst snd];
      room_fields.
    + split; [split; discriminate|]. split; [reflexivity|]. split.
      * intros q [<-|Hq]; [exists p0|exists q]; cbn; auto.
      * intros q0 [->|Hq];
          [exists (Player.set_is_host q0 true)|exists q0]; cbn; auto.
    + split; [split; discriminate|]. split; [reflexivity|].
      split; intros q Hq; exists q; auto.
Qed.

(** The registry a resolved [leave_room] leaves, read through [get]. *)
Lemma leave_room_state self player_id now room_id room :
  Dict.get (player_to_room self) player_id = Some room_id ->
  truthy room_id = true ->
  Dict.get (rooms self) room_id = Some room ->
  let out := Room.remove_player room player_id now in
  let st' := snd (leave_room self player_id now) in
  (forall k, Dict.get (rooms st') k
             = if (room_id =? k)%string
               then (if fst out then None else Some (snd out))
               else Dict.get (rooms self) k) /\
  player_to_room st' = Dict.delitem (player_to_room self) player_id /\
  socket_to_player st'
  = match first_socket_of (socket_to_player self) player_id with
    | Some socket_id =>
        if truthy socket_id
        then Dict.delitem (socket_to_player self) socket_id
        else socket_to_player self
    | None => socket_to_player self
    end /\
  (NoDup (Dict.keys (rooms self)) -> NoDup (Dict.keys (rooms st'))).
Proof.
  intros Hp Ht Hr. cbv zeta.
  rewrite (leave_room_eq _ _ _ _ _ Hp Ht Hr). cbv zeta.
  destruct (fst (Room.remove_player room player_id now));
    cbn [snd rooms player_to_room socket_to_player].
  - repeat split; auto.
    + intros k. rewrite Dict_get_delitem, Dict_get_setitem.
      destruct (room_id =? k)%string; reflexivity.
    + intros Hnd. now apply Dict_NoDup_delitem, Dict_NoDup_setitem.
  - repeat split; auto.
    + intros k. apply Dict_get_setitem.
    + intros Hnd. now apply Dict_NoDup_setitem.
Qed.

(** No connection entry for the player survives its [leave_room]. *)
Lemma leave_room_socket_gone self player_id sid :
  registry_ok self ->
  Dict.get
    (match first_socket_of (socket_to_player self) player_id with
     | Some socket_id =>
         if truthy socket_id
         then Dict.delitem (socket_to_player self) socket_id
         else socket_to_player self
     | None => socket_to_player self
     end) sid <> Some player_id.
Proof.
  intros Hok.
  destruct (first_socket_of (socket_to_player self) player_id) as [s0|] eqn:Hf.
  2:{ now apply first_socket_of_None. }
  apply first_socket_of_Some in Hf.
  apply (Dict_In_get_NoDup _ _ _ (ok_s2p_keys _ Hok)) in Hf.
  destruct (ok_s2p _ Hok _ _ Hf) as (Ht0 & r0 & room0 & p0 & Hr0 & Hin0 & Hid0 & Hs0).
  rewrite Ht0, Dict_get_delitem.
  destruct (s0 =? sid)%string eqn:E; [discriminate|].
  apply String.eqb_neq in E. intros Hget.
  destruct (ok_s2p _ Hok _ _ Hget) as (_ & r1 & room1 & p1 & Hr1 & Hin1 & Hid1 & Hs1).
  pose proof (ok_member _ Hok _ _ _ Hr0 Hin0) as Hm0.
  pose proof (ok_member _ Hok _ _ _ Hr1 Hin1) as Hm1.
  rewrite Hid0 in Hm0. rewrite Hid1 in Hm1.
  assert (r1 = r0) by congruence. subst r1.
  assert (room1 = room0) by congruence. subst room1.
  assert (p1 = p0).
  { apply (NoDup_id_inj (Room.players room0)); auto.
    - exact (ok_member_ids _ Hok _ _ Hr0).
    - congruence. }
  subst p1. congruence.
Qed.

(** [leave_room] keeps the registry consistent. *)
Lemma registry_ok_leave_room self player_id now :
  registry_ok self -> registry_ok (snd (leave_room self player_id now)).
Proof.
  intros Hok.
  destruct (leave_room_cases self player_id now)
    as [->|(room_id & room & Hp & Ht & Hr)]; [exact Hok|].
  destruct (leave_room_state self player_id now room_id room Hp Ht Hr)
    as (Hrooms & Hp2r & Hs2p & Hkeys).
  destruct (remove_player_members room player_id now)
    as (Hempty & Hids & Hback & Hforth).
  set (st' := snd (leave_room self player_id now)) in *.
  set (out := Room.remove_player room player_id now) in *.
  (* a member of the room other than the leaver is still registered *)
  assert (Hstay : forall q0,
            In q0 (Room.players room) -> Player.id q0 <> player_id ->
            exists q, Dict.get (rooms st') room_id = Some (snd out) /\
                      In q (Room.players (snd out)) /\
                      Player.id q = Player.id q0 /\
                      Player.socket_id q = Player.socket_id q0).
  { intros q0 Hin Hne.
    assert (Ho : In q0 (others player_id (Room.players room)))
      by (apply others_In; auto).
    destruct (Hforth q0 Ho) as (q & Hq & Hid & Hs).
    exists q. repeat split; auto.
    rewrite Hrooms, String.eqb_refl.
    replace (fst out) with false; [reflexivity|].
    destruct (fst out) eqn:E; [|reflexivity].
    exfalso. rewrite (proj1 Hempty eq_refl) in Ho. contradiction. }
  (* a member of any room afterwards *)
  assert (Hmem : forall k r q,
            Dict.get (rooms st') k = Some r -> In q (Room.players r) ->
            Player.id q <> player_id /\
            exists r0 q0, Dict.get (rooms self) k = Some r0 /\
                          In q0 (Room.players r0) /\
                          Player.id q = Player.id q0).
  { intros k r q Hk Hq. rewrite Hrooms in Hk.
    destruct (room_id =? k)%string eqn:E.
    - apply String.eqb_eq in E. subst k.
      destruct (fst out); [discriminate|].
      assert (Er : r = snd out) by congruence. subst r.
      destruct (Hback q Hq) as (q0 & Ho & Hid & _).
      apply others_In in Ho. destruct Ho as [Hin Hne].
      split; [congruence|]. exists room, q0. auto.
    - apply String.eqb_neq in E. split.
      + intros Hid. pose proof (ok_member _ Hok _ _ _ Hk Hq) as Hm.
        rewrite Hid in Hm. congruence.
      + exists r, q. auto. }
  constructor.
  - apply Hkeys, (ok_rooms_keys _ Hok).
  - rewrite Hp2r. apply Dict_NoDup_delitem, (ok_p2r_keys _ Hok).
  - rewrite Hs2p.
    destruct (first_socket_of (socket_to_player self) player_id) as [s0|];
      [|apply (ok_s2p_keys _ Hok)].
    destruct (truthy s0); [|apply (ok_s2p_keys _ Hok)].
    apply Dict_NoDup_delitem, (ok_s2p_keys _ Hok).
  - intros rid r Hget. rewrite Hrooms in Hget.
    destruct (room_id =? rid)%string.
    + destruct (fst out); [discriminate|].
      assert (Er : r = snd out) by congruence. subst r.
      rewrite Hids. apply others_NoDup, (ok_member_ids _ Hok _ _ Hr).
    + exact (ok_member_ids _ Hok _ _ Hget).
  - intros pid rid Hget. rewrite Hp2r, Dict_get_delitem in Hget.
    destruct (player_id =? pid)%string eqn:E; [discriminate|].
    apply String.eqb_neq in E.
    destruct (ok_p2r _ Hok _ _ Hget) as (Htr & r0 & p0 & Hr0 & Hin0 & Hid0).
    split; [exact Htr|].
    destruct (String.eqb_spec room_id rid) as [<-|Hne].
    + assert (r0 = room) by congruence. subst r0.
      destruct (Hstay p0 Hin0) as (q & Hq1 & Hq2 & Hq3 & _); [congruence|].
      exists (snd out), q. repeat split; auto. congruence.
    + exists r0, p0. repeat split; auto.
      rewrite Hrooms. apply String.eqb_neq in Hne. now rewrite Hne.
  - intros rid r q Hget Hq.
    destruct (Hmem _ _ _ Hget Hq) as (Hne & r0 & q0 & Hr0 & Hin0 & Hid0).
    rewrite Hp2r, Dict_get_delitem.
    replace (player_id =? Player.id q)%string with false
      by (symmetry; apply String.eqb_neq; congruence).
    rewrite Hid0. exact (ok_member _ Hok _ _ _ Hr0 Hin0).
  - intros sid pid Hget.
    assert (Hne : pid <> player_id).
    { intros ->. rewrite Hs2p in Hget.
      exact (leave_room_socket_gone self player_id sid Hok Hget). }
    assert (Hold : Dict.get (socket_to_player self) sid = Some pid).
    { rewrite Hs2p in Hget.
      destruct (first_socket_of (socket_to_player self) player_id) as [s0|];
        [|exact Hget].
      destruct (truthy s0); [|exact Hget].
      rewrite Dict_get_delitem in Hget.
      destruct (s0 =? sid)%string; [discriminate|exact Hget]. }
    destruct (ok_s2p _ Hok _ _ Hold)
      as (Htr & r0 & room0 & p0 & Hr0 & Hin0 & Hid0 & Hs0).
    split; [exact Htr|].
    destruct (String.eqb_spec room_id r0) as [<-|Hner].
    + assert (room0 = room) by congruence. subst room0.
      destruct (Hstay p0 Hin0) as (q & Hq1 & Hq2 & Hq3 & Hq4); [congruence|].
      exists room_id, (snd out), q. repeat split; auto; congruence.
    + exists r0, room0, p0. repeat split; auto.
      rewrite Hrooms. apply String.eqb_neq in Hner. now rewrite Hner.
Qed.

(** What [leave_room] leaves alone: rooms under other keys than the
    player's, and the index entries of the other players. *)
Lemma leave_room_frame self player_id now room_id :
  registry_ok self ->
  (Dict.get (player_to_room self) player_id = Some room_id \/
   Dict.get (player_to_room self) player_id = None) ->
  let st' := snd (leave_room self player_id now) in
  (forall k, k <> room_id ->
             Dict.get (rooms st') k = Dict.get (rooms self) k) /\
  Dict.get (player_to_room st') player_id = None /\
  (forall q, q <> player_id ->
             Dict.get (player_to_room st') q
             = Dict.get (player_to_room self) q).
Proof.
  intros Hok [Hp|Hp]; cbv zeta.
  - destruct (ok_p2r _ Hok _ _ Hp) as (Ht & room & _ & Hr & _).
    destruct (leave_room_state self player_id now room_id room Hp Ht Hr)
      as (Hrooms & Hp2r & _).
    repeat split.
    + intros k Hk. rewrite Hrooms.
      replace (room_id =? k)%string with false; [reflexivity|].
      symmetry. apply String.eqb_neq. congruence.
    + rewrite Hp2r. apply Dict_get_delitem_eq.
    + intros q Hq. rewrite Hp2r. apply Dict_get_delitem_ne. congruence.
  - rewrite leave_room_noop by auto. cbn [snd]. auto.
Qed.

(** The loop of [remove_room] over the members of the room under
    [room_id]. *)
Lemma leave_all_spec now room_id ps : forall self,
  registry_ok self ->
  (forall p, In p ps ->
     Dict.get (player_to_room self) (Player.id p) = Some room_id \/
     Dict.get (player_to_room self) (Player.id p) = None) ->
  let st' := fold_left (fun st p => snd (leave_room st (Player.id p) now))
                       ps self in
  registry_ok st' /\
  (forall k, k <> room_id ->
             Dict.get (rooms st') k = Dict.get (rooms self) k) /\
  (forall p, In p ps -> Dict.get (player_to_room st') (Player.id p) = None) /\
  (forall q x, Dict.get (player_to_room st') q = Some x ->
               Dict.get (player_to_room self) q = Some x).
Proof.
  induction ps as [|p ps IH]; intros self Hok Hidx; cbv zeta.
  - cbn [fold_left]. split; [exact Hok|]. split; [reflexivity|].
    split; [intros p []|auto].
  - cbn [fold_left].
    pose proof (registry_ok_leave_room self (Player.id p) now Hok) as Hok1.
    destruct (leave_room_frame self (Player.id p) now room_id Hok
                (Hidx p (or_introl eq_refl)))
      as (Hrooms1 & Hgone1 & Hother1).
    set (st1 := snd (leave_room self (Player.id p) now)) in *.
    assert (Hidx1 : forall p', In p' ps ->
              Dict.get (player_to_room st1) (Player.id p') = Some room_id \/
              Dict.get (player_to_room st1) (Player.id p') = None).
    { intros p' Hin.
      destruct (String.eqb_spec (Player.id p') (Player.id p)) as [E|E].
      - right. now rewrite E.
      - rewrite (Hother1 _ E). apply Hidx. now right. }
    destruct (IH st1 Hok1 Hidx1) as (Hok' & Hrooms' & Hgone' & Hshrink').
    assert (Hshrink1 : forall q x,
              Dict.get (player_to_room st1) q = Some x ->
              Dict.get (player_to_room self) q = Some x).
    { intros q x Hq.
      destruct (String.eqb_spec q (Player.id p)) as [->|E]; [congruence|].
      now rewrite <- (Hother1 _ E). }
    split; [exact Hok'|]. split; [|split].
    + intros k Hk. rewrite Hrooms' by exact Hk. now apply Hrooms1.
    + intros p' [<-|Hin]; [|now apply Hgone'].
      match goal with
      | |- ?g = None => destruct g as [x|] eqn:Hg; [|reflexivity]
      end.
      apply Hshrink' in Hg. congruence.
    + intros q x Hq. apply Hshrink1, Hshrink'. exact Hq.
Qed.

(** [remove_room] keeps the registry consistent, removes the room under
    the key given and no other, and adds no index entry. *)
Lemma remove_room_spec self room_id now :
  registry_ok self ->
  let st' := remove_room self room_id now in
  registry_ok st' /\
  (forall k, Dict.get (rooms st') k
             = if (room_id =? k)%string then None
               else Dict.get (rooms self) k) /\
  (forall q x, Dict.get (player_to_room st') q = Some x ->
               Dict.get (player_to_room self) q = Some x).
Proof.
  intros Hok. cbv zeta. unfold remove_room.
  destruct (Dict.get (rooms self) room_id) as [room|] eqn:Hr.
  2:{ split; [exact Hok|]. split; [|auto]. intros k.
      destruct (String.eqb_spec room_id k) as [<-|_]; auto. }
  destruct (leave_all_spec now room_id (Room.players room) self Hok)
    as (Hok1 & Hrooms1 & Hgone1 & Hshrink1).
  { intros p Hin. left. exact (ok_member _ Hok _ _ _ Hr Hin). }
  set (st1 := fold_left _ (Room.players room) self) in *.
  (* whatever is left under the key has no member *)
  assert (Hnobody : forall r q, Dict.get (rooms st1) room_id = Some r ->
                                ~ In q (Room.players r)).
  { intros r q Hr1 Hq.
    pose proof (ok_member _ Hok1 _ _ _ Hr1 Hq) as Hm.
    pose proof (Hshrink1 _ _ Hm) as Hm0.
    destruct (ok_p2r _ Hok _ _ Hm0) as (_ & r0 & p0 & Hr0 & Hin0 & Hid0).
    assert (r0 = room) by congruence. subst r0.
    pose proof (Hgone1 p0 Hin0) as Hg. rewrite Hid0 in Hg. congruence. }
  unfold Dict.contains.
  destruct (Dict.get (rooms st1) room_id) as [r1|] eqn:Hr1.
  - unfold set_rooms. split; [|split].
    + constructor; cbn [rooms player_to_room socket_to_player].
      * apply Dict_NoDup_delitem, (ok_rooms_keys _ Hok1).
      * apply (ok_p2r_keys _ Hok1).
      * apply (ok_s2p_keys _ Hok1).
      * intros rid r. rewrite Dict_get_delitem.
        destruct (room_id =? rid)%string; [discriminate|].
        apply (ok_member_ids _ Hok1).
      * intros pid rid Hget.
        destruct (ok_p2r _ Hok1 _ _ Hget) as (Ht & r & p & Hg & Hin & Hid).
        split; [exact Ht|]. exists r, p. repeat split; auto.
        rewrite Dict_get_delitem.
        destruct (String.eqb_spec room_id rid) as [<-|_]; [|exact Hg].
        exfalso. rewrite Hr1 in Hg. exact (Hnobody _ _ Hg Hin).
      * intros rid r p. rewrite Dict_get_delitem.
        destruct (room_id =? rid)%string; [discriminate|].
        apply (ok_member _ Hok1).
      * intros sid pid Hget.
        destruct (ok_s2p _ Hok1 _ _ Hget)
          as (Ht & rid & r & p & Hg & Hin & Hid & Hs).
        split; [exact Ht|]. exists rid, r, p. repeat split; auto.
        rewrite Dict_get_delitem.
        destruct (String.eqb_spec room_id rid) as [<-|_]; [|exact Hg].
        exfalso. rewrite Hr1 in Hg. exact (Hnobody _ _ Hg Hin).
    + intros k. cbn [rooms]. rewrite Dict_get_delitem.
      destruct (String.eqb_spec room_id k) as [<-|Hk]; [reflexivity|].
      apply Hrooms1. congruence.
    + exact Hshrink1.
  - split; [exact Hok1|]. split; [|exact Hshrink1].
    intros k. destruct (String.eqb_spec room_id k) as [<-|Hk]; [exact Hr1|].
    apply Hrooms1. congruence.
Qed.

(** ** The expiry sweep *)

(** The loop of the sweeper over the keys collected. *)
Lemma remove_rooms_spec now keys : forall self,
  registry_ok self ->
  let st' := fold_left (fun st room_id => remove_room st room_id now)
                       keys self in
  registry_ok st' /\
  (forall k, In k keys -> Dict.get (rooms st') k = None) /\
  (forall k, ~ In k keys -> Dict.get (rooms st') k = Dict.get (rooms self) k) /\
  (forall q x, Dict.get (player_to_room st') q = Some x ->
               Dict.get (player_to_room self) q = Some x).
Proof.
  induction keys as [|rid keys IH]; intros self Hok; cbv zeta.
  - cbn [fold_left]. split; [exact Hok|]. split; [intros k []|auto].
  - cbn [fold_left].
    destruct (remove_room_spec self rid now Hok) as (Hok1 & Hrooms1 & Hshrink1).
    set (st1 := remove_room self rid now) in *.
    destruct (IH st1 Hok1) as (Hok' & Hin' & Hout' & Hshrink').
    split; [exact Hok'|]. split; [|split].
    + intros k Hk.
      destruct (in_dec string_dec k keys) as [Hi|Hn]; [now apply Hin'|].
      destruct Hk as [<-|Hk]; [|contradiction].
      rewrite Hout' by exact Hn. rewrite Hrooms1.
      now rewrite String.eqb_refl.
    + intros k Hk.
      rewrite Hout' by (intros Hi; apply Hk; now right).
      rewrite Hrooms1.
      destruct (String.eqb_spec rid k) as [<-|_]; [|reflexivity].
      exfalso. apply Hk. now left.
    + intros q x Hq. apply Hshrink1, Hshrink'. exact Hq.
Qed.

(** The keys the sweeper collects are those of the expired rooms. *)
Lemma rooms_to_remove_In self now k :
  NoDup (Dict.keys (rooms self)) ->
  (In k (rooms_to_remove self now) <->
   exists room, Dict.get (rooms self) k = Some room /\
                expired now room = true).
Proof.
  intros Hnd. unfold rooms_to_remove, expired. rewrite in_map_iff. split.
  - intros ([k' room] & Hk & Hin). cbn in Hk. subst k'.
    apply filter_In in Hin. destruct Hin as [Hin Hexp]. cbn in Hexp.
    exists room. split; [|exact Hexp]. now apply Dict_In_get_NoDup.
  - intros (room & Hget & Hexp). exists (k, room). split; [reflexivity|].
    apply filter_In. split; [|exact Hexp]. now apply Dict_get_In.
Qed.


(** *** The sweep does not read the connection index *)

(** What [leave_room], [remove_room] and a pass of the sweeper do to the
    rooms and to the player index does not depend on the connection
    index. *)
Lemma leave_room_without_connections self player_id now :
  snd (leave_room (without_connections self) player_id now)
  = without_connections (snd (leave_room self player_id now)).
Proof.
  unfold leave_room, without_connections.
  cbn [rooms player_to_room socket_to_player].
  destruct (Dict.get (player_to_room self) player_id) as [room_id|];
    [|reflexivity].
  destruct (truthy room_id); cbn [negb]; [|reflexivity].
  destruct (Dict.get (rooms self) room_id) as [room|]; [|reflexivity].
  destruct (Room.remove_player room player_id now) as [is_empty room'].
  destruct is_empty; reflexivity.
Qed.

Lemma leave_all_without_connections now ps : forall self,
  fold_left (fun st p => snd (leave_room st (Player.id p) now)) ps
            (without_connections self)
  = without_connections
      (fold_left (fun st p => snd (leave_room st (Player.id p) now)) ps self).
Proof.
  induction ps as [|p ps IH]; intros self; cbn [fold_left]; [reflexivity|].
  rewrite leave_room_without_connections. apply IH.
Qed.

Lemma remove_room_without_connections self room_id now :
  remove_room (without_connections self) room_id now
  = without_connections (remove_room self room_id now).
Proof.
  unfold remove_room. change (rooms (without_connections self)) with (rooms self).
  destruct (Dict.get (rooms self) room_id) as [room|]; [|reflexivity].
  rewrite leave_all_without_connections.
  set (st := fold_left _ (Room.players room) self).
  change (rooms (without_connections st)) with (rooms st).
  destruct (Dict.contains (rooms st) room_id); reflexivity.
Qed.





Lemma registry_ok_registry_ash : registry_ok registry_ash.
Proof.
  constructor; unfold registry_ash;
    cbn [rooms player_to_room socket_to_player Dict.keys map fst].
  - repeat constructor. intros [].
  - repeat constructor. intros [].
  - constructor.
  - intros rid room. cbn [Dict.get].
    destruct ("ABC123" =? rid)%string; [|discriminate].
    intros [= <-]. cbn. repeat constructor. intros [].
  - intros pid rid. cbn [Dict.get].
    destruct ("p-ash" =? pid)%string eqn:E; [|discriminate].
    apply String.eqb_eq in E. intros [= <-]. split; [reflexivity|].
    exists room_ash, ash. cbn. auto.
  - intros rid room p. cbn [Dict.get].
    destruct ("ABC123" =? rid)%string eqn:E; [|discriminate].
    apply String.eqb_eq in E. intros [= <-]. cbn. intros [<-|[]]. cbn.
    now subst.
  - intros sid pid. cbn. discriminate.
Qed.



(** ** Rebinding a bound player *)

Lemma registry_ok_index_consistent self :
  registry_ok self -> index_consistent self.
Proof.
  intros Hok. split.
  - intros sid pid Hget. now destruct (ok_s2p _ Hok _ _ Hget).
  - intros pid rid Hget. now destruct (ok_p2r _ Hok _ _ Hget).
Qed.

(** C2. The indexes are consistent in the registry holding Ash, and still
    after Ash is bound to connection s1; binding Ash to connection s2 then
    leaves the entry of s1 in the connection index although the handle of
    Ash is now s2, so the indexes are no longer consistent; and after Ash
    leaves, the registry has no room, yet the connection index still maps
    s2 to Ash. *)
Theorem rebind_leaves_stale_connection_entry :
  let st1 := snd (connect_socket registry_ash "s1" "p-ash" 500) in
  let st2 := snd (connect_socket st1 "s2" "p-ash" 600) in
  let st3 := snd (leave_room st2 "p-ash" 700) in
  index_consistent registry_ash /\
  index_consistent st1 /\
  fst (connect_socket st1 "s2" "p-ash" 600) = true /\
  Dict.get (socket_to_player st2) "s1" = Some "p-ash"%string /\
  (forall rid room p,
     Dict.get (rooms st2) rid = Some room ->
     In p (Room.players room) ->
     Player.socket_id p = Some "s2"%string) /\
  ~ index_consistent st2 /\
  rooms st3 = [] /\
  Dict.get (socket_to_player st3) "s2" = Some "p-ash"%string /\
  ~ index_consistent st3.
Proof.
  assert (Hmem : forall rid room p,
    Dict.get
      (rooms (snd (connect_socket
                     (snd (connect_socket registry_ash "s1" "p-ash" 500))
                     "s2" "p-ash" 600))) rid = Some room ->
    In p (Room.players room) ->
    Player.socket_id p = Some "s2"%string).
  { intros rid room p. cbn [connect_socket]. vm_compute rooms.
    cbn [Dict.get].
    destruct (_ =? rid)%string; [|discriminate].
    intros [= <-]. cbn. intros [<-|[]]. reflexivity. }
  cbv zeta. split; [|split; [|split; [|split; [|split; [|split; [|split;
    [|split]]]]]]].
  - apply registry_ok_index_consistent, registry_ok_registry_ash.
  - split.
    + intros sid pid. vm_compute socket_to_player. cbn [Dict.get].
      destruct ("s1" =? sid)%string eqn:E; [|discriminate].
      apply String.eqb_eq in E. intros [= <-]. subst sid.
      exists "ABC123"%string,
        (Room.mk "ABC123" "p-ash"
           [Player.set_status (Player.set_socket_id ash (Some "s1"))
                              CONNECTED] 2 true false 100 500),
        (Player.set_status (Player.set_socket_id ash (Some "s1")) CONNECTED).
      split; [reflexivity|]. split; [now left|]. split; reflexivity.
    + intros pid rid. vm_compute player_to_room. cbn [Dict.get].
      destruct ("p-ash" =? pid)%string eqn:E; [|discriminate].
      apply String.eqb_eq in E. intros [= <-]. subst pid.
      exists
        (Room.mk "ABC123" "p-ash"
           [Player.set_status (Player.set_socket_id ash (Some "s1"))
                              CONNECTED] 2 true false 100 500),
        (Player.set_status (Player.set_socket_id ash (Some "s1")) CONNECTED).
      split; [reflexivity|]. split; [now left|reflexivity].
  - reflexivity.
  - reflexivity.
  - exact Hmem.
  - intros [Hs _].
    destruct (Hs "s1"%string "p-ash"%string eq_refl)
      as (rid & room & p & Hr & Hin & _ & Hsock).
    rewrite (Hmem _ _ _ Hr Hin) in Hsock. discriminate.
  - reflexivity.
  - reflexivity.
  - intros [Hs _].
    destruct (Hs "s2"%string "p-ash"%string eq_refl)
      as (rid & room & p & Hr & _). vm_compute in Hr. discriminate.
Qed.

(** ** The operations that keep the indexes consistent *)

Lemma update_first_ids f player_id ps :
  (forall p, Player.id (f p) = Player.id p) ->
  map Player.id (Room.update_first f player_id ps) = map Player.id ps.
Proof.
  intros Hid. induction ps as [|p ps IH]; cbn; [reflexivity|].
  destruct (Player.id p =? player_id)%string; cbn; [now rewrite Hid|].
  now rewrite IH.
Qed.

Lemma update_first_In_other f player_id ps q :
  In q ps -> Player.id q <> player_id ->
  In q (Room.update_first f player_id ps).
Proof.
  intros Hin Hne. induction ps as [|p ps IH]; cbn; [contradiction|].
  destruct (Player.id p =? player_id)%string eqn:E.
  - destruct Hin as [->|Hin]; [|now right].
    apply String.eqb_eq in E. contradiction.
  - destruct Hin as [->|Hin]; [now left|right; auto].
Qed.

Lemma update_first_In_inv f player_id ps q :
  In q (Room.update_first f player_id ps) ->
  In q ps \/ exists q0, In q0 ps /\ Player.id q0 = player_id /\ q = f q0.
Proof.
  induction ps as [|p ps IH]; cbn; [tauto|].
  destruct (Player.id p =? player_id)%string eqn:E.
  - apply String.eqb_eq in E. intros [<-|Hin]; [|auto].
    right. exists p. auto.
  - intros [->|Hin]; [auto|].
    destruct (IH Hin) as [H|(q0 & H1 & H2 & H3)]; [auto|].
    right. exists q0. auto.
Qed.

Lemma update_first_In_hit f player_id ps p0 :
  find (fun p => (Player.id p =? player_id)%string) ps = Some p0 ->
  In (f p0) (Room.update_first f player_id ps).
Proof.
  induction ps as [|p ps IH]; cbn; [discriminate|].
  destruct (Player.id p =? player_id)%string.
  - intros [= ->]. now left.
  - intros H. right. auto.
Qed.

(** Replacing a registered room by one with the same id and the same
    member ids keeps the registry consistent, provided the connection
    index that goes with it is. *)
Lemma registry_ok_replace_room self rid room room' s2p :
  registry_ok self ->
  room_keys_ok self ->
  Dict.get (rooms self) rid = Some room ->
  Room.id room' = Room.id room ->
  map Player.id (Room.players room') = map Player.id (Room.players room) ->
  NoDup (Dict.keys s2p) ->
  (forall sid pid,
     Dict.get s2p sid = Some pid ->
     truthy sid = true /\
     exists rid0 room0 p,
       Dict.get (Dict.setitem (rooms self) rid room') rid0 = Some room0 /\
       In p (Room.players room0) /\
       Player.id p = pid /\
       Player.socket_id p = Some sid) ->
  let st' := mkRoomManager (Dict.setitem (rooms self) rid room')
                           (player_to_room self) s2p in
  registry_ok st' /\ room_keys_ok st'.
Proof.
  intros Hok Hkeys Hr Hid Hids Hnd Hs2p. cbv zeta.
  assert (Hsame : forall x,
            In x (map Player.id (Room.players room')) <->
            In x (map Player.id (Room.players room)))
    by (intros x; now rewrite Hids).
  split.
  - constructor; cbn [rooms player_to_room socket_to_player].
    + apply Dict_NoDup_setitem, (ok_rooms_keys _ Hok).
    + apply (ok_p2r_keys _ Hok).
    + exact Hnd.
    + intros k r. rewrite Dict_get_setitem.
      destruct (rid =? k)%string.
      * intros [= <-]. rewrite Hids. exact (ok_member_ids _ Hok _ _ Hr).
      * apply (ok_member_ids _ Hok).
    + intros pid k Hget.
      destruct (ok_p2r _ Hok _ _ Hget) as (Ht & r0 & p0 & Hr0 & Hin0 & Hid0).
      split; [exact Ht|]. rewrite Dict_get_setitem.
      destruct (String.eqb_spec rid k) as [<-|_].
      * assert (r0 = room) by congruence. subst r0.
        assert (Hx : In pid (map Player.id (Room.players room')))
          by (apply Hsame, in_map_iff; eauto).
        apply in_map_iff in Hx. destruct Hx as (p' & Hp' & Hin').
        exists room', p'. auto.
      * exists r0, p0. auto.
    + intros k r p. rewrite Dict_get_setitem.
      destruct (String.eqb_spec rid k) as [<-|_].
      * intros [= <-] Hin.
        assert (Hx : In (Player.id p) (map Player.id (Room.players room)))
          by (apply Hsame, in_map; exact Hin).
        apply in_map_iff in Hx. destruct Hx as (p0 & Hp0 & Hin0).
        rewrite <- Hp0. exact (ok_member _ Hok _ _ _ Hr Hin0).
      * apply (ok_member _ Hok).
    + exact Hs2p.
  - intros k r. cbn [rooms]. rewrite Dict_get_setitem.
    destruct (String.eqb_spec rid k) as [<-|_].
    + intros [= <-]. destruct (Hkeys _ _ Hr) as [Ht Hi].
      split; [exact Ht|congruence].
    + apply Hkeys.
Qed.

Lemma update_first_In_same f player_id ps p0 :
  (forall p, Player.id (f p) = Player.id p) ->
  (forall p, Player.socket_id (f p) = Player.socket_id p) ->
  In p0 ps ->
  exists p', In p' (Room.update_first f player_id ps) /\
             Player.id p' = Player.id p0 /\
             Player.socket_id p' = Player.socket_id p0.
Proof.
  intros Hid Hsock. induction ps as [|p ps IH]; cbn; [contradiction|].
  destruct (Player.id p =? player_id)%string.
  - intros [->|Hin]; [exists (f p0)|exists p0]; cbn; auto.
  - intros [->|Hin]; [exists p0; cbn; auto|].
    destruct (IH Hin) as (p' & H1 & H2). exists p'. cbn. auto.
Qed.

Lemma player_by_socket_entry_Some self socket_id room_id room player :
  player_by_socket_entry self socket_id = Some (room_id, room, player) ->
  exists player_id,
    Dict.get (socket_to_player self) socket_id = Some player_id /\
    truthy player_id = true /\
    player_room_entry self player_id = Some (room_id, room) /\
    Room.get_player room player_id = Some player /\
    Player.id player = player_id.
Proof.
  unfold player_by_socket_entry.
  destruct (Dict.get (socket_to_player self) socket_id) as [pid|];
    [|discriminate].
  destruct (truthy pid) eqn:Ht; cbn [negb]; [|discriminate].
  destruct (player_room_entry self pid) as [[rid r]|] eqn:He; [|discriminate].
  destruct (Room.get_player r pid) as [p|] eqn:Hg; [|discriminate].
  intros [= <- <- <-]. exists pid. repeat split; auto.
  unfold Room.get_player in Hg. apply find_some in Hg.
  now apply String.eqb_eq.
Qed.

Lemma registry_ok_update_player_status self player_id status now :
  registry_ok self -> room_keys_ok self ->
  registry_ok (snd (update_player_status self player_id status now)) /\
  room_keys_ok (snd (update_player_status self player_id status now)).
Proof.
  intros Hok Hkeys. unfold update_player_status.
  destruct (player_room_entry self player_id) as [[rid room]|] eqn:He;
    [|auto].
  apply player_room_entry_Some in He. destruct He as (Hp & Ht & Hr).
  destruct (Room.get_player room player_id) as [p0|] eqn:Hg; [|auto].
  cbn [snd]. unfold set_rooms.
  apply (registry_ok_replace_room self rid room); auto.
  - unfold Room.update_player. room_fields. now apply update_first_ids.
  - apply (ok_s2p_keys _ Hok).
  - intros sid pid Hget.
    destruct (ok_s2p _ Hok _ _ Hget) as (Hts & r0 & room0 & q & Hr0 & Hq & Hid & Hs).
    split; [exact Hts|]. rewrite <- Hid, <- Hs.
    destruct (String.eqb_spec rid r0) as [<-|Hne].
    + assert (room0 = room) by congruence. subst room0.
      destruct (update_first_In_same
                  (fun p => Player.set_status p status) player_id
                  (Room.players room) q) as (p' & H1 & H2 & H3); auto.
      exists rid, (Room.set_last_activity
                     (Room.update_player room player_id
                        (fun p => Player.set_status p status)) now), p'.
      rewrite Dict_get_setitem_eq. repeat split; auto.
    + exists r0, room0, q. rewrite Dict_get_setitem_ne by exact Hne. auto.
Qed.

Lemma registry_ok_connect_socket self socket_id player_id now :
  registry_ok self -> room_keys_ok self ->
  truthy socket_id = true ->
  (forall sid, Dict.get (socket_to_player self) sid = Some player_id ->
               sid = socket_id) ->
  registry_ok (snd (connect_socket self socket_id player_id now)) /\
  room_keys_ok (snd (connect_socket self socket_id player_id now)).
Proof.
  intros Hok Hkeys Hts Hguard. unfold connect_socket.
  destruct (player_room_entry self player_id) as [[rid room]|] eqn:He;
    [|auto].
  apply player_room_entry_Some in He. destruct He as (Hp & Ht & Hr).
  destruct (Room.get_player room player_id) as [p0|] eqn:Hg; [|auto].
  cbn [snd].
  set (f := fun p => Player.set_status
                       (Player.set_socket_id p (Some socket_id)) CONNECTED).
  apply (registry_ok_replace_room self rid room); auto.
  - unfold Room.update_player. room_fields. now apply update_first_ids.
  - apply Dict_NoDup_setitem, (ok_s2p_keys _ Hok).
  - intros sid pid. rewrite Dict_get_setitem.
    destruct (String.eqb_spec socket_id sid) as [<-|Hne].
    + intros [= <-]. split; [exact Hts|].
      exists rid, (Room.set_last_activity
                     (Room.update_player room player_id f) now), (f p0).
      rewrite Dict_get_setitem_eq. repeat split.
      * unfold Room.update_player. room_fields.
        now apply update_first_In_hit.
      * cbn. unfold Room.get_player in Hg. apply find_some in Hg.
        now apply String.eqb_eq.
    + intros Hget.
      destruct (ok_s2p _ Hok _ _ Hget)
        as (Hts' & r0 & room0 & q & Hr0 & Hq & Hid & Hs).
      split; [exact Hts'|].
      assert (Hpid : Player.id q <> player_id).
      { rewrite Hid. intros ->. apply Hne. symmetry. now apply Hguard. }
      destruct (String.eqb_spec rid r0) as [<-|Hner].
      * assert (room0 = room) by congruence. subst room0.
        exists rid, (Room.set_last_activity
                       (Room.update_player room player_id f) now), q.
        rewrite Dict_get_setitem_eq. repeat split; auto.
        unfold Room.update_player. room_fields.
        now apply update_first_In_other.
      * exists r0, room0, q. rewrite Dict_get_setitem_ne by exact Hner. auto.
Qed.

Lemma registry_ok_disconnect_socket self socket_id :
  registry_ok self -> room_keys_ok self ->
  registry_ok (snd (disconnect_socket self socket_id)) /\
  room_keys_ok (snd (disconnect_socket self socket_id)).
Proof.
  intros Hok Hkeys. unfold disconnect_socket.
  destruct (player_by_socket_entry self socket_id) as [[[rid room] player]|]
    eqn:He; [|auto].
  apply player_by_socket_entry_Some in He.
  destruct He as (player_id & Hsock & Htp & Hentry & Hg & Hidp).
  apply player_room_entry_Some in Hentry. destruct Hentry as (Hp & Ht & Hr).
  cbn [snd]. rewrite Hidp.
  set (f := fun p => Player.set_status (Player.set_socket_id p None)
                                       DISCONNECTED).
  apply (registry_ok_replace_room self rid room); auto.
  - unfold Room.update_player. room_fields. now apply update_first_ids.
  - apply Dict_NoDup_delitem, (ok_s2p_keys _ Hok).
  - intros sid pid. rewrite Dict_get_delitem.
    destruct (String.eqb_spec socket_id sid) as [<-|Hne]; [discriminate|].
    intros Hget.
    destruct (ok_s2p _ Hok _ _ Hget)
      as (Hts' & r0 & room0 & q & Hr0 & Hq & Hid & Hs).
    split; [exact Hts'|].
    assert (Hpid : Player.id q <> player_id).
    { intros Heq.
      destruct (ok_s2p _ Hok _ _ Hsock)
        as (_ & r1 & room1 & q1 & Hr1 & Hq1 & Hid1 & Hs1).
      pose proof (ok_member _ Hok _ _ _ Hr0 Hq) as Hm0.
      pose proof (ok_member _ Hok _ _ _ Hr1 Hq1) as Hm1.
      rewrite Heq in Hm0. rewrite Hid1 in Hm1.
      assert (r1 = r0) by congruence. subst r1.
      assert (room1 = room0) by congruence. subst room1.
      assert (q1 = q).
      { apply (NoDup_id_inj (Room.players room0)); auto.
        - exact (ok_member_ids _ Hok _ _ Hr0).
        - congruence. }
      subst q1. congruence. }
    destruct (String.eqb_spec rid r0) as [<-|Hner].
    + assert (room0 = room) by congruence. subst room0.
      exists rid, (Room.update_player room player_id f), q.
      rewrite Dict_get_setitem_eq. repeat split; auto.
      unfold Room.update_player. room_fields.
      now apply update_first_In_other.
    + exists r0, room0, q. rewrite Dict_get_setitem_ne by exact Hner. auto.
Qed.

Lemma registry_ok_join_room self room_id name rom d :
  registry_ok self -> room_keys_ok self ->
  Dict.get (player_to_room self) (uuid4 d) = None ->
  registry_ok (snd (join_room self room_id name rom d)) /\
  room_keys_ok (snd (join_room self room_id name rom d)).
Proof.
  intros Hok Hkeys Hfresh. unfold join_room.
  destruct (Dict.get (rooms self) (upper room_id)) as [room|] eqn:Hr; [|auto].
  destruct (Room.is_active room); cbn [negb]; [|auto].
  destruct (Room.len_players room >=? Room.max_players room); [auto|].
  match goal with
  | |- context [Room.add_player room ?p ?t] =>
      destruct (Room.add_player room p t) as [[ok room'] player] eqn:Hadd;
      assert (Hpid : Player.id p = uuid4 d)
        by (destruct (truthy_opt rom); reflexivity)
  end.
  destruct ok; [|auto]. cbn [snd].
  apply add_player_true in Hadd.
  destruct Hadd as (Hplayer & Hps & _ & _ & Hrid & _).
  assert (Hid : Player.id player = uuid4 d).
  { rewrite Hplayer. destruct (Room.players room); [cbn|]; exact Hpid. }
  destruct (Hkeys _ _ Hr) as [Htkey Hidkey].
  set (key := upper room_id) in *.
  assert (Hnew : forall k r p, Dict.get (rooms self) k = Some r ->
                               In p (Room.players r) ->
                               Player.id p <> uuid4 d).
  { intros k r p Hk Hp Heq. pose proof (ok_member _ Hok _ _ _ Hk Hp) as Hm.
    rewrite Heq in Hm. congruence. }
  split.
  - constructor; cbn [rooms player_to_room socket_to_player].
    + apply Dict_NoDup_setitem, (ok_rooms_keys _ Hok).
    + apply Dict_NoDup_setitem, (ok_p2r_keys _ Hok).
    + apply (ok_s2p_keys _ Hok).
    + intros k r. rewrite Dict_get_setitem.
      destruct (key =? k)%string; [|apply (ok_member_ids _ Hok)].
      intros [= <-]. rewrite Hps, map_app. cbn [map].
      apply NoDup_app; [exact (ok_member_ids _ Hok _ _ Hr)| |].
      * repeat constructor. intros [].
      * intros x Hx [<-|[]]. apply in_map_iff in Hx.
        destruct Hx as (p & Hp & Hin). apply (Hnew _ _ _ Hr Hin). congruence.
    + intros pid k. rewrite Dict_get_setitem, Hid, Hrid, Hidkey.
      destruct (String.eqb_spec (uuid4 d) pid) as [<-|Hne].
      * intros [= <-]. split; [exact Htkey|].
        exists room', player. rewrite Dict_get_setitem_eq.
        repeat split; auto. rewrite Hps. apply in_or_app. right. now left.
      * intros Hget.
        destruct (ok_p2r _ Hok _ _ Hget) as (Ht & r0 & p0 & Hr0 & Hin0 & Hid0).
        split; [exact Ht|]. rewrite Dict_get_setitem.
        destruct (String.eqb_spec key k) as [<-|_].
        -- assert (r0 = room) by congruence. subst r0.
           exists room', p0. repeat split; auto.
           rewrite Hps. apply in_or_app. now left.
        -- exists r0, p0. auto.
    + intros k r p. rewrite !Dict_get_setitem, Hid, Hrid, Hidkey.
      destruct (String.eqb_spec key k) as [<-|Hne].
      * intros [= <-]. rewrite Hps. intros Hin. apply in_app_or in Hin.
        destruct Hin as [Hin|[<-|[]]].
        -- replace (uuid4 d =? Player.id p)%string with false.
           ++ exact (ok_member _ Hok _ _ _ Hr Hin).
           ++ symmetry. apply String.eqb_neq. intros Heq.
              apply (Hnew _ _ _ Hr Hin). congruence.
        -- now rewrite Hid, String.eqb_refl.
      * intros Hk Hin.
        replace (uuid4 d =? Player.id p)%string with false.
        -- exact (ok_member _ Hok _ _ _ Hk Hin).
        -- symmetry. apply String.eqb_neq. intros Heq.
           apply (Hnew _ _ _ Hk Hin). congruence.
    + intros sid pid Hget.
      destruct (ok_s2p _ Hok _ _ Hget)
        as (Ht & r0 & room0 & q & Hr0 & Hq & Hidq & Hs).
      split; [exact Ht|].
      destruct (String.eqb_spec key r0) as [<-|Hne].
      * assert (room0 = room) by congruence. subst room0.
        exists key, room', q. rewrite Dict_get_setitem_eq.
        repeat split; auto. rewrite Hps. apply in_or_app. now left.
      * exists r0, room0, q. rewrite Dict_get_setitem_ne by exact Hne. auto.
  - intros k r. cbn [rooms]. rewrite Dict_get_setitem.
    destruct (String.eqb_spec key k) as [<-|_]; [|apply Hkeys].
    intros [= <-]. split; [exact Htkey|congruence].
Qed.

Lemma room_keys_ok_leave_room self player_id now :
  room_keys_ok self -> room_keys_ok (snd (leave_room self player_id now)).
Proof.
  intros Hkeys.
  destruct (leave_room_cases self player_id now)
    as [->|(room_id & room & Hp & Ht & Hr)]; [exact Hkeys|].
  destruct (leave_room_state self player_id now room_id room Hp Ht Hr)
    as (Hrooms & _).
  intros k r. rewrite Hrooms.
  destruct (String.eqb_spec room_id k) as [<-|_]; [|apply Hkeys].
  destruct (fst (Room.remove_player room player_id now)); [discriminate|].
  intros Heq.
  assert (Er : r = snd (Room.remove_player room player_id now))
    by congruence.
  subst r. clear Heq. destruct (Hkeys _ _ Hr) as [Htk Hid].
  split; [exact Htk|]. transitivity (Room.id room); [|exact Hid].
  rewrite remove_player_eq. cbv zeta.
  destruct (others player_id (Room.players room)); [reflexivity|].
  destruct (Room.host_id room =? player_id)%string; reflexivity.
Qed.

(** Every operation other than a rebind keeps the registry consistent. *)
Lemma registry_ok_step self op :
  registry_ok self -> room_keys_ok self -> no_rebind self op ->
  registry_ok (step self op) /\ room_keys_ok (step self op).
Proof.
  intros Hok Hkeys Hop. destruct op; cbn [step no_rebind] in *.
  - auto.
  - now apply registry_ok_join_room.
  - split; [now apply registry_ok_leave_room|now apply room_keys_ok_leave_room].
  - destruct Hop. now apply registry_ok_connect_socket.
  - now apply registry_ok_disconnect_socket.
  - now apply registry_ok_update_player_status.
  - destruct (remove_room_spec self room_id now Hok) as (Hok' & Hrooms & _).
    split; [exact Hok'|].
    intros k r. rewrite Hrooms.
    destruct (room_id =? k)%string; [discriminate|apply Hkeys].
Qed.

(** So does every run of such operations, and the indexes stay consistent
    along it. *)
Lemma index_consistent_run ops : forall self,
  registry_ok self -> room_keys_ok self -> run_no_rebind self ops ->
  registry_ok (run self ops) /\ index_consistent (run self ops).
Proof.
  induction ops as [|op ops IH]; intros self Hok Hkeys Hrun.
  - split; [exact Hok|now apply registry_ok_index_consistent].
  - destruct Hrun as [Hop Hrun].
    destruct (registry_ok_step self op Hok Hkeys Hop) as [Hok' Hkeys'].
    exact (IH _ Hok' Hkeys' Hrun).
Qed.

(** *** The rooms and the player index stay consistent under every run *)

Lemma join_room_without_connections self room_id name rom d :
  snd (join_room (without_connections self) room_id name rom d)
  = without_connections (snd (join_room self room_id name rom d)).
Proof.
  unfold join_room, without_connections.
  cbn [rooms player_to_room socket_to_player].
  destruct (Dict.get (rooms self) (upper room_id)) as [room|]; [|reflexivity].
  destruct (negb (Room.is_active room)); [reflexivity|].
  destruct (Room.len_players room >=? Room.max_players room); [reflexivity|].
  match goal with
  | |- context [Room.add_player room ?p ?t] =>
      destruct (Room.add_player room p t) as [[ok room'] player]
  end.
  destruct ok; reflexivity.
Qed.

Lemma update_player_status_without_connections self player_id status now :
  snd (update_player_status (without_connections self) player_id status now)
  = without_connections (snd (update_player_status self player_id status now)).
Proof.
  unfold update_player_status, player_room_entry, without_connections.
  cbn [rooms player_to_room socket_to_player].
  destruct (Dict.get (player_to_room self) player_id) as [rid|]; [|reflexivity].
  destruct (truthy rid); [|reflexivity].
  destruct (Dict.get (rooms self) rid) as [room|]; [|reflexivity].
  cbn [option_map].
  destruct (Room.get_player room player_id); reflexivity.
Qed.

(** Rewriting one member of a registered room, whatever becomes of the
    connection index. *)
Lemma membership_ok_update_member self rid room player_id f now s2p :
  membership_ok self -> room_keys_ok self ->
  Dict.get (rooms self) rid = Some room ->
  (forall p, Player.id (f p) = Player.id p) ->
  let room' :=
    Room.set_last_activity (Room.update_player room player_id f) now in
  let st' := mkRoomManager (Dict.setitem (rooms self) rid room')
                           (player_to_room self) s2p in
  membership_ok st' /\ room_keys_ok st'.
Proof.
  intros Hm Hkeys Hr Hf. cbv zeta.
  destruct (registry_ok_replace_room (without_connections self) rid room
              (Room.set_last_activity (Room.update_player room player_id f) now)
              [] Hm Hkeys Hr) as [Hok' Hkeys'].
  - reflexivity.
  - unfold Room.update_player. room_fields. now apply update_first_ids.
  - constructor.
  - intros sid pid. cbn. discriminate.
  - split; [exact Hok'|exact Hkeys'].
Qed.

Lemma membership_ok_connect_socket self socket_id player_id now :
  membership_ok self -> room_keys_ok self ->
  membership_ok (snd (connect_socket self socket_id player_id now)) /\
  room_keys_ok (snd (connect_socket self socket_id player_id now)).
Proof.
  intros Hm Hkeys. unfold connect_socket.
  destruct (player_room_entry self player_id) as [[rid room]|] eqn:He;
    [|auto].
  apply player_room_entry_Some in He. destruct He as (Hp & Ht & Hr).
  destruct (Room.get_player room player_id) as [p0|]; [|auto].
  cbn [snd]. now apply membership_ok_update_member.
Qed.

Lemma membership_ok_disconnect_socket self socket_id :
  membership_ok self -> room_keys_ok self ->
  membership_ok (snd (disconnect_socket self socket_id)) /\
  room_keys_ok (snd (disconnect_socket self socket_id)).
Proof.
  intros Hm Hkeys. unfold disconnect_socket.
  destruct (player_by_socket_entry self socket_id) as [[[rid room] player]|]
    eqn:He; [|auto].
  apply player_by_socket_entry_Some in He.
  destruct He as (player_id & Hsock & Htp & Hentry & Hg & Hidp).
  apply player_room_entry_Some in Hentry. destruct Hentry as (Hp & Ht & Hr).
  cbn [snd].
  destruct (membership_ok_update_member self rid room (Player.id player)
              (fun p => Player.set_status (Player.set_socket_id p None)
                                          DISCONNECTED)
              (Room.last_activity room)
              (Dict.delitem (socket_to_player self) socket_id)
              Hm Hkeys Hr) as [Hm' Hkeys']; [reflexivity|].
  split.
  - destruct Hm' as [H1 H2 H3 H4 H5 H6 H7].
    constructor; auto.
  - exact Hkeys'.
Qed.

(** Every operation whose join draws an unused id, a rebind included,
    keeps the rooms and the player index consistent. *)
Lemma membership_ok_step self op :
  membership_ok self -> room_keys_ok self -> fresh_id self op ->
  membership_ok (step self op) /\ room_keys_ok (step self op).
Proof.
  intros Hm Hkeys Hop. destruct op; cbn [step fresh_id] in *.
  - auto.
  - destruct (registry_ok_join_room (without_connections self)
                room_id player_name rom_name d Hm Hkeys Hop) as [H1 H2].
    rewrite join_room_without_connections in H1, H2. split; assumption.
  - split; [|now apply room_keys_ok_leave_room].
    unfold membership_ok. rewrite <- leave_room_without_connections.
    now apply registry_ok_leave_room.
  - now apply membership_ok_connect_socket.
  - now apply membership_ok_disconnect_socket.
  - destruct (registry_ok_update_player_status (without_connections self)
                player_id status now Hm Hkeys) as [H1 H2].
    rewrite update_player_status_without_connections in H1, H2.
    split; assumption.
  - destruct (remove_room_spec (without_connections self) room_id now Hm)
      as (Hok' & Hrooms & _).
    rewrite remove_room_without_connections in Hok', Hrooms.
    split; [exact Hok'|].
    intros k r. change (rooms (remove_room self room_id now))
      with (rooms (without_connections (remove_room self room_id now))).
    rewrite Hrooms.
    destruct (room_id =? k)%string; [discriminate|apply Hkeys].
Qed.

Lemma membership_ok_run ops : forall self,
  membership_ok self -> room_keys_ok self -> run_fresh_ids self ops ->
  membership_ok (run self ops) /\ room_keys_ok (run self ops).
Proof.
  induction ops as [|op ops IH]; intros self Hm Hkeys Hrun.
  - split; assumption.
  - destruct Hrun as [Hop Hrun].
    destruct (membership_ok_step self op Hm Hkeys Hop) as [Hm' Hkeys'].
    exact (IH _ Hm' Hkeys' Hrun).
Qed.

(** * Further properties of the registry *)

(** ** Listing the rooms that can be joined *)

Lemma insert_newest_first_perm r l :
  Permutation (insert_newest_first r l) (r :: l).
Proof.
  induction l as [|r' l IH]; cbn; [reflexivity|].
  destruct (Room.created_at r' <=? Room.created_at r); [reflexivity|].
  rewrite IH. apply perm_swap.
Qed.

Lemma sort_newest_first_perm l : Permutation (sort_newest_first l) l.
Proof.
  induction l as [|r l IH]; cbn; [reflexivity|].
  rewrite insert_newest_first_perm. now constructor.
Qed.

Lemma insert_newest_first_sorted r l :
  newest_first l -> newest_first (insert_newest_first r l).
Proof.
  unfold newest_first. induction l as [|r' l IH]; cbn; intros Hs.
  - repeat constructor.
  - inversion Hs as [|? ? Hs' Hall]; subst.
    destruct (Room.created_at r' <=? Room.created_at r) eqn:E.
    + apply Z.leb_le in E. constructor; [exact Hs|].
      constructor; [exact E|].
      eapply Forall_impl; [|exact Hall]. cbn. intros; lia.
    + apply Z.leb_gt in E. constructor; [now apply IH|].
      assert (Hperm := insert_newest_first_perm r l).
      apply Forall_forall. intros x Hx.
      apply (Permutation_in _ Hperm) in Hx. destruct Hx as [<-|Hx]; [lia|].
      rewrite Forall_forall in Hall. now apply Hall.
Qed.

Lemma sort_newest_first_sorted l : newest_first (sort_newest_first l).
Proof.
  induction l as [|r l IH]; cbn; [constructor|].
  now apply insert_newest_first_sorted.
Qed.

Lemma newest_first_firstn n l : newest_first l -> newest_first (firstn n l).
Proof.
  unfold newest_first. revert l.
  induction n as [|n IH]; intros [|r l] Hs; cbn; try constructor.
  - inversion Hs; subst. now apply IH.
  - inversion Hs as [|? ? _ Hall]; subst.
    apply Forall_forall. intros x Hx.
    rewrite Forall_forall in Hall. apply Hall.
    rewrite <- (firstn_skipn n l). apply in_or_app. now left.
Qed.

Lemma slice_to_incl {A : Type} (l : list A) stop x :
  In x (slice_to l stop) -> In x l.
Proof.
  unfold slice_to. destruct (0 <=? stop); intros Hin;
    match type of Hin with
    | In _ (firstn ?n _) =>
        rewrite <- (firstn_skipn n l); apply in_or_app; now left
    end.
Qed.

(** X1. Every room [get_available_rooms] lists is registered, active and
    below its capacity; and when the limit is at least the number of such
    rooms, it lists all of them, each as often as it is registered. *)
Theorem get_available_rooms_joinable :
  forall self limit,
    (forall room,
       In room (get_available_rooms self limit) ->
       (exists key, In (key, room) (rooms self)) /\
       Room.is_active room = true /\
       Z.of_nat (length (Room.players room)) < Room.max_players room) /\
    (Z.of_nat (length (filter joinable (Dict.values (rooms self)))) <= limit ->
     Permutation (get_available_rooms self limit)
                 (filter joinable (Dict.values (rooms self)))).
Proof.
  intros self limit. unfold get_available_rooms. cbv zeta. split.
  - intros room Hin. apply slice_to_incl in Hin.
    apply (Permutation_in _ (sort_newest_first_perm _)) in Hin.
    apply filter_In in Hin. destruct Hin as [Hin Hj].
    unfold Dict.values in Hin. apply in_map_iff in Hin.
    destruct Hin as ([key r] & Hr & Hin). cbn in Hr. subst r.
    unfold joinable in Hj. apply andb_true_iff in Hj.
    destruct Hj as [Ha Hl]. apply Z.ltb_lt in Hl.
    split; [eauto|]. split; [exact Ha|exact Hl].
  - intros Hlimit. unfold slice_to.
    replace (0 <=? limit) with true by (symmetry; apply Z.leb_le; lia).
    rewrite firstn_all2; [apply sort_newest_first_perm|].
    rewrite (Permutation_length (sort_newest_first_perm _)). lia.
Qed.

(** The theorem at a registry with one open and one full room, limit 10. *)
Lemma get_available_rooms_joinable_witness :
  (forall room,
     In room (get_available_rooms registry_two_rooms 10) ->
     (exists key, In (key, room) (rooms registry_two_rooms)) /\
     Room.is_active room = true /\
     Z.of_nat (length (Room.players room)) < Room.max_players room) /\
  (Z.of_nat
     (length (filter joinable (Dict.values (rooms registry_two_rooms))))
   <= 10 ->
   Permutation (get_available_rooms registry_two_rooms 10)
               (filter joinable (Dict.values (rooms registry_two_rooms)))).
Proof.
  apply (get_available_rooms_joinable registry_two_rooms 10).
Defined.

(** X2. [get_available_rooms] lists the rooms newest first: no room in the
    list was created before a room that follows it. *)
Theorem get_available_rooms_newest_first :
  forall self limit, newest_first (get_available_rooms self limit).
Proof.
  intros self limit. unfold get_available_rooms, slice_to. cbv zeta.
  destruct (0 <=? limit); apply newest_first_firstn, sort_newest_first_sorted.
Qed.

(** In a list that is newest first, whatever follows the first [n] rooms
    was created no later than any of them. *)
Lemma newest_first_split n l :
  newest_first l ->
  Forall (fun o => Forall (fun r => Room.created_at o <= Room.created_at r)
                          (firstn n l))
         (skipn n l).
Proof.
  unfold newest_first. revert n.
  induction l as [|a l IH]; intros n Hs.
  - rewrite skipn_nil. constructor.
  - inversion Hs as [|? ? Hs' Hall]; subst.
    destruct n as [|n]; cbn [firstn skipn].
    + apply Forall_forall. intros o _. constructor.
    + specialize (IH n Hs'). rewrite Forall_forall in IH |- *.
      intros o Ho. constructor; [|now apply IH].
      rewrite Forall_forall in Hall. apply Hall.
      rewrite <- (firstn_skipn n l). apply in_or_app. now right.
Qed.

(** X3. With [n] rooms that can be joined, [get_available_rooms] returns
    [min limit n] rooms for a limit that is not negative, none for limit 0;
    a negative limit does not give the empty list but drops that many of
    the oldest rooms, leaving [n - |limit|] (none when that is negative).
    In both cases the rooms left out were created no later than any room
    returned. *)
Theorem get_available_rooms_length :
  forall self limit,
    let n := length (filter joinable (Dict.values (rooms self))) in
    length (get_available_rooms self limit)
    = (if 0 <=? limit then Nat.min (Z.to_nat limit) n
       else (n - Z.to_nat (- limit))%nat) /\
    exists left_out,
      Permutation (get_available_rooms self limit ++ left_out)
                  (filter joinable (Dict.values (rooms self))) /\
      Forall (fun o =>
                Forall (fun r => Room.created_at o <= Room.created_at r)
                       (get_available_rooms self limit))
             left_out.
Proof.
  intros self limit n. unfold get_available_rooms, slice_to. cbv zeta.
  set (l := sort_newest_first (filter joinable (Dict.values (rooms self)))).
  assert (Hn : length l = n)
    by apply (Permutation_length (sort_newest_first_perm _)).
  assert (Hsplit : forall k,
    exists left_out,
      Permutation (firstn k l ++ left_out)
                  (filter joinable (Dict.values (rooms self))) /\
      Forall (fun o =>
                Forall (fun r => Room.created_at o <= Room.created_at r)
                       (firstn k l))
             left_out).
  { intros k. exists (skipn k l). split.
    - rewrite firstn_skipn. apply sort_newest_first_perm.
    - apply newest_first_split. apply sort_newest_first_sorted. }
  destruct (0 <=? limit); (split; [rewrite length_firstn, Hn; lia|]);
    apply Hsplit.
Qed.

(** ** Status updates and failed operations *)

(** X4. For a player the index resolves to a room that holds it,
    [update_player_status] returns [True]; afterwards the player is found
    in that room with the new status and otherwise as before, the room's
    last activity is the time of the call, the members' ids and both
    indexes are as before, and every other member is untouched. *)
Theorem update_player_status_sets_status :
  forall self player_id status now room_id room player,
    player_room_entry self player_id = Some (room_id, room) ->
    Room.get_player room player_id = Some player ->
    let st' := snd (update_player_status self player_id status now) in
    fst (update_player_status self player_id status now) = true /\
    exists room',
      player_room_entry st' player_id = Some (room_id, room') /\
      Room.get_player room' player_id
      = Some (Player.set_status player status) /\
      Room.last_activity room' = now /\
      map Player.id (Room.players room') = map Player.id (Room.players room) /\
      (forall q, In q (Room.players room) -> Player.id q <> player_id ->
                 In q (Room.players room')) /\
      player_to_room st' = player_to_room self /\
      socket_to_player st' = socket_to_player self.
Proof.
  intros self player_id status now room_id room player He Hg.
  cbv zeta. unfold update_player_status. rewrite He, Hg. cbn [fst snd].
  split; [reflexivity|].
  apply player_room_entry_Some in He. destruct He as (Hp & Ht & Hr).
  eexists. split.
  { apply player_room_entry_Some. cbn [set_rooms player_to_room rooms].
    rewrite Dict_get_setitem_eq. repeat split; auto. }
  unfold Room.get_player, Room.update_player. room_fields.
  split.
  { rewrite find_update_first by reflexivity.
    fold (Room.get_player room player_id). now rewrite Hg. }
  split; [reflexivity|].
  split; [now apply update_first_ids|].
  split; [|split; reflexivity].
  intros q Hq Hne. now apply update_first_In_other.
Qed.

(** The theorem at Misty, in the room of Ash, set to PLAYING. *)
Lemma update_player_status_sets_status_witness :
  let st' := snd (update_player_status registry_ash_misty "p-misty"
                                       PLAYING 900) in
  fst (update_player_status registry_ash_misty "p-misty" PLAYING 900)
  = true /\
  exists room',
    player_room_entry st' "p-misty" = Some ("ABC123"%string, room') /\
    Room.get_player room' "p-misty"
    = Some (Player.set_status misty PLAYING) /\
    Room.last_activity room' = 900 /\
    map Player.id (Room.players room')
    = map Player.id (Room.players room_ash_misty) /\
    (forall q, In q (Room.players room_ash_misty) ->
               Player.id q <> "p-misty"%string ->
               In q (Room.players room')) /\
    player_to_room st' = player_to_room registry_ash_misty /\
    socket_to_player st' = socket_to_player registry_ash_misty.
Proof.
  apply (update_player_status_sets_status registry_ash_misty "p-misty"
           PLAYING 900 "ABC123" room_ash_misty misty); reflexivity.
Defined.

(** X5. An operation that reports failure has not touched the registry:
    [update_player_status] and [connect_socket] returning [False],
    [disconnect_socket] returning [None], and [join_room] returning no
    room, each leave it exactly as it was. *)
Theorem failed_operation_changes_nothing :
  forall self,
    (forall player_id status now,
       fst (update_player_status self player_id status now) = false ->
       snd (update_player_status self player_id status now) = self) /\
    (forall socket_id player_id now,
       fst (connect_socket self socket_id player_id now) = false ->
       snd (connect_socket self socket_id player_id now) = self) /\
    (forall socket_id,
       fst (disconnect_socket self socket_id) = None ->
       snd (disconnect_socket self socket_id) = self) /\
    (forall room_id name rom d,
       fst (fst (fst (join_room self room_id name rom d))) = None ->
       snd (join_room self room_id name rom d) = self).
Proof.
  intros self. split; [|split; [|split]].
  - intros player_id status now. unfold update_player_status.
    destruct (player_room_entry self player_id) as [[rid room]|];
      [|reflexivity].
    destruct (Room.get_player room player_id); [discriminate|reflexivity].
  - intros socket_id player_id now. apply connect_socket_false.
  - intros socket_id. unfold disconnect_socket.
    destruct (player_by_socket_entry self socket_id) as [[[rid room] p]|];
      [discriminate|reflexivity].
  - intros room_id name rom d. unfold join_room.
    destruct (Dict.get (rooms self) (upper room_id)) as [room|];
      [|reflexivity].
    destruct (negb (Room.is_active room)); [reflexivity|].
    destruct (Room.len_players room >=? Room.max_players room);
      [reflexivity|].
    match goal with
    | |- context [Room.add_player room ?p ?t] =>
        destruct (Room.add_player room p t) as [[ok room'] player]
    end.
    destruct ok; [discriminate|reflexivity].
Qed.

(** The theorem at a registry in which nothing resolves. *)
Lemma failed_operation_changes_nothing_witness :
  snd (update_player_status RoomManager_init "p-ash" READY 1)
  = RoomManager_init /\
  snd (connect_socket RoomManager_init "s1" "p-ash" 1) = RoomManager_init /\
  snd (disconnect_socket RoomManager_init "s1") = RoomManager_init /\
  snd (join_room RoomManager_init "ABC123" "Misty" None draw_misty)
  = RoomManager_init.
Proof.
  destruct (failed_operation_changes_nothing RoomManager_init)
    as (H1 & H2 & H3 & H4).
  split; [|split; [|split]].
  - apply H1. reflexivity.
  - apply H2. reflexivity.
  - apply H3. reflexivity.
  - apply H4. reflexivity.
Defined.

(** ** Leaving and unbinding twice *)

(** X6. After [leave_room], whatever it returned, [get_player_room] no
    longer resolves the player, and a second [leave_room] for the same
    player returns [None] and changes nothing. *)
Theorem leave_room_twice :
  forall self player_id now now',
    let st1 := snd (leave_room self player_id now) in
    get_player_room st1 player_id = None /\
    leave_room st1 player_id now' = (None, st1).
Proof.
  intros self player_id now now'. cbv zeta.
  assert (Hnoop : forall t,
    Dict.get (player_to_room self) player_id = None \/
    (exists room_id,
       Dict.get (player_to_room self) player_id = Some room_id /\
       (truthy room_id = false \/ Dict.get (rooms self) room_id = None)) ->
    get_player_room (snd (leave_room self player_id t)) player_id = None /\
    leave_room (snd (leave_room self player_id t)) player_id now'
    = (None, snd (leave_room self player_id t))).
  { intros t H. rewrite (leave_room_noop self player_id t H). cbn [snd].
    split; [|now apply leave_room_noop].
    unfold get_player_room, player_room_entry.
    destruct H as [->|(rid & -> & [->| ->])]; try reflexivity.
    destruct (truthy rid); reflexivity. }
  destruct (Dict.get (player_to_room self) player_id) as [room_id|] eqn:Hp;
    [|apply Hnoop; auto].
  destruct (truthy room_id) eqn:Ht; [|apply Hnoop; right; eauto].
  destruct (Dict.get (rooms self) room_id) as [room|] eqn:Hr;
    [|apply Hnoop; right; eauto].
  destruct (leave_room_state self player_id now room_id room Hp Ht Hr)
    as (_ & Hp2r & _).
  assert (Hgone : Dict.get (player_to_room
                              (snd (leave_room self player_id now)))
                           player_id = None).
  { rewrite Hp2r. apply Dict_get_delitem_eq. }
  split.
  - unfold get_player_room, player_room_entry. now rewrite Hgone.
  - apply leave_room_noop. now left.
Qed.

(** X7. After [disconnect_socket], whatever it returned, the connection
    index has no entry for the connection, [get_player_by_socket] finds
    nothing for it, and a second [disconnect_socket] returns [None] and
    changes nothing. *)
Theorem disconnect_socket_twice :
  forall self socket_id,
    let st1 := snd (disconnect_socket self socket_id) in
    (fst (disconnect_socket self socket_id) <> None ->
     Dict.get (socket_to_player st1) socket_id = None) /\
    get_player_by_socket st1 socket_id = None /\
    disconnect_socket st1 socket_id = (None, st1).
Proof.
  intros self socket_id. cbv zeta.
  unfold get_player_by_socket.
  destruct (player_by_socket_entry self socket_id) as [[[rid room] p]|] eqn:He.
  - assert (Hgone :
      player_by_socket_entry (snd (disconnect_socket self socket_id)) socket_id
      = None).
    { unfold disconnect_socket. rewrite He. cbn [snd].
      unfold player_by_socket_entry at 1. cbn [socket_to_player].
      now rewrite Dict_get_delitem_eq. }
    split; [|split].
    + intros _. unfold disconnect_socket. rewrite He.
      cbn [snd socket_to_player]. apply Dict_get_delitem_eq.
    + now rewrite Hgone.
    + unfold disconnect_socket at 1. now rewrite Hgone.
  - assert (Hsame : disconnect_socket self socket_id = (None, self))
      by (unfold disconnect_socket; now rewrite He).
    rewrite Hsame. cbn [fst snd]. split; [congruence|].
    split; [now rewrite He|exact Hsame].
Qed.

(** ** Binding and looking up *)

(** X8. After [connect_socket] has bound a connection to a registered
    player, [get_player_by_socket] resolves the connection to that player
    in its room, with status CONNECTED and the connection as its handle,
    otherwise as it was. *)
Theorem connect_socket_then_lookup :
  forall self socket_id player_id now room player,
    truthy player_id = true ->
    get_player_room self player_id = Some room ->
    Room.get_player room player_id = Some player ->
    let st1 := snd (connect_socket self socket_id player_id now) in
    let player' :=
      Player.set_status (Player.set_socket_id player (Some socket_id))
                        CONNECTED in
    Dict.get (socket_to_player st1) socket_id = Some player_id /\
    exists room',
      get_player_by_socket st1 socket_id = Some (room', player') /\
      get_player_room st1 player_id = Some room' /\
      Room.last_activity room' = now /\
      map Player.id (Room.players room') = map Player.id (Room.players room).
Proof.
  intros self socket_id player_id now room player Hpid Hroom Hplayer.
  apply get_player_room_Some in Hroom. destruct Hroom as [room_id Hentry].
  pose proof Hentry as Hidx.
  apply player_room_entry_Some in Hidx. destruct Hidx as (Hp2r & Hrid & Hr).
  cbv zeta. unfold connect_socket. rewrite Hentry, Hplayer. cbn [snd].
  set (bind1 := fun p => Player.set_status
                           (Player.set_socket_id p (Some socket_id)) CONNECTED).
  set (room1 := Room.set_last_activity
                  (Room.update_player room player_id bind1) now).
  assert (Hg1 : Room.get_player room1 player_id = Some (bind1 player)).
  { unfold room1, Room.get_player, Room.update_player. room_fields.
    rewrite find_update_first by reflexivity.
    fold (Room.get_player room player_id). now rewrite Hplayer. }
  assert (He1 :
    player_room_entry
      (mkRoomManager (Dict.setitem (rooms self) room_id room1)
                     (player_to_room self)
                     (Dict.setitem (socket_to_player self) socket_id
                                   player_id)) player_id
    = Some (room_id, room1)).
  { apply player_room_entry_Some. cbn [player_to_room rooms].
    rewrite Dict_get_setitem_eq. auto. }
  split; [cbn [socket_to_player]; apply Dict_get_setitem_eq|].
  exists room1. split; [|split; [|split]].
  - unfold get_player_by_socket, player_by_socket_entry.
    cbn [socket_to_player]. rewrite Dict_get_setitem_eq, Hpid. cbn [negb].
    rewrite He1, Hg1. reflexivity.
  - apply get_player_room_Some. eauto.
  - reflexivity.
  - unfold room1, Room.update_player. room_fields.
    now apply update_first_ids.
Qed.

(** The theorem at Misty, bound to connection s2. *)
Lemma connect_socket_then_lookup_witness :
  let st1 := snd (connect_socket registry_ash_misty "s2" "p-misty" 700) in
  let player' :=
    Player.set_status (Player.set_socket_id misty (Some "s2")) CONNECTED in
  Dict.get (socket_to_player st1) "s2" = Some "p-misty"%string /\
  exists room',
    get_player_by_socket st1 "s2" = Some (room', player') /\
    get_player_room st1 "p-misty" = Some room' /\
    Room.last_activity room' = 700 /\
    map Player.id (Room.players room')
    = map Player.id (Room.players room_ash_misty).
Proof.
  apply (connect_socket_then_lookup registry_ash_misty "s2" "p-misty" 700
           room_ash_misty misty); reflexivity.
Defined.

(** The theorem at Ash, bound to connection s1 and unbound twice. *)
Lemma disconnect_socket_twice_witness :
  let st1 := snd (disconnect_socket registry_linked "s1") in
  (fst (disconnect_socket registry_linked "s1") <> None ->
   Dict.get (socket_to_player st1) "s1" = None) /\
  get_player_by_socket st1 "s1" = None /\
  disconnect_socket st1 "s1" = (None, st1).
Proof.
  apply (disconnect_socket_twice registry_linked "s1").
Defined.

(** ** Joining and leaving again *)

Lemma Dict_delitem_setitem_fresh {V : Type} (d : Dict.t V) k v :
  Dict.get d k = None -> Dict.delitem (Dict.setitem d k v) k = d.
Proof.
  unfold Dict.delitem.
  induction d as [|[k' v'] d IH]; cbn.
  - intros _. now rewrite String.eqb_refl.
  - destruct (k' =? k)%string eqn:E; [discriminate|].
    intros Hget. cbn. rewrite E. cbn. now rewrite IH.
Qed.

Lemma others_app_fresh player_id ps p :
  ~ In player_id (map Player.id ps) ->
  Player.id p = player_id ->
  others player_id (ps ++ [p]) = ps.
Proof.
  intros Hnin Hid. unfold others. rewrite filter_app. cbn.
  rewrite Hid, String.eqb_refl. cbn. rewrite app_nil_r.
  induction ps as [|q ps IH]; cbn; [reflexivity|].
  destruct (Player.id q =? player_id)%string eqn:E.
  - apply String.eqb_eq in E. exfalso. apply Hnin. left. exact E.
  - cbn. rewrite IH; [reflexivity|]. intros H. apply Hnin. now right.
Qed.

(** In a consistent registry no connection is indexed to a player without
    an entry in the player index. *)
Lemma first_socket_of_unregistered self player_id :
  registry_ok self ->
  Dict.get (player_to_room self) player_id = None ->
  first_socket_of (socket_to_player self) player_id = None.
Proof.
  intros Hok Hfresh.
  destruct (first_socket_of (socket_to_player self) player_id) as [sid|]
    eqn:Hf; [|reflexivity].
  apply first_socket_of_Some in Hf.
  apply (Dict_In_get_NoDup _ _ _ (ok_s2p_keys _ Hok)) in Hf.
  destruct (ok_s2p _ Hok _ _ Hf) as (_ & rid & room & p & Hr & Hin & Hid & _).
  pose proof (ok_member _ Hok _ _ _ Hr Hin) as Hm.
  rewrite Hid in Hm. congruence.
Qed.

(** X9. In a consistent registry, a player who joins a room whose host is
    a member, under an unused id, and leaves it again leaves the room with
    the member list and the host it had before the join, and both indexes
    and the keys of the registry exactly as they were; no other room is
    touched. *)
Theorem join_then_leave_restores :
  forall self room_id name rom d now room room1 player msg st1,
    registry_ok self ->
    room_keys_ok self ->
    Dict.get (player_to_room self) (uuid4 d) = None ->
    Dict.get (rooms self) (upper room_id) = Some room ->
    In (Room.host_id room) (map Player.id (Room.players room)) ->
    join_room self room_id name rom d
    = ((Some room1, Some player, msg), st1) ->
    let st2 := snd (leave_room st1 (Player.id player) now) in
    exists room2,
      fst (leave_room st1 (Player.id player) now) = Some room2 /\
      Dict.get (rooms st2) (upper room_id) = Some room2 /\
      Room.players room2 = Room.players room /\
      Room.host_id room2 = Room.host_id room /\
      Room.last_activity room2 = now /\
      player_to_room st2 = player_to_room self /\
      socket_to_player st2 = socket_to_player self /\
      Dict.keys (rooms st2) = Dict.keys (rooms self) /\
      (forall k, k <> upper room_id ->
                 Dict.get (rooms st2) k = Dict.get (rooms self) k).
Proof.
  intros self room_id name rom d now room room1 player msg st1
         Hok Hkeys Hfresh Hr Hhost.
  unfold join_room. rewrite Hr.
  destruct (Room.is_active room); cbn [negb]; [|discriminate].
  destruct (Room.len_players room >=? Room.max_players room); [discriminate|].
  match goal with
  | |- context [Room.add_player room ?p ?t] =>
      destruct (Room.add_player room p t) as [[ok r1] p1] eqn:Hadd;
      assert (Hpid : Player.id p = uuid4 d)
        by (destruct (truthy_opt rom); reflexivity)
  end.
  destruct ok; [|discriminate]. intros [= <- <- _ <-]. cbv zeta.
  apply add_player_true in Hadd.
  destruct Hadd as (Hplayer & Hps & _ & _ & Hrid & Hhid & _).
  assert (Hhid1 : Room.host_id r1 = Room.host_id room).
  { rewrite Hhid. destruct (Room.players room); [contradiction|reflexivity]. }
  assert (Hid1 : Player.id p1 = uuid4 d).
  { rewrite Hplayer. destruct (Room.players room); exact Hpid. }
  clear Hplayer Hhid.
  destruct (Hkeys _ _ Hr) as [Htkey Hidkey].
  set (key := upper room_id) in *.
  assert (Hnew : ~ In (uuid4 d) (map Player.id (Room.players room))).
  { intros Hin. apply in_map_iff in Hin. destruct Hin as (p & Hp & Hin).
    pose proof (ok_member _ Hok _ _ _ Hr Hin) as Hm.
    rewrite Hp in Hm. congruence. }
  set (st1 := mkRoomManager _ _ _).
  assert (Hp1 : Dict.get (player_to_room st1) (Player.id p1) = Some key).
  { cbn [st1 player_to_room]. rewrite Dict_get_setitem_eq. congruence. }
  assert (Hr1 : Dict.get (rooms st1) key = Some r1).
  { cbn [st1 rooms]. apply Dict_get_setitem_eq. }
  rewrite (leave_room_eq st1 _ now key r1 Hp1 Htkey Hr1). cbv zeta.
  rewrite remove_player_eq. cbv zeta.
  rewrite Hps, others_app_fresh by (rewrite ?Hid1; auto).
  replace (Room.host_id r1 =? Player.id p1)%string with false.
  2:{ symmetry. apply String.eqb_neq. rewrite Hhid1, Hid1.
      intros Heq. apply Hnew. now rewrite <- Heq. }
  destruct (Room.players room) as [|q0 qs] eqn:Hq; [contradiction|].
  cbn [fst snd rooms player_to_room socket_to_player st1].
  eexists. split; [reflexivity|].
  split; [apply Dict_get_setitem_eq|].
  room_fields.
  split; [reflexivity|]. split; [exact Hhid1|]. split; [reflexivity|].
  split.
  { rewrite Hid1. now apply Dict_delitem_setitem_fresh. }
  split.
  { rewrite Hid1, (first_socket_of_unregistered self (uuid4 d) Hok Hfresh).
    reflexivity. }
  split.
  { rewrite !Dict_keys_setitem. unfold Dict.contains.
    rewrite Dict_get_setitem_eq, Hr. reflexivity. }
  intros k Hk. rewrite !Dict_get_setitem_ne by congruence. reflexivity.
Qed.

Lemma room_keys_ok_registry_ash : room_keys_ok registry_ash.
Proof.
  intros rid room. unfold registry_ash. cbn [rooms Dict.get].
  destruct ("ABC123" =? rid)%string eqn:E; [|discriminate].
  apply String.eqb_eq in E. intros [= <-]. subst rid. split; reflexivity.
Qed.

(** The theorem at Misty joining the room of Ash and leaving it. *)
Lemma join_then_leave_restores_witness :
  let st1 := snd (join_room registry_ash "abc123" "Misty" None draw_misty) in
  let st2 := snd (leave_room st1 (Player.id misty) 900) in
  exists room2,
    fst (leave_room st1 (Player.id misty) 900) = Some room2 /\
    Dict.get (rooms st2) (upper "abc123") = Some room2 /\
    Room.players room2 = Room.players room_ash /\
    Room.host_id room2 = Room.host_id room_ash /\
    Room.last_activity room2 = 900 /\
    player_to_room st2 = player_to_room registry_ash /\
    socket_to_player st2 = socket_to_player registry_ash /\
    Dict.keys (rooms st2) = Dict.keys (rooms registry_ash) /\
    (forall k, k <> upper "abc123" ->
               Dict.get (rooms st2) k = Dict.get (rooms registry_ash) k).
Proof.
  apply (join_then_leave_restores registry_ash "abc123" "Misty" None
           draw_misty 900 room_ash
           (Room.mk "ABC123" "p-ash" [ash; misty] 2 true true 100 200)
           misty msg_joined).
  - exact registry_ok_registry_ash.
  - exact room_keys_ok_registry_ash.
  - reflexivity.
  - reflexivity.
  - cbn. now left.
  - reflexivity.
Defined.

(** ** Runs of operations *)

(** X10. From a consistent registry whose rooms are registered under their
    own id, every run of registry operations (create, join, leave, bind,
    unbind, status update, remove room) in which each join draws an unused
    player id and each bind is to a non-empty connection id and of a player
    to which no other connection is indexed, ends in a consistent registry:
    every connection entry names a member whose handle is that connection,
    and every player entry names a registered room holding the player. *)
Theorem run_keeps_index_consistent :
  forall self ops,
    registry_ok self ->
    room_keys_ok self ->
    run_no_rebind self ops ->
    registry_ok (run self ops) /\
    room_keys_ok (run self ops) /\
    index_consistent (run self ops).
Proof.
  intros self ops. revert self.
  induction ops as [|op ops IH]; intros self Hok Hkeys Hrun.
  - split; [exact Hok|]. split; [exact Hkeys|].
    now apply registry_ok_index_consistent.
  - destruct Hrun as [Hop Hrun].
    destruct (registry_ok_step self op Hok Hkeys Hop) as [Hok' Hkeys'].
    exact (IH _ Hok' Hkeys' Hrun).
Qed.

(** The theorem at the room of Ash: Misty joins, both are bound, Misty's
    status changes, Ash is unbound and leaves, and the room is removed. *)
Lemma run_keeps_index_consistent_witness :
  let ops :=
    [OpCreate "Gary" None draw_brock draw_brock;
     OpJoin "abc123" "Misty" None draw_misty;
     OpBind "s1" "p-ash" 300;
     OpBind "s2" "p-misty" 310;
     OpStatus "p-misty" PLAYING 320;
     OpUnbind "s1";
     OpLeave "p-ash" 330;
     OpRemoveRoom "ABC123" 340] in
  registry_ok (run registry_ash ops) /\
  room_keys_ok (run registry_ash ops) /\
  index_consistent (run registry_ash ops).
Proof.
  apply (run_keeps_index_consistent registry_ash).
  - exact registry_ok_registry_ash.
  - exact room_keys_ok_registry_ash.
  - cbn [run_no_rebind]. repeat split; try reflexivity.
    + intros sid. vm_compute. discriminate.
    + intros sid. vm_compute.
      destruct sid as [|c sid]; [discriminate|].
      destruct c as [[] [] [] [] [] [] [] []]; try discriminate.
      destruct sid as [|c sid]; [discriminate|].
      destruct c as [[] [] [] [] [] [] [] []]; try discriminate.
      destruct sid; [discriminate|discriminate].
Defined.

(** ** Sweeping again *)

(** X11. One pass of the sweeper over a consistent registry leaves a
    consistent registry in which no room is expired at the time of the
    pass, so that a second pass for the same time changes nothing; and a
    pass over a registry in which no room is expired changes nothing. *)
Theorem sweep_twice :
  forall self now t_rm t_rm',
    registry_ok self ->
    let st' := cleanup_cycle self now t_rm in
    registry_ok st' /\
    (forall key room, Dict.get (rooms st') key = Some room ->
                      expired now room = false) /\
    cleanup_cycle st' now t_rm' = st' /\
    ((forall key room, Dict.get (rooms self) key = Some room ->
                       expired now room = false) ->
     st' = self).
Proof.
  intros self now t_rm t_rm' Hok. cbv zeta.
  assert (Hnothing : forall st t,
    registry_ok st ->
    (forall key room, Dict.get (rooms st) key = Some room ->
                      expired now room = false) ->
    cleanup_cycle st now t = st).
  { intros st t Hst Hnone. unfold cleanup_cycle.
    replace (rooms_to_remove st now) with (@nil string); [reflexivity|].
    symmetry. unfold rooms_to_remove.
    replace (filter _ (rooms st)) with (@nil (string * Room.t));
      [reflexivity|].
    symmetry. 
    assert (Hall : forall kv, In kv (rooms st) ->
                              expired now (snd kv) = false).
    { intros [k r] Hin. cbn.
      apply (Hnone k). apply Dict_In_get_NoDup; [|exact Hin].
      exact (ok_rooms_keys _ Hst). }
    revert Hall. generalize (rooms st). intros l.
    induction l as [|kv l IH]; intros Hall; cbn [filter]; [reflexivity|].
    pose proof (Hall kv (or_introl eq_refl)) as Hkv.
    unfold expired in Hkv. rewrite Hkv. apply IH.
    intros kv' Hin. apply Hall. now right. }
  unfold cleanup_cycle at 1 2 3.
  destruct (remove_rooms_spec t_rm (rooms_to_remove self now) self Hok)
    as (Hok' & Hin & Hout & _).
  fold (cleanup_cycle self now t_rm) in *.
  assert (Hfresh : forall key room,
            Dict.get (rooms (cleanup_cycle self now t_rm)) key = Some room ->
            expired now room = false).
  { intros key room Hget.
    destruct (in_dec string_dec key (rooms_to_remove self now)) as [Hi|Hn].
    - rewrite (Hin _ Hi) in Hget. discriminate.
    - rewrite (Hout _ Hn) in Hget.
      destruct (expired now room) eqn:E; [|reflexivity].
      exfalso. apply Hn.
      apply rooms_to_remove_In; [exact (ok_rooms_keys _ Hok)|]. eauto. }
  split; [exact Hok'|]. split; [exact Hfresh|].
  split; [now apply Hnothing|].
  intros Hnone. now apply Hnothing.
Qed.

(** The theorem at the room of Ash, last active at 100, swept at 200. *)
Lemma sweep_twice_witness :
  let st' := cleanup_cycle registry_ash 200 200 in
  registry_ok st' /\
  (forall key room, Dict.get (rooms st') key = Some room ->
                    expired 200 room = false) /\
  cleanup_cycle st' 200 300 = st' /\
  ((forall key room, Dict.get (rooms registry_ash) key = Some room ->
                     expired 200 room = false) ->
   st' = registry_ash).
Proof.
  apply (sweep_twice registry_ash 200 200 300).
  exact registry_ok_registry_ash.
Defined.

(** * Further properties of the connection table and the dispatcher *)

(** ** Registering and writing to a connection *)

(** X12. Once [connect] has registered a connection, a [send_message] to
    it is delivered exactly when the write on that connection goes through;
    a connection registered again under the same id replaces the earlier
    one; and for an id that was not registered, [connect] followed by
    [disconnect] leaves the connection table as it was. *)
Theorem ws_connect_registers :
  forall websocket socket_id w,
    exists w1,
      ws_connect websocket socket_id true w = Some w1 /\
      room_manager w1 = room_manager w /\
      Dict.get (active_connections w1) socket_id = Some websocket /\
      (forall message,
         send_message socket_id message w1
         = if send_text_ok websocket message
           then (Ok true, w1, [mkSendEvent socket_id message Delivered])
           else (Ok false,
                 mkWorld (room_manager w)
                         (Dict.delitem (active_connections w1) socket_id),
                 [mkSendEvent socket_id message SendFailed])) /\
      (Dict.get (active_connections w) socket_id = None ->
       ws_disconnect socket_id w1 = (Ok tt, w, [])).
Proof.
  intros websocket socket_id w. eexists. split; [reflexivity|].
  cbn [room_manager active_connections].
  split; [reflexivity|]. split; [apply Dict_get_setitem_eq|]. split.
  - intros message. unfold send_message, ws_disconnect, Dict.contains.
    cbn [active_connections room_manager].
    rewrite Dict_get_setitem_eq.
    destruct (send_text_ok websocket message); reflexivity.
  - intros Hnone. unfold ws_disconnect, Dict.contains.
    cbn [active_connections room_manager].
    rewrite Dict_get_setitem_eq, Dict_delitem_setitem_fresh by exact Hnone.
    now rewrite world_eta.
Qed.

(** The theorem at a new connection s3 beside those of Ash and Misty. *)
Lemma ws_connect_registers_witness :
  exists w1,
    ws_connect ws_open "s3" true world_linked = Some w1 /\
    room_manager w1 = room_manager world_linked /\
    Dict.get (active_connections w1) "s3" = Some ws_open /\
    (forall message,
       send_message "s3" message w1
       = if send_text_ok ws_open message
         then (Ok true, w1, [mkSendEvent "s3" message Delivered])
         else (Ok false,
               mkWorld (room_manager world_linked)
                       (Dict.delitem (active_connections w1) "s3"),
               [mkSendEvent "s3" message SendFailed])) /\
    (Dict.get (active_connections world_linked) "s3" = None ->
     ws_disconnect "s3" w1 = (Ok tt, world_linked, [])).
Proof.
  apply (ws_connect_registers ws_open "s3" world_linked).
Defined.

(** X13. When [send_message] returns [False], the connection is no longer
    in the connection table, whether the write failed or it never was
    there; every later [send_message] to it finds no connection, returns
    [False] and changes nothing, until it is registered again. *)
Theorem send_message_failure_unregisters :
  forall socket_id message w w' log,
    send_message socket_id message w = (Ok false, w', log) ->
    Dict.get (active_connections w') socket_id = None /\
    room_manager w' = room_manager w /\
    forall message',
      send_message socket_id message' w'
      = (Ok false, w', [mkSendEvent socket_id message' NotConnected]).
Proof.
  intros socket_id message w w' log. unfold send_message at 1.
  unfold ws_disconnect, Dict.contains.
  destruct (Dict.get (active_connections w) socket_id) as [ws|] eqn:Hget.
  - destruct (send_text_ok ws message); [discriminate|].
    intros [= <- _].
    assert (Hgone : Dict.get (Dict.delitem (active_connections w) socket_id)
                             socket_id = None)
      by apply Dict_get_delitem_eq.
    cbn [active_connections room_manager].
    split; [exact Hgone|]. split; [reflexivity|].
    intros message'. unfold send_message.
    cbn [active_connections]. now rewrite Hgone.
  - intros [= <- _]. split; [exact Hget|]. split; [reflexivity|].
    intros message'. unfold send_message. now rewrite Hget.
Qed.

(** The theorem at a connection whose writes fail. *)
Lemma send_message_failure_unregisters_witness :
  let w := mkWorld registry_linked
                   [("s1", mkWebSocket (fun _ => false)); ("s2", ws_open)] in
  let w' := mkWorld registry_linked [("s2", ws_open)] in
  Dict.get (active_connections w') "s1" = None /\
  room_manager w' = room_manager w /\
  forall message',
    send_message "s1" message' w'
    = (Ok false, w', [mkSendEvent "s1" message' NotConnected]).
Proof.
  apply (send_message_failure_unregisters "s1" MsgPong
           (mkWorld registry_linked
                    [("s1", mkWebSocket (fun _ => false)); ("s2", ws_open)])
           (mkWorld registry_linked [("s2", ws_open)])
           [mkSendEvent "s1" MsgPong SendFailed]).
  reflexivity.
Defined.

(** ** Broadcasting *)

Lemma bind_send {B : Type} socket_id message (k : M B) w :
  bind (send_message socket_id message ;;; ret tt) (fun _ => k) w
  = let '(_, w1, l1) := send_message socket_id message w in
    let '(r, w2, l2) := k w1 in (r, w2, (l1 ++ l2)%list).
Proof.
  unfold bind at 1. rewrite bind_send_ret. unfold unicast.
  destruct (send_message_event socket_id message w)
    as (b & w1 & o & -> & _).
  reflexivity.
Qed.

Lemma broadcast_loop_events message exclude ps : forall w,
  exists w' log,
    broadcast_loop ps message exclude w = (Ok tt, w', log) /\
    room_manager w' = room_manager w /\
    map ev_socket log
    = recipients (Room.mk "" "" ps 0 false false 0 0) exclude /\
    Forall (fun e => ev_message e = message) log.
Proof.
  unfold recipients. room_fields.
  induction ps as [|p ps IH]; intros w; cbn [broadcast_loop flat_map].
  - exists w, []. repeat split; auto.
  - destruct (Player.socket_id p) as [sid|].
    + match goal with
      | |- context [if ?c then send_message _ _ ;;; _ else _] =>
          destruct c
      end.
      * rewrite bind_send.
        destruct (send_message_event sid message w)
          as (b & w1 & o & -> & Hrm1 & _).
        destruct (IH w1) as (w' & log & -> & Hrm & Hs & Hm).
        eexists _, _. split; [reflexivity|].
        split; [congruence|]. split.
        -- cbn. now rewrite Hs.
        -- constructor; [reflexivity|exact Hm].
      * rewrite bind_ret. destruct (IH w) as (w' & log & -> & Hrm & Hs & Hm).
        eexists _, _. split; [reflexivity|]. auto.
    + rewrite bind_ret. destruct (IH w) as (w' & log & -> & Hrm & Hs & Hm).
      eexists _, _. split; [reflexivity|]. auto.
Qed.

Lemma recipients_In room exclude s :
  In s (recipients room exclude) ->
  (exists p, In p (Room.players room) /\ Player.socket_id p = Some s) /\
  truthy s = true /\
  exclude <> Some s.
Proof.
  unfold recipients. rewrite in_flat_map. intros (p & Hp & Hin).
  destruct (Player.socket_id p) as [sid|] eqn:Hs; [|contradiction].
  destruct (truthy sid) eqn:Ht; cbn [andb] in Hin; [|contradiction].
  destruct exclude as [x|].
  - destruct (sid =? x)%string eqn:E; cbn in Hin; [contradiction|].
    destruct Hin as [<-|[]]. apply String.eqb_neq in E.
    split; [eauto|]. split; [exact Ht|congruence].
  - cbn in Hin. destruct Hin as [<-|[]].
    split; [eauto|]. split; [exact Ht|discriminate].
Qed.

(** X14. [broadcast_to_room] for a code under which no room is found does
    nothing.  Otherwise it makes one [send_message] call, with the message
    given, for each member that has a non-empty connection handle other
    than the excluded one, in member order, and no other call: never to the
    excluded connection, never to a member without a handle.  It returns
    normally and leaves the registry as it was. *)
Theorem broadcast_to_room_recipients :
  forall room_id message exclude w,
    match get_room (room_manager w) room_id with
    | None => broadcast_to_room room_id message exclude w = (Ok tt, w, [])
    | Some room =>
        exists w' log,
          broadcast_to_room room_id message exclude w = (Ok tt, w', log) /\
          room_manager w' = room_manager w /\
          map ev_socket log = recipients room exclude /\
          Forall (fun e => ev_message e = message) log /\
          ~ In exclude (map Some (map ev_socket log)) /\
          Forall (fun s => exists p, In p (Room.players room) /\
                                     Player.socket_id p = Some s)
                 (map ev_socket log)
    end.
Proof.
  intros room_id message exclude w. unfold broadcast_to_room.
  rewrite bind_query.
  destruct (get_room (room_manager w) room_id) as [room|]; [|reflexivity].
  destruct (broadcast_loop_events message exclude (Room.players room) w)
    as (w' & log & Hrun & Hrm & Hs & Hm).
  exists w', log.
  assert (Hrec : map ev_socket log = recipients room exclude) by exact Hs.
  split; [exact Hrun|]. split; [exact Hrm|]. split; [exact Hrec|].
  split; [exact Hm|]. split.
  - rewrite Hrec. intros Hin. apply in_map_iff in Hin.
    destruct Hin as (s & Hx & Hin). apply recipients_In in Hin.
    destruct Hin as (_ & _ & Hne). congruence.
  - rewrite Hrec. apply Forall_forall. intros s Hin.
    now apply recipients_In in Hin.
Qed.

(** ** What no message changes *)

Lemma same_membership_refl rm : same_membership rm rm.
Proof. repeat split. Qed.

Lemma same_membership_trans rm1 rm2 rm3 :
  same_membership rm1 rm2 -> same_membership rm2 rm3 ->
  same_membership rm1 rm3.
Proof.
  intros (H1 & H2 & H3) (H4 & H5 & H6).
  split; [congruence|]. split; [congruence|].
  intros k. now rewrite H6.
Qed.

Lemma same_membership_replace rm rid room room' s2p :
  Dict.get (rooms rm) rid = Some room ->
  seats room' = seats room ->
  same_membership rm (mkRoomManager (Dict.setitem (rooms rm) rid room')
                                    (player_to_room rm) s2p).
Proof.
  intros Hr Hs. split; [reflexivity|]. cbn [rooms]. split.
  - rewrite Dict_keys_setitem. unfold Dict.contains. now rewrite Hr.
  - intros k. rewrite Dict_get_setitem.
    destruct (String.eqb_spec rid k) as [<-|_]; [|reflexivity].
    rewrite Hr. cbn. now rewrite Hs.
Qed.

Lemma seats_update_player room player_id f :
  (forall p, Player.id (f p) = Player.id p) ->
  (forall p, Player.is_host (f p) = Player.is_host p) ->
  seats (Room.update_player room player_id f) = seats room.
Proof.
  intros Hid Hhost. unfold seats, Room.update_player. room_fields.
  assert (Hmap : forall ps,
    map (fun p => (Player.id p, Player.is_host p))
        (Room.update_first f player_id ps)
    = map (fun p => (Player.id p, Player.is_host p)) ps).
  { induction ps as [|p ps IH]; cbn; [reflexivity|].
    destruct (Player.id p =? player_id)%string; cbn.
    - now rewrite Hid, Hhost.
    - now rewrite IH. }
  now rewrite Hmap.
Qed.

Lemma same_membership_connect_socket rm socket_id player_id now :
  same_membership rm (snd (connect_socket rm socket_id player_id now)).
Proof.
  unfold connect_socket.
  destruct (player_room_entry rm player_id) as [[rid room]|] eqn:He;
    [|apply same_membership_refl].
  destruct (Room.get_player room player_id);
    [|apply same_membership_refl].
  apply player_room_entry_Some in He. destruct He as (_ & _ & Hr).
  cbn [snd]. apply (same_membership_replace rm rid room); [exact Hr|].
  now rewrite <- (seats_update_player room player_id
    (fun p => Player.set_status (Player.set_socket_id p (Some socket_id))
                                CONNECTED)).
Qed.

Lemma same_membership_disconnect_socket rm socket_id :
  same_membership rm (snd (disconnect_socket rm socket_id)).
Proof.
  unfold disconnect_socket.
  destruct (player_by_socket_entry rm socket_id) as [[[rid room] p]|] eqn:He;
    [|apply same_membership_refl].
  apply player_by_socket_entry_Some in He.
  destruct He as (pid & _ & _ & He & _).
  apply player_room_entry_Some in He. destruct He as (_ & _ & Hr).
  cbn [snd]. apply (same_membership_replace rm rid room); [exact Hr|].
  now apply seats_update_player.
Qed.

Lemma same_membership_update_player_status rm player_id status now :
  same_membership rm (snd (update_player_status rm player_id status now)).
Proof.
  unfold update_player_status.
  destruct (player_room_entry rm player_id) as [[rid room]|] eqn:He;
    [|apply same_membership_refl].
  destruct (Room.get_player room player_id);
    [|apply same_membership_refl].
  apply player_room_entry_Some in He. destruct He as (_ & _ & Hr).
  cbn [snd]. unfold set_rooms.
  apply (same_membership_replace rm rid room); [exact Hr|].
  now rewrite <- (seats_update_player room player_id
    (fun p => Player.set_status p status)).
Qed.

Lemma same_membership_store_save_state rm room_id player_id blob :
  same_membership rm (snd (store_save_state room_id player_id blob rm)).
Proof.
  unfold store_save_state.
  destruct (Dict.get (rooms rm) room_id) as [room|] eqn:Hr;
    [|apply same_membership_refl].
  cbn [snd]. unfold set_rooms.
  apply (same_membership_replace rm room_id room); [exact Hr|].
  now apply seats_update_player.
Qed.

Lemma keeps_ret {A : Type} (a : A) : keeps_membership (ret a).
Proof. intros w r w' l [= _ <- _]. apply same_membership_refl. Qed.

Lemma keeps_lift {A : Type} (x : result A) : keeps_membership (lift x).
Proof. intros w r w' l [= _ <- _]. apply same_membership_refl. Qed.

Lemma keeps_query {A : Type} (f : RoomManager -> A) :
  keeps_membership (query f).
Proof. intros w r w' l [= _ <- _]. apply same_membership_refl. Qed.

Lemma keeps_call {A : Type} (f : RoomManager -> A * RoomManager) :
  (forall rm, same_membership rm (snd (f rm))) -> keeps_membership (call f).
Proof.
  intros Hf w r w' l. unfold call. specialize (Hf (room_manager w)).
  destruct (f (room_manager w)) as [a rm]. intros [= _ <- _]. exact Hf.
Qed.

Lemma keeps_send socket_id message :
  keeps_membership (send_message socket_id message).
Proof.
  intros w r w' l H.
  destruct (send_message_event socket_id message w)
    as (b & w1 & o & Hrun & Hrm & _).
  rewrite Hrun in H. injection H as _ <- _. rewrite Hrm.
  apply same_membership_refl.
Qed.

Lemma keeps_bind {A B : Type} (m : M A) (k : A -> M B) :
  keeps_membership m -> (forall a, keeps_membership (k a)) ->
  keeps_membership (bind m k).
Proof.
  intros Hm Hk w r w' l. unfold bind.
  destruct (m w) as [[[a|e] w1] l1] eqn:Hmw.
  - destruct (k a w1) as [[r2 w2] l2] eqn:Hkw. intros [= _ <- _].
    eapply same_membership_trans; [eapply Hm|eapply Hk]; eassumption.
  - intros [= _ <- _]. eapply Hm. eassumption.
Qed.

Lemma keeps_try_except {A : Type} (m : M A) (h : exn -> M A) :
  keeps_membership m -> (forall e, keeps_membership (h e)) ->
  keeps_membership (try_except m h).
Proof.
  intros Hm Hh w r w' l. unfold try_except.
  destruct (m w) as [[[a|e] w1] l1] eqn:Hmw.
  - intros [= _ <- _]. eapply Hm. eassumption.
  - destruct (h e w1) as [[r2 w2] l2] eqn:Hhw. intros [= _ <- _].
    eapply same_membership_trans; [eapply Hm|eapply Hh]; eassumption.
Qed.

Lemma keeps_broadcast_loop ps message exclude :
  keeps_membership (broadcast_loop ps message exclude).
Proof.
  intros w r w' l H.
  destruct (broadcast_loop_events message exclude ps w)
    as (w1 & l1 & Hrun & Hrm & _).
  rewrite Hrun in H. injection H as _ <- _. rewrite Hrm.
  apply same_membership_refl.
Qed.

Ltac keeps_step :=
  first
    [ apply keeps_ret
    | apply keeps_lift
    | apply keeps_query
    | apply keeps_send
    | apply keeps_broadcast_loop
    | apply keeps_call; intro;
      first [ apply same_membership_connect_socket
            | apply same_membership_disconnect_socket
            | apply same_membership_update_player_status
            | apply same_membership_store_save_state ]
    | apply keeps_bind; [|intro]
    | match goal with
      | |- keeps_membership (if ?c then _ else _) => destruct c
      | |- keeps_membership (match ?x with _ => _ end) => destruct x
      end ].

(** X15. No inbound message, whatever its type and content, adds or
    removes a room or a member, or changes the player index, a room's host,
    host flags, capacity, active flag or link flag: after [handle_message]
    the registry has the same rooms with the same seats and the same player
    index as before. *)
Theorem handle_message_keeps_membership :
  forall socket_id message_data now w,
    let w' := snd (fst (handle_message socket_id message_data now w)) in
    player_to_room (room_manager w') = player_to_room (room_manager w) /\
    Dict.keys (rooms (room_manager w')) = Dict.keys (rooms (room_manager w)) /\
    forall k, option_map seats (Dict.get (rooms (room_manager w')) k)
              = option_map seats (Dict.get (rooms (room_manager w)) k).
Proof.
  intros socket_id message_data now w. cbv zeta.
  assert (Hk : keeps_membership (handle_message socket_id message_data now)).
  { unfold handle_message. apply keeps_try_except.
    - unfold dispatch, _handle_join_room, _handle_leave_room,
        _handle_link_cable_data, _handle_player_status, _handle_save_state,
        broadcast_to_room, connect_socket_json, get_player_room_json.
      repeat keeps_step.
    - intros e. repeat keeps_step. }
  destruct (handle_message socket_id message_data now w) as [[r w'] log]
    eqn:H.
  exact (Hk _ _ _ _ H).
Qed.

(** ** Messages from a connection bound to no player *)

Lemma get_player_by_socket_None rm socket_id :
  get_player_by_socket rm socket_id = None ->
  player_by_socket_entry rm socket_id = None.
Proof.
  unfold get_player_by_socket.
  destruct (player_by_socket_entry rm socket_id); [discriminate|reflexivity].
Qed.

(** X16. A [leave_room], [link_cable_data], [player_status] or
    [save_state] message from a connection that resolves to no player is
    dropped without a trace: whatever its data, [handle_message] sends
    nothing, not even an error, and changes nothing. *)
Theorem unbound_sender_ignored :
  forall socket_id m now w t,
    get_player_by_socket (room_manager w) socket_id = None ->
    Dict.get m "type" = Some (JStr t) ->
    In t ["leave_room"; "link_cable_data"; "player_status"; "save_state"]
         %string ->
    handle_message socket_id (JDict m) now w = (Ok tt, w, []).
Proof.
  intros socket_id m now w t Hnone Htype Ht.
  pose proof (get_player_by_socket_None _ _ Hnone) as Hentry.
  apply handle_message_Ok.
  unfold dispatch, json_get, json_get_default.
  rewrite !bind_lift_Ok, Htype.
  destruct Ht as [<-|[<-|[<-|[<-|[]]]]]; cbn [json_eq_str String.eqb Ascii.eqb
    Bool.eqb].
  - unfold _handle_leave_room, bind, call, disconnect_socket.
    rewrite Hentry. cbn. now rewrite world_eta.
  - unfold _handle_link_cable_data. rewrite bind_query, Hnone. reflexivity.
  - unfold _handle_player_status. rewrite bind_query, Hentry. reflexivity.
  - unfold _handle_save_state. rewrite bind_query, Hentry. reflexivity.
Qed.

(** The theorem at a [save_state] message from connection s9, which is
    bound to nobody. *)
Lemma unbound_sender_ignored_witness :
  handle_message "s9"
    (JDict [("type", JStr "save_state");
            ("data", JDict [("action", JStr "load")])])
    700 world_linked
  = (Ok tt, world_linked, []).
Proof.
  apply (unbound_sender_ignored "s9" _ 700 world_linked "save_state").
  - reflexivity.
  - reflexivity.
  - cbn. tauto.
Defined.

(** ** Handlers on a bound connection *)

(** A run of [broadcast_to_room]: it returns, keeps the registry, and every
    call carries the message and goes to another connection than the
    excluded one. *)
Lemma broadcast_to_room_run room_id message exclude w :
  exists w' log,
    broadcast_to_room room_id message exclude w = (Ok tt, w', log) /\
    room_manager w' = room_manager w /\
    map ev_socket log
    = match get_room (room_manager w) room_id with
      | Some room => recipients room exclude
      | None => []
      end /\
    Forall (fun e => ev_message e = message) log /\
    ~ In exclude (map Some (map ev_socket log)).
Proof.
  unfold broadcast_to_room. rewrite bind_query.
  destruct (get_room (room_manager w) room_id) as [room|].
  - destruct (broadcast_loop_events message exclude (Room.players room) w)
      as (w' & log & Hrun & Hrm & Hs & Hm).
    exists w', log.
    assert (Hrec : map ev_socket log = recipients room exclude) by exact Hs.
    repeat split; auto.
    rewrite Hrec. intros Hin. apply in_map_iff in Hin.
    destruct Hin as (s & Hx & Hin). apply recipients_In in Hin.
    destruct Hin as (_ & _ & Hne). congruence.
  - exists w, []. repeat split; auto.
Qed.

(** The sender's entry after its room has been replaced by one in which
    the sender was updated in place. *)
Lemma player_by_socket_entry_update rm socket_id rid room player room1 f s2p :
  player_by_socket_entry rm socket_id = Some (rid, room, player) ->
  (forall p, Player.id (f p) = Player.id p) ->
  Room.players room1
  = Room.update_first f (Player.id player) (Room.players room) ->
  Dict.get s2p socket_id = Dict.get (socket_to_player rm) socket_id ->
  player_by_socket_entry
    (mkRoomManager (Dict.setitem (rooms rm) rid room1) (player_to_room rm) s2p)
    socket_id
  = Some (rid, room1, f player).
Proof.
  intros He Hid Hps Hs2p.
  apply player_by_socket_entry_Some in He.
  destruct He as (pid & Hsock & Ht & Hentry & Hg & Hidp).
  apply player_room_entry_Some in Hentry. destruct Hentry as (Hp & Htr & Hr).
  unfold player_by_socket_entry. cbn [socket_to_player].
  rewrite Hs2p, Hsock, Ht. cbn [negb].
  assert (He1 : player_room_entry
            (mkRoomManager (Dict.setitem (rooms rm) rid room1)
                           (player_to_room rm) s2p) pid
          = Some (rid, room1)).
  { apply player_room_entry_Some. cbn [player_to_room rooms].
    rewrite Dict_get_setitem_eq. auto. }
  rewrite He1. unfold Room.get_player. rewrite Hps, Hidp.
  rewrite find_update_first by exact Hid.
  fold (Room.get_player room pid). now rewrite Hg.
Qed.

Lemma bind_call {A B : Type} (f : RoomManager -> A * RoomManager)
      (k : A -> M B) w :
  bind (call f) k w
  = k (fst (f (room_manager w)))
      (mkWorld (snd (f (room_manager w))) (active_connections w)).
Proof.
  unfold bind, call. destruct (f (room_manager w)) as [a rm]. cbn [fst snd].
  destruct (k a _) as [[r w2] l2]. reflexivity.
Qed.

Lemma dispatch_type socket_id m now w t :
  Dict.get m "type" = Some (JStr t) ->
  dispatch socket_id (JDict m) now w
  = (let data := match Dict.get m "data" with
                 | Some v => v
                 | None => JDict []
                 end in
     if (t =? "join_room")%string
     then _handle_join_room socket_id data now
     else if (t =? "leave_room")%string
     then _handle_leave_room socket_id
     else if (t =? "link_cable_data")%string
     then _handle_link_cable_data socket_id data
     else if (t =? "player_status")%string
     then _handle_player_status socket_id data now
     else if (t =? "save_state")%string
     then _handle_save_state socket_id data
     else if (t =? "ping")%string
     then send_message socket_id MsgPong ;;; ret tt
     else ret tt) w.
Proof.
  intros Htype. unfold dispatch, json_get, json_get_default.
  rewrite !bind_lift_Ok, Htype. reflexivity.
Qed.

(** X17. A [leave_room] message from a bound connection unbinds it and
    does no more: [handle_message] returns normally, sends only
    [player_left] messages and none to the sender; afterwards the
    connection resolves to nobody, while the player is still indexed to its
    room and still a member of it, with status DISCONNECTED and no handle;
    so a room that was full stays full, and [join_room] on it still answers
    "Room is full". *)
Theorem leave_room_message_keeps_seat :
  forall socket_id m now w rid room player,
    player_by_socket_entry (room_manager w) socket_id
    = Some (rid, room, player) ->
    Dict.get m "type" = Some (JStr "leave_room") ->
    exists w' log room',
      handle_message socket_id (JDict m) now w = (Ok tt, w', log) /\
      ~ In socket_id (map ev_socket log) /\
      Forall (fun e => exists r name text,
                         ev_message e = MsgPlayerLeft r name text) log /\
      get_player_by_socket (room_manager w') socket_id = None /\
      player_room_entry (room_manager w') (Player.id player)
      = Some (rid, room') /\
      Room.get_player room' (Player.id player)
      = Some (Player.set_status (Player.set_socket_id player None)
                                DISCONNECTED) /\
      length (Room.players room') = length (Room.players room) /\
      (Room.is_active room = true ->
       Room.len_players room >= Room.max_players room ->
       forall code name rom d,
         upper code = rid ->
         join_room (room_manager w') code name rom d
         = ((None, None, msg_full), room_manager w')).
Proof.
  intros socket_id m now w rid room player He Htype.
  pose proof He as He0.
  apply player_by_socket_entry_Some in He0.
  destruct He0 as (pid & Hsock & Ht & Hentry & Hg & Hidp).
  apply player_room_entry_Some in Hentry. destruct Hentry as (Hp & Htr & Hr).
  set (unbind := fun p => Player.set_status (Player.set_socket_id p None)
                                            DISCONNECTED).
  set (room1 := Room.update_player room (Player.id player) unbind).
  set (rm1 := mkRoomManager
                (Dict.setitem (rooms (room_manager w)) rid room1)
                (player_to_room (room_manager w))
                (Dict.delitem (socket_to_player (room_manager w)) socket_id)).
  assert (Hdis : disconnect_socket (room_manager w) socket_id
                 = (Some (room1, unbind player), rm1)).
  { unfold disconnect_socket. rewrite He. reflexivity. }
  set (w1 := mkWorld rm1 (active_connections w)).
  destruct (broadcast_to_room_run (Room.id room1)
              (MsgPlayerLeft room1 (Player.name (unbind player))
                 (Player.name (unbind player) ++ " has left the room"))
              (Some socket_id) w1)
    as (w' & log & Hrun & Hrm & _ & Hmsg & Hex).
  exists w', log, room1.
  split.
  { apply handle_message_Ok. rewrite (dispatch_type _ _ _ _ _ Htype).
    cbn [String.eqb Ascii.eqb Bool.eqb]. cbv zeta.
    unfold _handle_leave_room, bind, call. rewrite Hdis.
    fold w1. rewrite Hrun. reflexivity. }
  split.
  { intros Hin. apply Hex. apply in_map_iff. eauto. }
  split.
  { eapply Forall_impl; [|exact Hmsg]. cbn. intros e ->. eauto. }
  rewrite Hrm. cbn [w1 room_manager].
  split.
  { unfold get_player_by_socket, player_by_socket_entry, rm1.
    cbn [socket_to_player]. now rewrite Dict_get_delitem_eq. }
  split.
  { rewrite Hidp. apply player_room_entry_Some. unfold rm1.
    cbn [player_to_room rooms]. rewrite Dict_get_setitem_eq. auto. }
  split.
  { unfold room1. rewrite Hidp, get_player_update_player by reflexivity.
    now rewrite Hg. }
  assert (Hlen : length (Room.players room1) = length (Room.players room)).
  { unfold room1, Room.update_player. room_fields.
    rewrite <- (length_map Player.id), update_first_ids by reflexivity.
    apply length_map. }
  split; [exact Hlen|].
  intros Hact Hfull code name rom d <-.
  unfold join_room, rm1. cbn [rooms]. rewrite Dict_get_setitem_eq.
  replace (Room.is_active room1) with (Room.is_active room) by reflexivity.
  rewrite Hact. cbn [negb].
  replace (Room.len_players room1 >=? Room.max_players room1) with true;
    [reflexivity|].
  symmetry. unfold Room.len_players. rewrite Hlen.
  replace (Room.max_players room1) with (Room.max_players room)
    by reflexivity.
  unfold Room.len_players in Hfull. apply Z.geb_le. lia.
Qed.

(** The theorem at Ash sending [leave_room] on connection s1. *)
Lemma leave_room_message_keeps_seat_witness :
  exists w' log room',
    handle_message "s1" (JDict [("type", JStr "leave_room")]) 700 world_linked
    = (Ok tt, w', log) /\
    ~ In "s1"%string (map ev_socket log) /\
    Forall (fun e => exists r name text,
                       ev_message e = MsgPlayerLeft r name text) log /\
    get_player_by_socket (room_manager w') "s1" = None /\
    player_room_entry (room_manager w') (Player.id ash_bound)
    = Some ("ABC123"%string, room') /\
    Room.get_player room' (Player.id ash_bound)
    = Some (Player.set_status (Player.set_socket_id ash_bound None)
                              DISCONNECTED) /\
    length (Room.players room') = length (Room.players room_linked) /\
    (Room.is_active room_linked = true ->
     Room.len_players room_linked >= Room.max_players room_linked ->
     forall code name rom d,
       upper code = "ABC123"%string ->
       join_room (room_manager w') code name rom d
       = ((None, None, msg_full), room_manager w')).
Proof.
  apply (leave_room_message_keeps_seat "s1" [("type", JStr "leave_room")]
           700 world_linked "ABC123" room_linked ash_bound); reflexivity.
Defined.

(** ** Saving and loading *)

(** X18. For a sender the connection resolves: a [save_state] save is
    answered with one success message to the sender, and a load after it
    with one success message carrying the [save_data] of that save ([null]
    when the save had none), whatever was saved before; a load by a player
    that has nothing saved is answered with one message with
    [success = False].  The load changes nothing in the registry. *)
Theorem save_then_load :
  forall socket_id w d_save d_load rid room player,
    player_by_socket_entry (room_manager w) socket_id
    = Some (rid, room, player) ->
    Dict.get d_save "action" = Some (JStr "save") ->
    Dict.get d_load "action" = Some (JStr "load") ->
    let v := match Dict.get d_save "save_data" with
             | Some v => v
             | None => JNull
             end in
    (exists w1 o1 w2 o2,
       _handle_save_state socket_id (JDict d_save) w
       = (Ok tt, w1,
          [mkSendEvent socket_id
             (MsgSaveStateResponse "save" true None
                "Game state saved successfully") o1]) /\
       _handle_save_state socket_id (JDict d_load) w1
       = (Ok tt, w2,
          [mkSendEvent socket_id
             (MsgSaveStateResponse "load" true (Some v)
                "Game state loaded successfully") o2]) /\
       room_manager w2 = room_manager w1) /\
    (Player.save_state player = None ->
     exists w2 o2,
       _handle_save_state socket_id (JDict d_load) w
       = (Ok tt, w2,
          [mkSendEvent socket_id
             (MsgSaveStateResponse "load" false None "No save state found")
             o2]) /\
       room_manager w2 = room_manager w).
Proof.
  intros socket_id w d_save d_load rid room player He Hsave Hload v.
  assert (Hload_run : forall w0 p0 room0,
    player_by_socket_entry (room_manager w0) socket_id
    = Some (rid, room0, p0) ->
    _handle_save_state socket_id (JDict d_load) w0
    = match Player.save_state p0 with
      | Some ((_ :: _) as saved) =>
          unicast socket_id
            (MsgSaveStateResponse "load" true
               (Some (match Dict.get saved "data" with
                      | Some x => x
                      | None => JNull
                      end))
               "Game state loaded successfully") w0
      | _ =>
          unicast socket_id
            (MsgSaveStateResponse "load" false None "No save state found") w0
      end).
  { intros w0 p0 room0 He0. unfold _handle_save_state.
    rewrite bind_query, He0. unfold json_get, json_get_default.
    rewrite bind_lift_Ok, Hload. cbn [json_eq_str String.eqb Ascii.eqb Bool.eqb].
    destruct (Player.save_state p0) as [[|kv saved]|];
      now rewrite bind_send_ret. }
  split.
  - pose proof He as He0.
    apply player_by_socket_entry_Some in He0.
    destruct He0 as (pid & _ & _ & Hentry & _).
    apply player_room_entry_Some in Hentry. destruct Hentry as (_ & _ & Hr).
    set (blob := [("data"%string, v);
                  ("screenshot"%string,
                   match Dict.get d_save "screenshot" with
                   | Some x => x | None => JNull end);
                  ("timestamp"%string,
                   match Dict.get d_save "timestamp" with
                   | Some x => x | None => JNull end)]).
    set (f := fun p => Player.set_save_state p (Some blob)).
    set (room1 := Room.update_player room (Player.id player) f).
    set (rm1 := mkRoomManager
                  (Dict.setitem (rooms (room_manager w)) rid room1)
                  (player_to_room (room_manager w))
                  (socket_to_player (room_manager w))).
    set (w0 := mkWorld rm1 (active_connections w)).
    assert (Hsave_run :
      _handle_save_state socket_id (JDict d_save) w
      = unicast socket_id
          (MsgSaveStateResponse "save" true None
             "Game state saved successfully") w0).
    { unfold _handle_save_state.
      rewrite bind_query, He. unfold json_get, json_get_default.
      rewrite bind_lift_Ok, Hsave.
      cbn [json_eq_str String.eqb Ascii.eqb Bool.eqb].
      rewrite !bind_lift_Ok, bind_call.
      unfold store_save_state. rewrite Hr.
      rewrite bind_send_ret. reflexivity. }
    destruct (unicast_event socket_id
                (MsgSaveStateResponse "save" true None
                   "Game state saved successfully") w0)
      as (w1 & o1 & Hu1 & Hrm1 & _).
    assert (He1 : player_by_socket_entry (room_manager w1) socket_id
                  = Some (rid, room1, f player)).
    { rewrite Hrm1. cbn [w0 room_manager]. unfold rm1.
      apply (player_by_socket_entry_update _ _ _ room); auto. }
    pose proof (Hload_run w1 _ _ He1) as Hl. cbn [f Player.save_state blob] in Hl.
    cbn [Dict.get String.eqb Ascii.eqb Bool.eqb] in Hl.
    destruct (unicast_event socket_id
                (MsgSaveStateResponse "load" true (Some v)
                   "Game state loaded successfully") w1)
      as (w2 & o2 & Hu2 & Hrm2 & _).
    exists w1, o1, w2, o2. split; [now rewrite Hsave_run|].
    split; [now rewrite Hl|exact Hrm2].
  - intros Hnone. pose proof (Hload_run w _ _ He) as Hl.
    rewrite Hnone in Hl.
    destruct (unicast_event socket_id
                (MsgSaveStateResponse "load" false None "No save state found")
                w)
      as (w2 & o2 & Hu2 & Hrm2 & _).
    exists w2, o2. split; [now rewrite Hl|exact Hrm2].
Qed.

(** The theorem at Ash saving a blob and loading it back on connection
    s1. *)
Lemma save_then_load_witness :
  let v := match Dict.get [("action", JStr "save");
                           ("save_data", JStr "c2F2ZQ==")] "save_data" with
           | Some v => v
           | None => JNull
           end in
  (exists w1 o1 w2 o2,
     _handle_save_state "s1"
       (JDict [("action", JStr "save"); ("save_data", JStr "c2F2ZQ==")])
       world_linked
     = (Ok tt, w1,
        [mkSendEvent "s1"
           (MsgSaveStateResponse "save" true None
              "Game state saved successfully") o1]) /\
     _handle_save_state "s1" (JDict [("action", JStr "load")]) w1
     = (Ok tt, w2,
        [mkSendEvent "s1"
           (MsgSaveStateResponse "load" true (Some v)
              "Game state loaded successfully") o2]) /\
     room_manager w2 = room_manager w1) /\
  (Player.save_state ash_bound = None ->
   exists w2 o2,
     _handle_save_state "s1" (JDict [("action", JStr "load")]) world_linked
     = (Ok tt, w2,
        [mkSendEvent "s1"
           (MsgSaveStateResponse "load" false None "No save state found")
           o2]) /\
     room_manager w2 = room_manager world_linked).
Proof.
  apply (save_then_load "s1" world_linked
           [("action", JStr "save"); ("save_data", JStr "c2F2ZQ==")]
           [("action", JStr "load")] "ABC123" room_linked ash_bound);
    reflexivity.
Defined.

(** ** Status messages *)

(** X19. For a sender the connection resolves and a [player_status]
    message with a non-empty status string: if the string, upper-cased, is
    not the name of a status, the message is dropped, nothing is sent and
    nothing changes, no error either.  If it is, and its lower-cased form
    is a status value, the registry is updated exactly as by
    [update_player_status], the sender is then found with that status, and
    [player_status_updated], carrying the status string as the client wrote
    it and the room as it is after the update, goes to every member of that
    room with a handle, the sender not excluded. *)
Theorem player_status_message :
  forall socket_id now w d rid room player s,
    player_by_socket_entry (room_manager w) socket_id
    = Some (rid, room, player) ->
    Dict.get d "status" = Some (JStr s) ->
    truthy s = true ->
    (PlayerStatus_by_name (upper s) = None ->
     _handle_player_status socket_id (JDict d) now w = (Ok tt, w, [])) /\
    (forall st0 st,
       PlayerStatus_by_name (upper s) = Some st0 ->
       PlayerStatus_by_value (lower s) = Some st ->
       exists w' log room',
         _handle_player_status socket_id (JDict d) now w = (Ok tt, w', log) /\
         room_manager w'
         = snd (update_player_status (room_manager w) (Player.id player)
                                     st now) /\
         player_by_socket_entry (room_manager w') socket_id
         = Some (rid, room', Player.set_status player st) /\
         Forall (fun e => ev_message e
                          = MsgPlayerStatusUpdated (Player.id player)
                              (Player.name player) s room') log /\
         map ev_socket log
         = match get_room (room_manager w') (Room.id room') with
           | Some r => recipients r None
           | None => []
           end).
Proof.
  intros socket_id now w d rid room player s He Hstatus Hs.
  split.
  - intros Hname. unfold _handle_player_status.
    rewrite bind_query, He. unfold json_get, json_get_default.
    rewrite bind_lift_Ok, Hstatus. cbn [json_truthy]. rewrite Hs. cbn [negb].
    now rewrite Hname.
  - intros st0 st Hname Hvalue.
    pose proof He as He0.
    apply player_by_socket_entry_Some in He0.
    destruct He0 as (pid & _ & _ & Hentry & Hg & Hidp). subst pid.
    pose proof Hentry as Hentry0.
    apply player_room_entry_Some in Hentry0.
    destruct Hentry0 as (_ & _ & Hr).
    set (f := fun p => Player.set_status p st).
    set (room1 := Room.set_last_activity
                    (Room.update_player room (Player.id player) f) now).
    set (rm1 := mkRoomManager
                  (Dict.setitem (rooms (room_manager w)) rid room1)
                  (player_to_room (room_manager w))
                  (socket_to_player (room_manager w))).
    assert (Hupd : update_player_status (room_manager w) (Player.id player)
                                        st now = (true, rm1)).
    { unfold update_player_status. now rewrite Hentry, Hg. }
    set (w1 := mkWorld rm1 (active_connections w)).
    destruct (broadcast_to_room_run (Room.id room1)
                (MsgPlayerStatusUpdated (Player.id player)
                   (Player.name player) s room1) None w1)
      as (w' & log & Hrun & Hrm & Hsock & Hmsg & _).
    exists w', log, room1.
    split.
    { unfold _handle_player_status.
      rewrite bind_query, He. unfold json_get, json_get_default.
      rewrite bind_lift_Ok, Hstatus. cbn [json_truthy]. rewrite Hs.
      cbn [negb]. rewrite Hname, Hvalue, bind_lift_Ok, bind_call, Hupd.
      cbn [fst snd]. fold w1. rewrite bind_query.
      cbn [w1 room_manager].
      assert (Hget1 : Dict.get (rooms rm1) rid = Some room1)
        by (unfold rm1; cbn [rooms]; apply Dict_get_setitem_eq).
      rewrite Hget1. exact Hrun. }
    rewrite Hrm. cbn [w1 room_manager].
    split; [now rewrite Hupd|].
    split.
    { unfold rm1.
      apply (player_by_socket_entry_update (room_manager w) socket_id rid
               room player room1 f); auto. }
    split; [exact Hmsg|exact Hsock].
Qed.

(** The theorem at Misty reporting PLAYING, in upper case, on connection
    s2. *)
Lemma player_status_message_witness :
  (PlayerStatus_by_name (upper "PLAYING") = None ->
   _handle_player_status "s2" (JDict [("status", JStr "PLAYING")]) 800
                         world_linked
   = (Ok tt, world_linked, [])) /\
  (forall st0 st,
     PlayerStatus_by_name (upper "PLAYING") = Some st0 ->
     PlayerStatus_by_value (lower "PLAYING") = Some st ->
     exists w' log room',
       _handle_player_status "s2" (JDict [("status", JStr "PLAYING")]) 800
                             world_linked
       = (Ok tt, w', log) /\
       room_manager w'
       = snd (update_player_status (room_manager world_linked)
                                   (Player.id misty_bound) st 800) /\
       player_by_socket_entry (room_manager w') "s2"
       = Some ("ABC123"%string, room', Player.set_status misty_bound st) /\
       Forall (fun e => ev_message e
                        = MsgPlayerStatusUpdated (Player.id misty_bound)
                            (Player.name misty_bound) "PLAYING" room') log /\
       map ev_socket log
       = match get_room (room_manager w') (Room.id room') with
         | Some r => recipients r None
         | None => []
         end).
Proof.
  apply (player_status_message "s2" 800 world_linked
           [("status", JStr "PLAYING")] "ABC123" room_linked misty_bound
           "PLAYING"); reflexivity.
Defined.

(** * Properties of the room routes *)

(** X20. [POST /api/rooms/join] answers with [success = True] exactly when
    [join_room] succeeded, the database write returned and the response
    validated; it has then written the room it returns under the room's
    id.  When [join_room] fails, the answer is a normal one with
    [success = False] and the message of [join_room], nothing is written
    and the registry is unchanged.  When [join_room] succeeds but the
    database write raises, or the response does not validate after the
    write, the answer is error 500, in the second case with the write
    done; in neither case is the join undone: the registry is the one
    [join_room] left, with the new player indexed to the room. *)
Theorem join_room_route_outcomes :
  forall self room_id name rom d db_ok response_ok,
    let joined := join_room self room_id name rom d in
    let out := join_room_route self room_id name rom d db_ok response_ok in
    snd (fst out) = snd joined /\
    match fst (fst (fst joined)), snd (fst (fst joined)) with
    | Some room, Some player =>
        Dict.get (player_to_room (snd (fst out))) (Player.id player)
        = Some (Room.id room) /\
        out = (if db_ok && response_ok
               then Returned (mkJoinRoomResponse true (Some room)
                                (Some (Player.id player)) msg_joined)
               else HTTPException 500 "Failed to join room",
               snd joined,
               if db_ok then [DbUpdateRoom (Room.id room) room] else [])
    | _, _ =>
        exists message,
          out = (Returned (mkJoinRoomResponse false None None message),
                 self, []) /\
          In message [msg_not_found; msg_inactive; msg_full; msg_failed]
    end.
Proof.
  intros self room_id name rom d db_ok response_ok. cbv zeta.
  unfold join_room_route, join_room.
  destruct (Dict.get (rooms self) (upper room_id)) as [room|].
  2:{ cbn. split; [reflexivity|]. exists msg_not_found. cbn. tauto. }
  destruct (negb (Room.is_active room)).
  { cbn. split; [reflexivity|]. exists msg_inactive. cbn. tauto. }
  destruct (Room.len_players room >=? Room.max_players room).
  { cbn. split; [reflexivity|]. exists msg_full. cbn. tauto. }
  match goal with
  | |- context [Room.add_player room ?p ?t] =>
      destruct (Room.add_player room p t) as [[ok room'] player]
  end.
  destruct ok.
  - cbn [fst snd]. destruct db_ok, response_ok;
      cbn [fst snd player_to_room andb];
      (split; [reflexivity|]); (split; [apply Dict_get_setitem_eq|]);
      reflexivity.
  - cbn. split; [reflexivity|]. exists msg_failed. cbn. tauto.
Qed.

(** X21. [DELETE /api/rooms/{room_id}] takes the code as it is written,
    while [GET /api/rooms/{room_id}] upper-cases it: when the code is not
    itself a key of the registry but its upper-case form is, the delete
    answers "Room deleted successfully" and asks the database to delete
    that code, yet the registry is untouched and the get with the same code
    still returns the room. *)
Theorem delete_room_route_is_case_sensitive :
  forall self room_id now room,
    Dict.get (rooms self) room_id = None ->
    get_room self room_id = Some room ->
    let out := delete_room_route self room_id now true in
    out = (Returned "Room deleted successfully"%string, self,
           [DbDeleteRoom room_id]) /\
    get_room_route (snd (fst out)) room_id = Returned room.
Proof.
  intros self room_id now room Hnone Hget. cbv zeta.
  assert (Hsame : remove_room self room_id now = self)
    by (unfold remove_room; now rewrite Hnone).
  unfold delete_room_route. rewrite Hsame. cbn [fst snd].
  split; [reflexivity|]. unfold get_room_route. now rewrite Hget.
Qed.

(** The theorem at the room of Ash, asked for in lower case. *)
Lemma delete_room_route_is_case_sensitive_witness :
  delete_room_route registry_ash "abc123" 900 true
  = (Returned "Room deleted successfully"%string, registry_ash,
     [DbDeleteRoom "abc123"]) /\
  get_room_route
    (snd (fst (delete_room_route registry_ash "abc123" 900 true))) "abc123"
  = Returned room_ash.
Proof.
  apply (delete_room_route_is_case_sensitive registry_ash "abc123" 900
           room_ash); reflexivity.
Defined.

(** X22. [DELETE /api/rooms/{room_id}] with a code that is a key of a
    consistent registry empties the room out of the registry before the
    database is asked: whether the database call returns or raises (and
    the answer is then error 500), the registry is consistent, it has no
    room under that code, no member of the room is indexed to a room any
    more, and every other room is registered as before. *)
Theorem delete_room_route_unregisters :
  forall self room_id now room db_ok,
    registry_ok self ->
    Dict.get (rooms self) room_id = Some room ->
    let out := delete_room_route self room_id now db_ok in
    let self' := snd (fst out) in
    fst (fst out)
    = (if db_ok then Returned "Room deleted successfully"%string
       else HTTPException 500 "Failed to delete room") /\
    registry_ok self' /\
    Dict.get (rooms self') room_id = None /\
    (forall p, In p (Room.players room) ->
               get_player_room self' (Player.id p) = None) /\
    (forall k, k <> room_id ->
               Dict.get (rooms self') k = Dict.get (rooms self) k).
Proof.
  intros self room_id now room db_ok Hok Hget. cbv zeta.
  destruct (remove_room_spec self room_id now Hok) as (Hok' & Hrooms & Hp2r).
  assert (Hst : snd (fst (delete_room_route self room_id now db_ok))
                = remove_room self room_id now)
    by (unfold delete_room_route; now destruct db_ok).
  rewrite Hst.
  assert (Hgone : Dict.get (rooms (remove_room self room_id now)) room_id
                  = None)
    by (rewrite Hrooms; now rewrite String.eqb_refl).
  split; [unfold delete_room_route; now destruct db_ok|].
  split; [exact Hok'|]. split; [exact Hgone|]. split.
  - intros p Hin. unfold get_player_room, player_room_entry.
    destruct (Dict.get (player_to_room (remove_room self room_id now))
                       (Player.id p)) as [x|] eqn:Hx; [|reflexivity].
    apply Hp2r in Hx.
    pose proof (ok_member _ Hok _ _ _ Hget Hin) as Hm.
    assert (x = room_id) by congruence. subst x.
    rewrite Hgone. now destruct (truthy room_id).
  - intros k Hk. rewrite Hrooms.
    destruct (String.eqb_spec room_id k) as [->|_]; [now elim Hk|reflexivity].
Qed.

(** The theorem at the room of Ash, the database call failing. *)
Lemma delete_room_route_unregisters_witness :
  let out := delete_room_route registry_ash "ABC123" 900 false in
  let self' := snd (fst out) in
  fst (fst out) = HTTPException 500 "Failed to delete room" /\
  registry_ok self' /\
  Dict.get (rooms self') "ABC123" = None /\
  (forall p, In p (Room.players room_ash) ->
             get_player_room self' (Player.id p) = None) /\
  (forall k, k <> "ABC123"%string ->
             Dict.get (rooms self') k = Dict.get (rooms registry_ash) k).
Proof.
  apply (delete_room_route_unregisters registry_ash "ABC123" 900
           room_ash false).
  - exact registry_ok_registry_ash.
  - reflexivity.
Defined.
